(** * pdf-maestro: the page-selection language and the merge worker

    A shallow embedding of [PdfMergerThread] from [merge.py]:
    [parse_page_selection] (the selection parser and resolver, one
    function in the source) and [run] (the merge worker), together with
    the Python built-ins they call; of the file list of [PDFMergerApp]
    (adding, removing, moving and sorting files, the drag-and-drop
    order, the start of a merge); and of the selections kept by
    [PdfPageSelectionDialog].

    Python values are modelled as follows.
    - [int] is [Z] (unbounded).
    - [str] is [string]; a character is a code point below 256, so the
      development covers Latin-1 text.  The tables for [str.isspace],
      [str.lower] and [int] below are the CPython ones restricted to that
      range.
    - [set] of [int] is [gset Z]; [sorted] is a merge sort of its
      elements.
    - an exception is a value of [exn]; code that can raise returns a
      [result]. *)

From Stdlib Require Import ZArith QArith Qround Qpower SpecFloat Ascii
  String DecimalString List Lia Lqa.
From stdpp Require Import base decidable option list list_numbers sorting
  gmap strings.

#[local] Set Warnings "-clear-no-such-hyp".

Local Open Scope string_scope.
Local Open Scope Z_scope.

(** ** Exceptions *)

Inductive exn_class : Set :=
  | ValueError
  | IndexError
  | ZeroDivisionError
  | OSError
  | PdfReadError.

(** [exn_msg] is what [str(e)] returns. *)
Record exn : Set := Exn { exn_cls : exn_class; exn_msg : string }.

Inductive result (A : Type) : Type :=
  | Ok (a : A)
  | Raise (e : exn).
Arguments Ok {A} a.
Arguments Raise {A} e.

Definition rbind {A B} (m : result A) (k : A -> result B) : result B :=
  match m with
  | Ok a => k a
  | Raise e => Raise e
  end.

Notation "x <- m ;; k" := (rbind m (fun x => k))
  (at level 100, m at next level, right associativity).

Definition is_ValueError (e : exn) : bool :=
  match exn_cls e with ValueError => true | _ => false end.

(** [try: body / except ValueError: handler]. *)
Definition try_except_ValueError {A} (body : result A) (handler : result A)
  : result A :=
  match body with
  | Ok a => Ok a
  | Raise e => if is_ValueError e then handler else Raise e
  end.

(** A [for] loop over a list, with a body that can raise. *)
Fixpoint for_each {A S} (body : S -> A -> result S) (st : S) (xs : list A)
  : result S :=
  match xs with
  | [] => Ok st
  | x :: xs' => st' <- body st x ;; for_each body st' xs'
  end.

(** ** Python strings *)

Module PyStr.

Definition code (c : ascii) : N := N_of_ascii c.

(** [str.isspace] on code points below 256. *)
Definition isspace (c : ascii) : bool :=
  let n := code c in
  ((9 <=? n) && (n <=? 13) || (28 <=? n) && (n <=? 32)
   || (n =? 133) || (n =? 160))%N.

(** The white space [int()] skips: 0x1c..0x1f are not part of it. *)
Definition int_isspace (c : ascii) : bool :=
  let n := code c in
  ((9 <=? n) && (n <=? 13) || (n =? 32) || (n =? 133) || (n =? 160))%N.

Definition lower_char (c : ascii) : ascii :=
  let n := code c in
  if ((65 <=? n) && (n <=? 90)
      || (192 <=? n) && (n <=? 222) && negb (n =? 215))%N
  then ascii_of_N (n + 32) else c.

Fixpoint lower (s : string) : string :=
  match s with
  | EmptyString => EmptyString
  | String c s' => String (lower_char c) (lower s')
  end.

Fixpoint lstrip_with (sp : ascii -> bool) (s : string) : string :=
  match s with
  | EmptyString => EmptyString
  | String c s' => if sp c then lstrip_with sp s' else s
  end.

Fixpoint rev_app (s acc : string) : string :=
  match s with
  | EmptyString => acc
  | String c s' => rev_app s' (String c acc)
  end.

Definition rev (s : string) : string := rev_app s EmptyString.

Definition strip_with (sp : ascii -> bool) (s : string) : string :=
  rev (lstrip_with sp (rev (lstrip_with sp s))).

(** [s.strip()] *)
Definition strip (s : string) : string := strip_with isspace s.

(** [bool(s)] *)
Definition nonempty (s : string) : bool :=
  match s with EmptyString => false | String _ _ => true end.

(** [s.startswith(c)] for a one-character [c]. *)
Definition startswith (c : ascii) (s : string) : bool :=
  match s with
  | EmptyString => false
  | String d _ => Ascii.eqb d c
  end.

(** [s[1:]] *)
Definition tail (s : string) : string :=
  match s with
  | EmptyString => EmptyString
  | String _ s' => s'
  end.

(** [c in s] for a one-character [c]. *)
Fixpoint contains (c : ascii) (s : string) : bool :=
  match s with
  | EmptyString => false
  | String d s' => Ascii.eqb d c || contains c s'
  end.

(** [s.split(c)] for a one-character separator. *)
Fixpoint split (c : ascii) (s : string) : list string :=
  match s with
  | EmptyString => [EmptyString]
  | String d s' =>
      if Ascii.eqb d c then EmptyString :: split c s'
      else match split c s' with
           | [] => [String d EmptyString]
           | h :: t => String d h :: t
           end
  end.

(** [s.split(c, 1)]: cut at the first separator, if there is one. *)
Fixpoint split1 (c : ascii) (s : string) : list string :=
  match s with
  | EmptyString => [EmptyString]
  | String d s' =>
      if Ascii.eqb d c then [EmptyString; s']
      else match split1 c s' with
           | [] => [String d EmptyString]
           | h :: t => String d h :: t
           end
  end.

(** [c.join(l)] *)
Fixpoint join (c : ascii) (l : list string) : string :=
  match l with
  | [] => EmptyString
  | [s] => s
  | s :: l' => s ++ String c (join c l')
  end.

(** [os.path.basename] (POSIX): what follows the last slash. *)
Fixpoint basename (p : string) : string :=
  match p with
  | EmptyString => EmptyString
  | String c p' =>
      if contains "/" p then basename p' else p
  end.

End PyStr.

(** ** [int(s)] on a string *)

Section PyInt.

(** [sys.get_int_max_str_digits()]: 4300 unless reconfigured; 0 switches
    the limit off.  CPython applies it only above 640 digits. *)
Variable int_max_str_digits : nat.

Definition digit_value (c : ascii) : option Z :=
  let n := PyStr.code c in
  if ((48 <=? n) && (n <=? 57))%N then Some (Z.of_N n - 48) else None.

(** Digits with single underscores between them; [prev_us] holds when the
    previous character was an underscore or there was none.  Returns the
    value and the number of digits. *)
Fixpoint int_digits (s : string) (prev_us : bool) (acc : Z) (nd : nat)
  : option (Z * nat) :=
  match s with
  | EmptyString => if prev_us then None else Some (acc, nd)
  | String c s' =>
      if Ascii.eqb c "_" then
        if prev_us then None else int_digits s' true acc nd
      else
        match digit_value c with
        | Some d => int_digits s' false (10 * acc + d) (S nd)
        | None => None
        end
  end.

Definition int_literal_error : exn :=
  Exn ValueError "invalid literal for int() with base 10".
Definition int_limit_error : exn :=
  Exn ValueError "Exceeds the limit for integer string conversion".

Definition over_digit_limit (nd : nat) : bool :=
  (640 <? nd)%nat && (0 <? int_max_str_digits)%nat
  && (int_max_str_digits <? nd)%nat.

(** An optional sign, then the digits. *)
Definition int_sign (s : string) : bool * string :=
  match s with
  | String c s' =>
      if Ascii.eqb c "-" then (true, s')
      else if Ascii.eqb c "+" then (false, s')
      else (false, s)
  | EmptyString => (false, s)
  end.

Definition py_int (s : string) : result Z :=
  let s := PyStr.strip_with PyStr.int_isspace s in
  let '(negative, body) := int_sign s in
  match int_digits body true 0 0 with
  | None => Raise int_literal_error
  | Some (v, nd) =>
      if over_digit_limit nd then Raise int_limit_error
      else Ok (if negative then - v else v)
  end.

End PyInt.

(** ** [range] and [sorted] *)

(** [range(a, b)] *)
Definition py_range (a b : Z) : list Z := seqZ a (b - a).

(** [sorted(s)] for a set of integers. *)
Definition sorted (s : gset Z) : list Z := merge_sort Z.le (elements s).

(** ** [PdfMergerThread.parse_page_selection] *)

Section Selection.

Variable int_max_str_digits : nat.

Abbreviation int := (py_int int_max_str_digits).

(** The two accumulators of the loop, [pages_to_include] and
    [pages_to_exclude]. *)
Definition acc : Type := gset Z * gset Z.

(** [start, end = part.split('-', 1)]: unpacking anything but two values
    is a [ValueError], raised outside the [try]. *)
Definition unpack2 (l : list string) : result (string * string) :=
  match l with
  | [a; b] => Ok (a, b)
  | _ => Raise (Exn ValueError "wrong number of values to unpack")
  end.

(** The body of [for part in selection_str.split(',')]; [continue] is
    returning the accumulators as they are. *)
Definition loop_body (total_pages : Z) (st : acc) (part : string)
  : result acc :=
  let '(pages_to_include, pages_to_exclude) := st in
  let part := PyStr.strip part in
  if negb (PyStr.nonempty part) then Ok st
  else
    let is_exclude := PyStr.startswith "-" part in
    let part := if is_exclude then PyStr.tail part else part in
    if PyStr.contains "-" part then
      se <- unpack2 (PyStr.split1 "-" part) ;;
      let start := fst se in
      let end_ := snd se in
      try_except_ValueError
        (start_idx <- (if PyStr.nonempty start
                       then v <- int start ;; Ok (v - 1) else Ok 0) ;;
         end_idx <- (if PyStr.nonempty end_
                     then v <- int end_ ;; Ok (v - 1)
                     else Ok (total_pages - 1)) ;;
         let start_idx := Z.max 0 start_idx in
         let end_idx := Z.min (total_pages - 1) end_idx in
         let page_range : gset Z :=
           list_to_set (py_range start_idx (end_idx + 1)) in
         if is_exclude
         then Ok (pages_to_include, pages_to_exclude ∪ page_range)
         else Ok (pages_to_include ∪ page_range, pages_to_exclude))
        (Ok st)
    else
      try_except_ValueError
        (page_idx <- (v <- int part ;; Ok (v - 1)) ;;
         if ((0 <=? page_idx) && (page_idx <? total_pages))%Z then
           if is_exclude
           then Ok (pages_to_include, pages_to_exclude ∪ {[page_idx]})
           else Ok (pages_to_include ∪ {[page_idx]}, pages_to_exclude)
         else Ok st)
        (Ok st).

(** What follows the loop: choose the base, subtract, sort. *)
Definition finish (total_pages : Z) (st : acc) : list Z :=
  let '(pages_to_include, pages_to_exclude) := st in
  let all_pages : gset Z := list_to_set (py_range 0 total_pages) in
  let result :=
    if bool_decide (pages_to_include ≠ ∅) then pages_to_include
    else all_pages in
  let result := result ∖ pages_to_exclude in
  sorted result.

Definition parse_page_selection (selection_str : string) (total_pages : Z)
  : result (list Z) :=
  if negb (PyStr.nonempty selection_str)
     || String.eqb (PyStr.lower selection_str) "all"
  then Ok (py_range 0 total_pages)
  else
    st <- for_each (loop_body total_pages) (∅, ∅)
            (PyStr.split "," selection_str) ;;
    Ok (finish total_pages st).

End Selection.

(** ** The loop read token by token

    The source has no token type: one loop body strips an item, reads its
    polarity, splits it, converts the literals and updates a set.  The
    definitions below name those steps, and [loop_body_tokenize] shows
    that they are the loop body. *)

Inductive polarity : Set := Include | Exclude.

Inductive shape : Set :=
  | SinglePage (n : Z)
  | Range (start end_ : option Z).

Record token : Set := Token { tok_polarity : polarity; tok_shape : shape }.

Global Instance polarity_eq_dec : EqDecision polarity.
Proof. solve_decision. Defined.

Section Tokens.

Variable int_max_str_digits : nat.

Abbreviation int := (py_int int_max_str_digits).

(** One side of a range: [int(x) if x else <default>]. *)
Definition bound (x : string) : option (option Z) :=
  if PyStr.nonempty x then
    match int x with Ok v => Some (Some v) | Raise _ => None end
  else Some None.

(** The item as the loop body reads it, up to the conversions; [None] for
    an item the loop skips ([continue] on a blank item or in an
    [except ValueError]). *)
Definition tokenize (item : string) : option token :=
  let part := PyStr.strip item in
  if negb (PyStr.nonempty part) then None
  else
    let is_exclude := PyStr.startswith "-" part in
    let pol := if is_exclude then Exclude else Include in
    let part := if is_exclude then PyStr.tail part else part in
    if PyStr.contains "-" part then
      match PyStr.split1 "-" part with
      | [start; end_] =>
          match bound start, bound end_ with
          | Some s, Some e => Some (Token pol (Range s e))
          | _, _ => None
          end
      | _ => None
      end
    else
      match int part with
      | Ok v => Some (Token pol (SinglePage v))
      | Raise _ => None
      end.

(** The 0-based pages the loop body adds for a token. *)
Definition token_pages (total_pages : Z) (t : token) : gset Z :=
  match tok_shape t with
  | SinglePage p =>
      let page_idx := p - 1 in
      if ((0 <=? page_idx) && (page_idx <? total_pages))%Z
      then {[page_idx]} else ∅
  | Range s e =>
      let start_idx := from_option (fun v => v - 1) 0 s in
      let end_idx := from_option (fun v => v - 1) (total_pages - 1) e in
      let start_idx := Z.max 0 start_idx in
      let end_idx := Z.min (total_pages - 1) end_idx in
      list_to_set (py_range start_idx (end_idx + 1))
  end.

Definition add_token (total_pages : Z) (st : acc) (t : token) : acc :=
  match tok_polarity t with
  | Include => (st.1 ∪ token_pages total_pages t, st.2)
  | Exclude => (st.1, st.2 ∪ token_pages total_pages t)
  end.

(** The tokens of a selection string. *)
Definition parse (selection_str : string) : list token :=
  if negb (PyStr.nonempty selection_str)
     || String.eqb (PyStr.lower selection_str) "all"
  then []
  else omap tokenize (PyStr.split "," selection_str).

(** The pages kept for a token sequence. *)
Definition resolve (tokens : list token) (total_pages : Z) : list Z :=
  finish total_pages (foldl (add_token total_pages) (∅, ∅) tokens).

(** The union of the page sets of the tokens of one polarity. *)
Definition pages_of (pol : polarity) (total_pages : Z) (tokens : list token)
  : gset Z :=
  ⋃ (token_pages total_pages
       <$> filter (fun t => tok_polarity t = pol) tokens).

End Tokens.

(** ** Python floats

    A finite [float] is modelled by the rational it denotes.  [fround] is
    rounding to the nearest binary64 value, ties to even, which is what
    CPython's [int / int], [float(int)] and [float * float] apply to the
    exact result.  The exponent range is not modelled: [run] divides an
    index by a list length, so every non-zero value that arises lies
    between [2^-63] and [100]. *)

Module PyFloat.

Local Open Scope Q_scope.

Definition pow2 (e : Z) : Q := 2 ^ e.

(** [floor (log2 x)] for a positive [x]. *)
Definition ilog2 (x : Q) : Z :=
  let d := (Z.log2 (Qnum x) - Z.log2 (Z.pos (Qden x)))%Z in
  if Qle_bool (pow2 d) x then d else (d - 1)%Z.

(** The nearest integer, ties to even. *)
Definition round_half_even (x : Q) : Z :=
  let f := Qfloor x in
  match ((x - inject_Z f) ?= (1 # 2))%Q with
  | Lt => f
  | Gt => (f + 1)%Z
  | Eq => if Z.even f then f else (f + 1)%Z
  end.

(** A positive [x] rounded to 53 significant bits. *)
Definition round_pos (x : Q) : Q :=
  let u := (ilog2 x - 52)%Z in
  inject_Z (round_half_even (x * pow2 (- u))) * pow2 u.

Definition fround (x : Q) : Q :=
  match x ?= 0 with
  | Eq => 0
  | Gt => round_pos x
  | Lt => - round_pos (- x)
  end.

(** [a / b] for two [int]s. *)
Definition int_truediv (a b : Z) : result Q :=
  if (b =? 0)%Z then Raise (Exn ZeroDivisionError "division by zero")
  else Ok (fround (inject_Z a / inject_Z b)).

(** [x * k] for a [float] and an [int]. *)
Definition float_mul_int (x : Q) (k : Z) : Q :=
  fround (x * fround (inject_Z k)).

(** [int(x)]: truncation towards zero. *)
Definition int_of_float (x : Q) : Z :=
  if Qle_bool 0%Q x then Qfloor x else Qceiling x.

End PyFloat.

(** [int((i / n) * 100)] *)
Definition progress_percent (i n : Z) : result Z :=
  q <- PyFloat.int_truediv i n ;;
  Ok (PyFloat.int_of_float (PyFloat.float_mul_int q 100)).

(** Its value when [n] is not zero. *)
Definition percent (i n : Z) : Z :=
  PyFloat.int_of_float
    (PyFloat.float_mul_int (PyFloat.fround (inject_Z i / inject_Z n)) 100).

(** ** Binary64 as the Standard Library specifies it

    [SpecFloat] is the specification of the IEEE 754 operations behind
    Rocq's primitive floats.  The three functions below compute the
    progress percentage with it, at precision 53 and maximal exponent
    1024; [percent_agrees_with_binary64] compares them with [PyFloat]. *)

Module Binary64.

Definition of_int (z : Z) : spec_float := binary_normalize 53 1024 z 0 false.

Definition to_Q (f : spec_float) : Q :=
  match f with
  | S754_finite s m e =>
      let v := (inject_Z (Z.pos m) * PyFloat.pow2 e)%Q in
      if s then (- v)%Q else v
  | _ => 0%Q
  end.

Definition quotient (i n : Z) : spec_float :=
  SFdiv 53 1024 (of_int i) (of_int n).

Definition times_100 (x : spec_float) : spec_float :=
  SFmul 53 1024 x (of_int 100).

(** Both models give the same quotient, product and percentage. *)
Definition agrees (i n : Z) : bool :=
  Qeq_bool (PyFloat.fround (inject_Z i / inject_Z n)) (to_Q (quotient i n))
  && Qeq_bool
       (PyFloat.float_mul_int (PyFloat.fround (inject_Z i / inject_Z n)) 100)
       (to_Q (times_100 (quotient i n)))
  && (percent i n =? Qfloor (to_Q (times_100 (quotient i n)))).

End Binary64.

(** [str(n)] for an [int]. *)
Definition py_str (n : Z) : string := NilZero.string_of_int (Z.to_int n).

(** ** [PdfMergerThread.run]

    The worker talks to three things outside it: PyPDF2 (reading the
    inputs, serialising the output), the file system (the output file)
    and the two Qt signals.  [env] holds what the first two answer; a
    [world] holds the durable files and the trace of what the worker did. *)

(** [PdfReader(path)] gives a reader or raises; [reader.pages] gives the
    pages or raises.  A page that was listed can be fetched, and
    [add_page] does not fail. *)
Record reader (Page : Type) : Type := Reader { reader_pages : result (list Page) }.
Arguments Reader {Page} _.
Arguments reader_pages {Page} _.

Record env (Page : Type) : Type := Env {
  (** [PdfReader(path)] *)
  PdfReader : string -> result (reader Page);
  (** the bytes [PdfWriter.write] produces for the pages added *)
  writer_bytes : list Page -> list Byte.byte;
  (** the exception [open(path, 'wb')] raises, if it does; otherwise the
      file is created or truncated *)
  open_wb_error : string -> option exn;
  (** the exception the write raises, if it does, and how many bytes had
      reached the file by then *)
  write_error : list Byte.byte -> option (nat * exn)
}.
Arguments PdfReader {Page} _ _.
Arguments writer_bytes {Page} _ _.
Arguments open_wb_error {Page} _ _.
Arguments write_error {Page} _ _.

Inductive event : Type :=
  | Progress (percent : Z)                        (* update_progress.emit *)
  | Finished (success : bool) (message : string)  (* finished_signal.emit *)
  | ReadPdf (path : string)                       (* PdfReader(path) *)
  | OpenWb (path : string)                        (* open(path, 'wb') succeeded *)
  | WritePdf (path : string).                     (* pdf_writer.write completed *)

Record world : Type := World {
  trace : list event;
  files : gmap string (list Byte.byte)
}.

Definition emit (e : event) (w : world) : world :=
  {| trace := (trace w ++ [e])%list; files := files w |}.

Record PdfMergerThread : Type := Self {
  pdf_files : list string;
  output_file : string;
  page_selections : gmap string string
}.

(** [__init__]: the list is copied, [page_selections or {}]. *)
Definition init (pdf_files : list string) (output_file : string)
    (page_selections : option (gmap string string)) : PdfMergerThread :=
  {| pdf_files := pdf_files;
     output_file := output_file;
     page_selections := default ∅ page_selections |}.

(** How a statement of the loop ends. *)
Inductive control (A : Type) : Type :=
  | Next (a : A)      (* falls through *)
  | Return_           (* [return] *)
  | Throw (e : exn).  (* an exception leaves the loop *)
Arguments Next {A} a.
Arguments Return_ {A}.
Arguments Throw {A} e.

Section Worker.

Variable int_max_str_digits : nat.
Context {Page : Type}.
Variable E : env Page.
Variable self : PdfMergerThread.

(** [pages[k]] on a list, negative indices counting from the end. *)
Definition getitem (pages : list Page) (k : Z) : result Page :=
  let n := Z.of_nat (length pages) in
  let k' := if (k <? 0)%Z then k + n else k in
  match (if ((0 <=? k') && (k' <? n))%Z then pages !! Z.to_nat k' else None) with
  | Some p => Ok p
  | None => Raise (Exn IndexError "sequence index out of range")
  end.

(** [for page_num in pages_to_include:
       pdf_writer.add_page(pdf_reader.pages[page_num])] *)
Definition add_pages (pages : list Page) (pdf_writer : list Page)
    (pages_to_include : list Z) : result (list Page) :=
  for_each
    (fun writer page_num =>
       page <- getitem pages page_num ;; Ok ((writer ++ [page])%list))
    pdf_writer pages_to_include.

(** The body of the inner [try], from the reader on. *)
Definition try_body (pdf_file : string) (pdf_writer : list Page)
  : result (list Page) :=
  pdf_reader <- PdfReader E pdf_file ;;
  pages <- reader_pages pdf_reader ;;
  let total_pages := Z.of_nat (length pages) in
  let selection_str := default "-1" (page_selections self !! pdf_file) in
  pages_to_include <-
    parse_page_selection int_max_str_digits selection_str total_pages ;;
  add_pages pages pdf_writer pages_to_include.

(** [for i, pdf_file in enumerate(self.pdf_files)], from index [i] on. *)
Fixpoint loop (rest : list string) (i : Z) (pdf_writer : list Page)
    (w : world) : control (list Page) * world :=
  match rest with
  | [] => (Next pdf_writer, w)
  | pdf_file :: rest' =>
      match progress_percent i (Z.of_nat (length (pdf_files self))) with
      | Raise e => (Throw e, w)
      | Ok progress =>
          let w := emit (Progress progress) w in
          let w := emit (ReadPdf pdf_file) w in
          match try_body pdf_file pdf_writer with
          | Ok pdf_writer' => loop rest' (i + 1) pdf_writer' w
          | Raise e =>
              (Return_,
               emit (Finished false
                       ("Error processing " ++ PyStr.basename pdf_file
                        ++ ": " ++ exn_msg e)) w)
          end
      end
  end.

(** [with open(self.output_file, 'wb') as out_file:
       pdf_writer.write(out_file)] *)
Definition write_output (pdf_writer : list Page) (w : world)
  : result unit * world :=
  let out := output_file self in
  match open_wb_error E out with
  | Some e => (Raise e, w)
  | None =>
      let w := {| trace := (trace w ++ [OpenWb out])%list;
                  files := <[out := []]> (files w) |} in
      let data := writer_bytes E pdf_writer in
      match write_error E data with
      | Some (k, e) =>
          (Raise e,
           {| trace := trace w; files := <[out := take k data]> (files w) |})
      | None =>
          (Ok tt,
           {| trace := (trace w ++ [WritePdf out])%list;
              files := <[out := data]> (files w) |})
      end
  end.

(** The handler of the outer [try]. *)
Definition merge_error (e : exn) (w : world) : world :=
  emit (Finished false ("Error during merge: " ++ exn_msg e)) w.

Definition run (w : world) : world :=
  match loop (pdf_files self) 0 [] w with
  | (Return_, w) => w
  | (Throw e, w) => merge_error e w
  | (Next pdf_writer, w) =>
      if (0 <? length pdf_writer)%nat then
        match write_output pdf_writer w with
        | (Raise e, w) => merge_error e w
        | (Ok _, w) =>
            let w := emit (Progress 100) w in
            emit (Finished true
                    ("Successfully merged "
                     ++ py_str (Z.of_nat (length (pdf_files self)))
                     ++ " PDFs into " ++ output_file self)) w
        end
      else
        emit (Finished false
                "No pages to merge after applying page selections") w
  end.

End Worker.

(** ** Vocabulary of the statements about the selection language *)

(** The resolver's clamping read as bringing every bound to the nearest
    valid index, for every token shape.  [token_pages] above is what the
    loop does; this is the reading it is compared with. *)
Definition nearest_valid_index (total_pages x : Z) : Z :=
  Z.max 0 (Z.min (total_pages - 1) x).

Definition nearest_bound_pages (total_pages : Z) (t : token) : gset Z :=
  match tok_shape t with
  | SinglePage p => {[nearest_valid_index total_pages (p - 1)]}
  | Range s e =>
      let start_idx := from_option (fun v => v - 1) 0 s in
      let end_idx := from_option (fun v => v - 1) (total_pages - 1) e in
      list_to_set
        (py_range (nearest_valid_index total_pages start_idx)
                  (nearest_valid_index total_pages end_idx + 1))
  end.

(** A literal of the token is negative. *)
Definition negative_literal (t : token) : bool :=
  match tok_shape t with
  | SinglePage p => (p <? 0)%Z
  | Range s e =>
      from_option (fun v => (v <? 0)%Z) false s
      || from_option (fun v => (v <? 0)%Z) false e
  end.

(** Both bounds are given and the range runs backwards. *)
Definition inconsistent_bounds (t : token) : bool :=
  match tok_shape t with
  | Range (Some s) (Some e) => (e <? s)%Z
  | _ => false
  end.

(** The items the parser is said to discard: a literal does not convert,
    or converts to a negative number, or the bounds are inconsistent. *)
Definition defective (int_max_str_digits : nat) (item : string) : bool :=
  match tokenize int_max_str_digits item with
  | None => true
  | Some t => negative_literal t || inconsistent_bounds t
  end.

Definition comma_free (item : string) : Prop :=
  PyStr.contains "," item = false.


(** ** Vocabulary of the statements about the worker *)

(** The percentages, the terminal messages and the documents opened, in
    the order of the trace. *)
Definition progress_values (t : list event) : list Z :=
  omap (fun e => match e with Progress p => Some p | _ => None end) t.

Definition finished_events (t : list event) : list (bool * string) :=
  omap (fun e => match e with Finished ok m => Some (ok, m) | _ => None end) t.


Definition output_events (t : list event) : list event :=
  omap (fun e => match e with OpenWb _ | WritePdf _ => Some e | _ => None end)
       t.

(** What the loop logs for the documents [rest], the first of which has
    index [i], when none of them stops it: the percentage, then the
    opening of the document. *)
Fixpoint loop_events (n i : Z) (rest : list string) : list event :=
  match rest with
  | [] => []
  | pdf_file :: rest' =>
      Progress (percent i n) :: ReadPdf pdf_file :: loop_events n (i + 1) rest'
  end.

Section WorkerVocabulary.

Variable int_max_str_digits : nat.
Context {Page : Type}.
Variable E : env Page.
Variable self : PdfMergerThread.

(** The document opens and lists its pages. *)
Definition read_ok (pdf_file : string) : Prop :=
  exists pages, PdfReader E pdf_file = Ok (Reader (Ok pages)).

(** Opening the document, or retrieving its pages, raises [e]. *)
Definition read_error (pdf_file : string) (e : exn) : Prop :=
  PdfReader E pdf_file = Raise e
  \/ PdfReader E pdf_file = Ok (Reader (Raise e)).

(** The selection string of a document: ["-1"] unless one was given. *)
Definition selection_of (pdf_file : string) : string :=
  default "-1" (page_selections self !! pdf_file).

(** The page indices kept for a readable document. *)
Definition selected_indices (pdf_file : string) : list Z :=
  match PdfReader E pdf_file with
  | Ok (Reader (Ok pages)) =>
      resolve (parse int_max_str_digits (selection_of pdf_file))
        (Z.of_nat (length pages))
  | _ => []
  end.

(** The pages they denote. *)
Definition selected_pages (pdf_file : string) : list Page :=
  match PdfReader E pdf_file with
  | Ok (Reader (Ok pages)) =>
      omap (fun k => pages !! Z.to_nat k) (selected_indices pdf_file)
  | _ => []
  end.

(** The pages of the whole job, in job order. *)
Definition merged_pages : list Page :=
  concat (selected_pages <$> pdf_files self).

Definition read_error_message (pdf_file : string) (e : exn) : string :=
  "Error processing " ++ PyStr.basename pdf_file ++ ": " ++ exn_msg e.

Definition success_message : string :=
  "Successfully merged " ++ py_str (Z.of_nat (length (pdf_files self)))
  ++ " PDFs into " ++ output_file self.

End WorkerVocabulary.

Definition no_pages_message : string :=
  "No pages to merge after applying page selections".

(** ** The runs of the worker, case by case

    [run_spec w w'] lists the ways a run that starts in [w] can end, with
    the world it leaves.  [run_meets_spec] shows that [run] always ends
    in one of them. *)

Section RunSpec.

Variable int_max_str_digits : nat.
Context {Page : Type}.
Variable E : env Page.
Variable self : PdfMergerThread.

Let n := Z.of_nat (length (pdf_files self)).
Let out := output_file self.
Let pages := merged_pages int_max_str_digits E self.
Let data := writer_bytes E pages.

Definition merge_error_message (e : exn) : string :=
  "Error during merge: " ++ exn_msg e.

Inductive run_spec (w : world) : world -> Prop :=
  | run_read_error pre bad post e :
      pdf_files self = (pre ++ bad :: post)%list ->
      Forall (read_ok E) pre ->
      read_error E bad e ->
      run_spec w
        {| trace :=
             (trace w ++ loop_events n 0 (pre ++ [bad])
              ++ [Finished false (read_error_message bad e)])%list;
           files := files w |}
  | run_no_pages :
      Forall (read_ok E) (pdf_files self) ->
      pages = [] ->
      run_spec w
        {| trace :=
             (trace w ++ loop_events n 0 (pdf_files self)
              ++ [Finished false no_pages_message])%list;
           files := files w |}
  | run_open_error e :
      Forall (read_ok E) (pdf_files self) ->
      pages <> [] ->
      open_wb_error E out = Some e ->
      run_spec w
        {| trace :=
             (trace w ++ loop_events n 0 (pdf_files self)
              ++ [Finished false (merge_error_message e)])%list;
           files := files w |}
  | run_write_error k e :
      Forall (read_ok E) (pdf_files self) ->
      pages <> [] ->
      open_wb_error E out = None ->
      write_error E data = Some (k, e) ->
      run_spec w
        {| trace :=
             (trace w ++ loop_events n 0 (pdf_files self)
              ++ [OpenWb out; Finished false (merge_error_message e)])%list;
           files := <[out := take k data]> (files w) |}
  | run_success :
      Forall (read_ok E) (pdf_files self) ->
      pages <> [] ->
      open_wb_error E out = None ->
      write_error E data = None ->
      run_spec w
        {| trace :=
             (trace w ++ loop_events n 0 (pdf_files self)
              ++ [OpenWb out; WritePdf out; Progress 100;
                  Finished true (success_message self)])%list;
           files := <[out := data]> (files w) |}.

End RunSpec.

(** ** Sample environments and jobs *)

Module Sample.

Definition three_pages : list Byte.byte := [Byte.x61; Byte.x62; Byte.x63].

(** Every path is a document of three pages, except ["broken.pdf"],
    which does not open; a page is a byte and is written as it is. *)
Definition library : env Byte.byte :=
  {| PdfReader := fun path =>
       if String.eqb path "broken.pdf"
       then Raise (Exn PdfReadError "EOF marker not found")
       else Ok (Reader (Ok three_pages));
     writer_bytes := fun pages => pages;
     open_wb_error := fun _ => None;
     write_error := fun _ => None |}.

(** The same, on a disk that takes two more bytes. *)
Definition library_disk_full : env Byte.byte :=
  {| PdfReader := PdfReader library;
     writer_bytes := writer_bytes library;
     open_wb_error := fun _ => None;
     write_error := fun _ =>
       Some (2%nat, Exn OSError "[Errno 28] No space left on device") |}.

(** Every path is a document of one page. *)
Definition library_one_page : env Byte.byte :=
  {| PdfReader := fun _ => Ok (Reader (Ok [Byte.x61]));
     writer_bytes := fun pages => pages;
     open_wb_error := fun _ => None;
     write_error := fun _ => None |}.

Definition empty_disk : world := {| trace := []; files := ∅ |}.

(** A disk on which the output file exists already. *)
Definition old_output : list Byte.byte := [Byte.x6f; Byte.x6c; Byte.x64].
Definition disk_with_output : world :=
  {| trace := []; files := {["out.pdf" := old_output]} |}.

Definition job_all : PdfMergerThread :=
  init ["a.pdf"] "out.pdf" (Some {["a.pdf" := "all"]}).
Definition job_first_page : PdfMergerThread :=
  init ["a.pdf"] "out.pdf" (Some {["a.pdf" := "1"]}).
Definition job_default : PdfMergerThread :=
  init ["a.pdf"] "out.pdf" None.
(** A hundred documents, each with the default selection. *)
Definition job_hundred : PdfMergerThread :=
  init (replicate 100 "a.pdf") "out.pdf" None.



End Sample.


(** ** Python lists and [list.sort] *)

Module PyList.

(** [l.pop(k)]: the element and the rest; negative indices count from
    the end. *)
Definition pop {A} (l : list A) (k : Z) : result (A * list A) :=
  let n := Z.of_nat (length l) in
  let k' := if (k <? 0)%Z then k + n else k in
  match (if ((0 <=? k') && (k' <? n))%Z then l !! Z.to_nat k' else None) with
  | Some x => Ok (x, delete (Z.to_nat k') l)
  | None => Raise (Exn IndexError "pop index out of range")
  end.

(** [l[k] = x] *)
Definition setitem {A} (l : list A) (k : Z) (x : A) : result (list A) :=
  let n := Z.of_nat (length l) in
  let k' := if (k <? 0)%Z then k + n else k in
  if ((0 <=? k') && (k' <? n))%Z then Ok (<[Z.to_nat k' := x]> l)
  else Raise (Exn IndexError "list assignment index out of range").

(** [list.sort(key=...)] on a list decorated with its keys.  The sort is
    stable and compares keys with [<] only, which fixes its result: the
    elements by non-decreasing key, those of equal key in their input
    order.  Inserting from the right, each element before the first one
    whose key is not smaller, computes that list. *)
Section Sort.

Context {K A : Type} (lt : K -> K -> bool).

Fixpoint insert (x : K * A) (l : list (K * A)) : list (K * A) :=
  match l with
  | [] => [x]
  | y :: l' =>
      if lt (fst y) (fst x) then y :: insert x l' else x :: y :: l'
  end.

Definition sort_decorated (l : list (K * A)) : list (K * A) :=
  foldr insert [] l.

(** [a] may come before [b]: [b] is not smaller. *)
Definition not_after (a b : K) : Prop := lt b a = false.

End Sort.

(** Keys that can raise are computed first, in list order. *)
Fixpoint decorate {K A} (key : A -> result K) (l : list A)
  : result (list (K * A)) :=
  match l with
  | [] => Ok []
  | x :: l' =>
      k <- key x ;; rest <- decorate key l' ;; Ok ((k, x) :: rest)
  end.

End PyList.

(** ** [QListWidget], by the texts of its items *)

Module QListWidget.

Definition addItem (text : string) (items : list string) : list string :=
  (items ++ [text])%list.

(** [takeItem(row)]: the item of the row, taken out of the widget; no
    item when there is no such row. *)
Definition takeItem (row : Z) (items : list string)
  : option string * list string :=
  if ((0 <=? row) && (row <? Z.of_nat (length items)))%Z
  then (items !! Z.to_nat row, delete (Z.to_nat row) items)
  else (None, items).

(** [insertItem(row, item)]: Qt brings the row within [0 .. count] and
    ignores a null item. *)
Definition insertItem (row : Z) (item : option string) (items : list string)
  : list string :=
  match item with
  | None => items
  | Some text =>
      let r := Z.to_nat (Z.max 0 (Z.min row (Z.of_nat (length items)))) in
      (take r items ++ text :: drop r items)%list
  end.

End QListWidget.

(** ** [PDFMergerApp]: the list of files

    The window keeps the paths in [pdf_files] and shows their base names
    in the list widget [file_list].  The row that is current and the rows
    that are selected are what Qt answers and are arguments of the
    methods; so are the answers of the dialogs.  The enabling of buttons
    ([update_ui_state], [set_ui_enabled]), message boxes and [print] are
    left out: no method reads them back. *)

Abbreviation new_merge_thread := init.

Module App.

Record t : Type := Make {
  pdf_files : list string;
  file_list : list string;
  drag_enabled : bool;
  status_label : string
}.

Definition set_status (text : string) (st : t) : t :=
  {| pdf_files := pdf_files st; file_list := file_list st;
     drag_enabled := drag_enabled st; status_label := text |}.

Definition set_files (files : list string) (st : t) : t :=
  {| pdf_files := files; file_list := file_list st;
     drag_enabled := drag_enabled st; status_label := status_label st |}.

Definition set_items (items : list string) (st : t) : t :=
  {| pdf_files := pdf_files st; file_list := items;
     drag_enabled := drag_enabled st; status_label := status_label st |}.

(** [__init__] *)
Definition init : t :=
  {| pdf_files := []; file_list := []; drag_enabled := false;
     status_label := "Ready" |}.

Definition selected_status (st : t) : string :=
  py_str (Z.of_nat (length (pdf_files st))) ++ " PDFs selected".

(** [add_pdf_files], for the [files] the dialog returns. *)
Definition add_pdf_files (files : list string) (st : t) : t :=
  match files with
  | [] => st
  | _ =>
      let st :=
        foldl (fun st file =>
                 if bool_decide (file ∈ pdf_files st) then st
                 else set_items
                        (QListWidget.addItem (PyStr.basename file)
                           (file_list st))
                        (set_files (pdf_files st ++ [file]) st))
              st files in
      set_status (selected_status st) st
  end.

(** [remove_selected_files], for the rows of the selected items. *)
Definition remove_selected_files (selected_rows : list Z) (st : t)
  : result t :=
  st <- for_each
          (fun st row =>
             let items := snd (QListWidget.takeItem row (file_list st)) in
             popped <- PyList.pop (pdf_files st) row ;;
             Ok (set_files (snd popped) (set_items items st)))
          st (reverse (merge_sort Z.le selected_rows)) ;;
  Ok (set_status (selected_status st) st).

Definition clear_files (st : t) : t :=
  set_status "Ready" (set_files [] (set_items [] st)).

(** [a[i], a[j] = a[j], a[i]]: both reads, then the two writes. *)
Definition swap_items (files : list string) (i j : Z)
  : result (list string) :=
  x <- getitem files j ;;
  y <- getitem files i ;;
  files <- PyList.setitem files i x ;;
  PyList.setitem files j y.

(** [move_file_up], for the current row. *)
Definition move_file_up (current_row : Z) (st : t) : result t :=
  if (0 <? current_row)%Z then
    let taken := QListWidget.takeItem current_row (file_list st) in
    let items :=
      QListWidget.insertItem (current_row - 1) (fst taken) (snd taken) in
    files <- swap_items (pdf_files st) current_row (current_row - 1) ;;
    Ok (set_files files (set_items items st))
  else Ok st.

(** [move_file_down], for the current row. *)
Definition move_file_down (current_row : Z) (st : t) : result t :=
  if (current_row <? Z.of_nat (length (file_list st)) - 1)%Z then
    let taken := QListWidget.takeItem current_row (file_list st) in
    let items :=
      QListWidget.insertItem (current_row + 1) (fst taken) (snd taken) in
    files <- swap_items (pdf_files st) current_row (current_row + 1) ;;
    Ok (set_files files (set_items items st))
  else Ok st.

(** [refresh_file_list]: clear, then one item per path. *)
Definition refresh_file_list (st : t) : t :=
  set_items
    (foldl (fun items file_path =>
              QListWidget.addItem (PyStr.basename file_path) items)
           [] (pdf_files st))
    st.

(** The pairs [(basename(path), path)]. *)
Definition file_pairs (st : t) : list (string * string) :=
  (fun path => (PyStr.basename path, path)) <$> pdf_files st.

Definition sort_alphabetically (st : t) : t :=
  match pdf_files st with
  | [] => st
  | _ =>
      let decorated :=
        (fun x => (PyStr.lower (fst x), x)) <$> file_pairs st in
      let sorted_pairs := snd <$> PyList.sort_decorated String.ltb decorated in
      let st := set_files (snd <$> sorted_pairs) st in
      let st := refresh_file_list st in
      set_status "Files sorted alphabetically" st
  end.

(** [re.findall(r'\d+', s)]: the maximal runs of digits, left to right;
    [run] is the run being read. *)
Fixpoint findall_digits (s : string) (run : string) : list string :=
  match s with
  | EmptyString => if PyStr.nonempty run then [run] else []
  | String c s' =>
      match digit_value c with
      | Some _ => findall_digits s' (run ++ String c EmptyString)
      | None =>
          if PyStr.nonempty run then run :: findall_digits s' EmptyString
          else findall_digits s' EmptyString
      end
  end.

Definition extract_number (int_max_str_digits : nat) (filename : string)
  : result Z :=
  match findall_digits filename EmptyString with
  | first :: _ => py_int int_max_str_digits first
  | [] => Ok 0
  end.

(** [sort_numerically]: an exception of the sort leaves the list as it
    is (a warning is shown). *)
Definition sort_numerically (int_max_str_digits : nat) (st : t) : t :=
  match pdf_files st with
  | [] => st
  | _ =>
      match PyList.decorate
              (fun x => extract_number int_max_str_digits (fst x))
              (file_pairs st) with
      | Raise _ => st
      | Ok decorated =>
          let sorted_pairs := snd <$> PyList.sort_decorated Z.ltb decorated in
          let st := set_files (snd <$> sorted_pairs) st in
          let st := refresh_file_list st in
          set_status "Files sorted numerically" st
      end
  end.

(** [{os.path.basename(path): path for path in self.pdf_files}] *)
Definition filename_to_path (files : list string) : gmap string string :=
  foldl (fun m path => <[PyStr.basename path := path]> m) ∅ files.

Definition update_pdf_files_from_list (st : t) : t :=
  let m := filename_to_path (pdf_files st) in
  let new_order := omap (fun filename => m !! filename) (file_list st) in
  if (length new_order =? length (pdf_files st))%nat
  then set_status "File order updated" (set_files new_order st)
  else st.

(** [s.endswith(suffix)] *)
Definition endswith (suffix s : string) : bool :=
  String.prefix (PyStr.rev suffix) (PyStr.rev s).

(** [merge_pdfs] up to the start of the worker.  [page_selections] is
    what the page dialog returns when it is accepted, [confirm] the
    answer to the confirmation and [output_file] the name chosen in the
    save dialog (empty when it is cancelled).  The result is the state
    and, when a worker is started, the worker. *)
Definition merge_pdfs (page_selections : option (gmap string string))
    (confirm : bool) (output_file : string) (st : t)
  : t * option PdfMergerThread :=
  match pdf_files st with
  | [] => (st, None)
  | _ =>
      let st := if drag_enabled st then update_pdf_files_from_list st
                else st in
      match page_selections with
      | None => (st, None)
      | Some page_selections =>
          if negb confirm then (st, None)
          else if negb (PyStr.nonempty output_file) then (st, None)
          else
            let output_file :=
              if negb (endswith ".pdf" (PyStr.lower output_file))
              then output_file ++ ".pdf" else output_file in
            (set_status "Merging PDFs..." st,
             Some (new_merge_thread (pdf_files st) output_file
                     (Some page_selections)))
      end
  end.

(** [merge_completed] *)
Definition merge_completed (success : bool) (message : string) (st : t) : t :=
  if success then set_status "Merge completed successfully" st
  else set_status "Merge failed" st.

(** [toggle_drag_drop]: leaving the mode brings [pdf_files] to the order
    of the widget. *)
Definition toggle_drag_drop (enabled : bool) (st : t) : t :=
  let st :=
    {| pdf_files := pdf_files st; file_list := file_list st;
       drag_enabled := enabled; status_label := status_label st |} in
  if enabled
  then set_status "Drag and drop mode enabled. Drag files to reorder." st
  else update_pdf_files_from_list (set_status "Ready" st).

(** *** Vocabulary of the statements about the window *)

(** The widget shows the base names of [pdf_files], in the same order. *)
Definition in_step (st : t) : Prop :=
  file_list st = PyStr.basename <$> pdf_files st.

(** The key of [sort_alphabetically]. *)
Definition alphabetical_key (path : string) : string :=
  PyStr.lower (PyStr.basename path).

(** The key of [sort_numerically], where it does not raise. *)
Definition first_number (int_max_str_digits : nat) (path : string) : Z :=
  match extract_number int_max_str_digits (PyStr.basename path) with
  | Ok v => v
  | Raise _ => 0
  end.

(** A decimal digit, as [\d] matches it below code point 256. *)
Definition is_digit (c : ascii) : bool :=
  match digit_value c with Some _ => true | None => false end.

Fixpoint all_chars (p : ascii -> bool) (s : string) : bool :=
  match s with
  | EmptyString => true
  | String c s' => p c && all_chars p s'
  end.

Definition starts_with_digit (s : string) : bool :=
  match s with
  | EmptyString => false
  | String c _ => is_digit c
  end.

(** The last path of [files] with the base name of [path]. *)
Definition last_with_same_name (files : list string) (path : string)
  : string :=
  default path
    (last (filter (fun q => PyStr.basename q = PyStr.basename path) files)).

(** The elements of [l] whose row, counted from [first], is not in
    [rows]. *)
Fixpoint unselected {A} (rows : list Z) (first : Z) (l : list A) : list A :=
  match l with
  | [] => []
  | x :: l' =>
      if bool_decide (first ∈ rows) then unselected rows (first + 1) l'
      else x :: unselected rows (first + 1) l'
  end.

End App.

(** ** [PdfPageSelectionDialog]: the selections

    The dialog keeps, for each file that it could read, an input field;
    the model keeps the text of the field.  What is typed into the field
    of the default is an argument of [apply_default_to_all]. *)

Module Dialog.

Record t : Type := Make {
  pdf_files : list string;
  page_selections : gmap string string
}.

Section Reader.

Context {Page : Type}.
Variable E : env Page.

(** [add_file_entry]: a field with the text "-1", unless reading the
    file or counting its pages raises. *)
Definition add_file_entry (pdf_file : string) (d : t) : t :=
  match (pdf_reader <- PdfReader E pdf_file ;; reader_pages pdf_reader) with
  | Ok _ =>
      {| pdf_files := pdf_files d;
         page_selections := <[pdf_file := "-1"]> (page_selections d) |}
  | Raise _ => d
  end.

(** [__init__] with [init_ui] *)
Definition init (pdf_files : list string) : t :=
  foldl (fun d pdf_file => add_file_entry pdf_file d)
        {| pdf_files := pdf_files; page_selections := ∅ |} pdf_files.

End Reader.

Definition apply_default_to_all (default_value : string) (d : t) : t :=
  {| pdf_files := pdf_files d;
     page_selections := (fun _ => default_value) <$> page_selections d |}.

Definition get_selections (d : t) : gmap string string :=
  page_selections d.

End Dialog.

(** ** The buttons of the window

    One use of a button that changes the list, outside the drag-and-drop
    mode, with what Qt answers to the slot: the files chosen in the
    dialog, the rows of the selected items, the current row. *)

Inductive press : Type :=
  | Add_PDFs (files : list string)
  | Remove_Selected (selected_rows : list Z)
  | Clear_All
  | Move_Up (current_row : Z)
  | Move_Down (current_row : Z)
  | Sort_Alphabetically
  | Sort_Numerically.

(** The slot of the button. *)
Definition click (int_max_str_digits : nat) (b : press) (st : App.t)
  : result App.t :=
  match b with
  | Add_PDFs files => Ok (App.add_pdf_files files st)
  | Remove_Selected selected_rows =>
      App.remove_selected_files selected_rows st
  | Clear_All => Ok (App.clear_files st)
  | Move_Up current_row => App.move_file_up current_row st
  | Move_Down current_row => App.move_file_down current_row st
  | Sort_Alphabetically => Ok (App.sort_alphabetically st)
  | Sort_Numerically => Ok (App.sort_numerically int_max_str_digits st)
  end.

(** What Qt can answer in a window: the selected rows are distinct rows
    of the widget; [currentRow()] is a row of the widget, or -1 when no
    item is current.  The window does not keep the second case away from
    the move buttons: once they are enabled, [refresh_file_list] clears
    the widget, after which no item is current, and leaves them
    enabled; and [set_ui_enabled] enables them after a merge, whatever
    is selected. *)
Definition answerable (b : press) (st : App.t) : Prop :=
  match b with
  | Remove_Selected selected_rows =>
      NoDup selected_rows
      /\ Forall (fun r => 0 <= r < Z.of_nat (length (App.file_list st)))
           selected_rows
  | Move_Up current_row | Move_Down current_row =>
      -1 <= current_row < Z.of_nat (length (App.file_list st))
  | _ => True
  end.

(** One step of the window. *)
Definition button (int_max_str_digits : nat) (st st' : App.t) : Prop :=
  exists b, answerable b st /\ click int_max_str_digits b st = Ok st'.

(** ** Sample windows *)

Module SampleApp.

Definition window (pdf_files file_list : list string) (drag_enabled : bool)
  : App.t :=
  {| App.pdf_files := pdf_files; App.file_list := file_list;
     App.drag_enabled := drag_enabled; App.status_label := "Ready" |}.

Definition two_files : App.t :=
  window ["/in/b10.pdf"; "/in/A2.pdf"] ["b10.pdf"; "A2.pdf"] false.

Definition three_files : App.t :=
  window ["/in/a.pdf"; "/in/b.pdf"; "/in/c.pdf"]
         ["a.pdf"; "b.pdf"; "c.pdf"] false.

(** The rows of [two_files] exchanged by drag and drop. *)
Definition dragged : App.t :=
  window ["/in/b10.pdf"; "/in/A2.pdf"] ["A2.pdf"; "b10.pdf"] true.

(** Two files of the same name in two directories. *)
Definition same_names : App.t :=
  window ["/x/a.pdf"; "/y/a.pdf"] ["a.pdf"; "a.pdf"] true.

Fixpoint sevens (n : nat) : string :=
  match n with
  | O => EmptyString
  | S n' => String "7"%char (sevens n')
  end.

(** A file whose number has 700 digits. *)
Definition long_number : App.t :=
  window ["/in/1.pdf"; "/in/" ++ sevens 700 ++ ".pdf"]
         ["1.pdf"; sevens 700 ++ ".pdf"] false.

End SampleApp.

(** * Properties *)

(** ** Strings *)

Lemma split1_contains c s :
  PyStr.contains c s = true -> exists a b, PyStr.split1 c s = [a; b].
Proof.
  induction s as [|d s IH]; simpl; [discriminate|].
  destruct (Ascii.eqb d c); simpl; [eauto|].
  intros H. destruct (IH H) as (a & b & ->). eauto.
Qed.

Lemma split_no_sep c s :
  PyStr.contains c s = false -> PyStr.split c s = [s].
Proof.
  induction s as [|d s IH]; simpl; [done|].
  destruct (Ascii.eqb d c); simpl; [discriminate|].
  intros H. by rewrite (IH H).
Qed.

Lemma split_app_sep c a s :
  PyStr.contains c a = false ->
  PyStr.split c (a ++ String c s) = a :: PyStr.split c s.
Proof.
  induction a as [|d a IH]; simpl.
  - by rewrite Ascii.eqb_refl.
  - destruct (Ascii.eqb d c); simpl; [discriminate|].
    intros H. by rewrite (IH H).
Qed.

Lemma split_join c l :
  l <> [] -> Forall (fun item => PyStr.contains c item = false) l ->
  PyStr.split c (PyStr.join c l) = l.
Proof.
  intros Hne Hl. induction Hl as [|a l Ha Hl IH]; [done|].
  destruct l as [|b l]; simpl.
  - by apply split_no_sep.
  - rewrite split_app_sep by done. f_equal. by apply IH.
Qed.

(** ** [int] raises nothing but [ValueError] *)

Lemma py_int_ValueError lim s e :
  py_int lim s = Raise e -> is_ValueError e = true.
Proof.
  unfold py_int.
  destruct (int_sign (PyStr.strip_with PyStr.int_isspace s))
    as [negative body].
  destruct (int_digits body true 0 0) as [[v nd]|].
  - destruct (over_digit_limit lim nd); [|discriminate].
    by intros [= <-].
  - by intros [= <-].
Qed.

(** ** The loop body is [tokenize] followed by [add_token] *)

Lemma add_token_empty n st t :
  token_pages n t = ∅ -> add_token n st t = st.
Proof.
  intros H. unfold add_token. rewrite H. destruct st as [inc exc].
  destruct (tok_polarity t); simpl; f_equal; apply (right_id_L ∅ (∪)).
Qed.

Lemma loop_body_tokenize lim n st item :
  loop_body lim n st item
  = Ok (match tokenize lim item with
        | Some t => add_token n st t
        | None => st
        end).
Proof.
  unfold loop_body, tokenize. destruct st as [inc exc].
  destruct (PyStr.nonempty (PyStr.strip item)); simpl; [|done].
  set (is_exclude := PyStr.startswith "-" (PyStr.strip item)).
  set (part := if is_exclude then PyStr.tail (PyStr.strip item)
               else PyStr.strip item).
  destruct (PyStr.contains "-" part) eqn:Hc.
  - destruct (split1_contains _ _ Hc) as (a & b & ->). simpl.
    unfold bound.
    destruct (PyStr.nonempty a), (PyStr.nonempty b); simpl;
      repeat match goal with
        | |- context [py_int lim ?x] =>
            let He := fresh "He" in
            destruct (py_int lim x) as [?|?] eqn:He; simpl;
            [|try rewrite (py_int_ValueError _ _ _ He); try done]
        end;
      destruct is_exclude; done.
  - destruct (py_int lim part) as [v|e] eqn:He; simpl.
    + destruct ((0 <=? v - 1) && (v - 1 <? n))%Z eqn:Hg.
      * destruct is_exclude; unfold add_token, token_pages; simpl;
          by rewrite Hg.
      * rewrite add_token_empty; [done|].
        unfold token_pages; simpl. by rewrite Hg.
    + by rewrite (py_int_ValueError _ _ _ He).
Qed.

Lemma for_each_loop_body lim n items st :
  for_each (loop_body lim n) st items
  = Ok (foldl (add_token n) st (omap (tokenize lim) items)).
Proof.
  revert st. induction items as [|item items IH]; intros st; simpl; [done|].
  rewrite loop_body_tokenize. simpl. rewrite IH.
  by destruct (tokenize lim item).
Qed.

(** ** The accumulators are unions over the tokens *)

Lemma pages_of_cons pol n t toks :
  pages_of pol n (t :: toks)
  = if decide (tok_polarity t = pol)
    then token_pages n t ∪ pages_of pol n toks
    else pages_of pol n toks.
Proof.
  unfold pages_of. rewrite filter_cons.
  destruct (decide (tok_polarity t = pol)); done.
Qed.

Lemma foldl_add_token n toks st :
  foldl (add_token n) st toks
  = (st.1 ∪ pages_of Include n toks, st.2 ∪ pages_of Exclude n toks).
Proof.
  revert st. induction toks as [|t toks IH]; intros [inc exc]; simpl.
  - unfold pages_of. simpl. f_equal; set_solver.
  - rewrite IH, !pages_of_cons. unfold add_token.
    destruct (tok_polarity t); simpl; f_equal;
      repeat case_decide; try done; set_solver.
Qed.

Lemma elem_of_pages_of pol n toks x :
  x ∈ pages_of pol n toks
  <-> exists t, t ∈ toks /\ tok_polarity t = pol /\ x ∈ token_pages n t.
Proof.
  unfold pages_of. rewrite elem_of_union_list. split.
  - intros (X & HX & Hx). apply list_elem_of_fmap in HX as (t & -> & Ht).
    apply list_elem_of_filter in Ht as [Hp Ht]. eauto.
  - intros (t & Ht & Hp & Hx). exists (token_pages n t). split; [|done].
    apply list_elem_of_fmap. exists t. split; [done|].
    by apply list_elem_of_filter.
Qed.

(** ** [sorted] and [range] *)

Lemma StronglySorted_le_lt (l : list Z) :
  StronglySorted Z.le l -> NoDup l -> StronglySorted Z.lt l.
Proof.
  induction 1 as [|x l Hl IH Hx]; intros Hnd; [constructor|].
  apply NoDup_cons in Hnd as [Hxl Hnd]. constructor; [by apply IH|].
  rewrite Forall_forall in Hx |- *. intros y Hy.
  specialize (Hx y Hy). assert (x <> y) by (intros ->; done). lia.
Qed.

Lemma StronglySorted_lt_le (l : list Z) :
  StronglySorted Z.lt l -> StronglySorted Z.le l.
Proof.
  induction 1 as [|x l Hl IH Hx]; constructor; [done|].
  eapply Forall_impl; [done|]. simpl. lia.
Qed.

Lemma StronglySorted_lt_NoDup (l : list Z) :
  StronglySorted Z.lt l -> NoDup l.
Proof.
  induction 1 as [|x l Hl IH Hx]; constructor; [|done].
  rewrite Forall_forall in Hx. intros Hin. specialize (Hx x Hin). lia.
Qed.

Lemma sorted_spec (s : gset Z) :
  StronglySorted Z.lt (sorted s) /\ forall x, x ∈ sorted s <-> x ∈ s.
Proof.
  unfold sorted. split.
  - apply StronglySorted_le_lt.
    + apply StronglySorted_merge_sort; apply _.
    + rewrite merge_sort_Permutation. apply NoDup_elements.
  - intros x. rewrite merge_sort_Permutation. apply elem_of_elements.
Qed.

Lemma sorted_unique (l1 l2 : list Z) :
  StronglySorted Z.lt l1 -> StronglySorted Z.lt l2 ->
  (forall x, x ∈ l1 <-> x ∈ l2) -> l1 = l2.
Proof.
  intros H1 H2 Heq.
  apply (StronglySorted_unique Z.le); try by apply StronglySorted_lt_le.
  apply NoDup_Permutation; auto using StronglySorted_lt_NoDup.
Qed.

Lemma py_range_sorted a b : StronglySorted Z.lt (py_range a b).
Proof.
  unfold py_range. destruct (decide (b - a <= 0)) as [Hle|Hgt].
  { rewrite seqZ_nil by done. constructor. }
  rewrite <- (Z2Nat.id (b - a)) by lia.
  generalize (Z.to_nat (b - a)) as k. clear. intros k. revert a.
  induction k as [|k IH]; intros a.
  - rewrite seqZ_nil by done. constructor.
  - rewrite seqZ_cons by lia.
    replace (Z.pred (Z.of_nat (S k))) with (Z.of_nat k) by lia.
    constructor; [apply IH|].
    apply Forall_seqZ. lia.
Qed.

Lemma elem_of_py_range a b x : x ∈ py_range a b <-> a <= x < b.
Proof. unfold py_range. rewrite elem_of_seqZ. lia. Qed.

Lemma sorted_py_range a b :
  sorted (list_to_set (py_range a b)) = py_range a b.
Proof.
  apply sorted_unique.
  - apply sorted_spec.
  - apply py_range_sorted.
  - intros x. rewrite (proj2 (sorted_spec _)). apply elem_of_list_to_set.
Qed.

(** ** The early exit agrees with the loop *)

Lemma lower_char_a c :
  PyStr.lower_char c = "a"%char -> c = "a"%char \/ c = "A"%char.
Proof.
  destruct c as [[] [] [] [] [] [] [] []]; vm_compute; intros H;
    first [discriminate H | auto].
Qed.

Lemma lower_char_l c :
  PyStr.lower_char c = "l"%char -> c = "l"%char \/ c = "L"%char.
Proof.
  destruct c as [[] [] [] [] [] [] [] []]; vm_compute; intros H;
    first [discriminate H | auto].
Qed.

Lemma early_exit_tokens lim s :
  negb (PyStr.nonempty s) || String.eqb (PyStr.lower s) "all" = true ->
  omap (tokenize lim) (PyStr.split "," s) = [].
Proof.
  destruct s as [|c1 s]; [done|]. intros H.
  change (String.eqb (PyStr.lower (String c1 s)) "all" = true) in H.
  apply String.eqb_eq in H.
  destruct s as [|c2 [|c3 [|c4 s]]]; simpl in H; try discriminate H.
  injection H as H1 H2 H3.
  apply lower_char_a in H1 as [-> | ->];
    apply lower_char_l in H2 as [-> | ->];
    apply lower_char_l in H3 as [-> | ->]; reflexivity.
Qed.

Lemma finish_empty n : finish n (∅, ∅) = py_range 0 n.
Proof.
  unfold finish. rewrite bool_decide_eq_false_2 by (intros H; by apply H).
  rewrite difference_empty_L. apply sorted_py_range.
Qed.

Lemma parse_page_selection_fold lim s n :
  parse_page_selection lim s n
  = Ok (finish n (foldl (add_token n) (∅, ∅)
                    (omap (tokenize lim) (PyStr.split "," s)))).
Proof.
  unfold parse_page_selection.
  destruct (negb (PyStr.nonempty s) || String.eqb (PyStr.lower s) "all")
    eqn:Hexit.
  - rewrite (early_exit_tokens _ _ Hexit). cbn [foldl].
    by rewrite finish_empty.
  - by rewrite for_each_loop_body.
Qed.

Lemma parse_page_selection_resolve lim s n :
  parse_page_selection lim s n = Ok (resolve (parse lim s) n).
Proof.
  rewrite parse_page_selection_fold. unfold resolve, parse.
  destruct (negb (PyStr.nonempty s) || String.eqb (PyStr.lower s) "all")
    eqn:Hexit; [|done].
  by rewrite (early_exit_tokens _ _ Hexit).
Qed.

(** ** What [finish] and [token_pages] contain *)

Lemma elem_of_finish n inc exc x :
  x ∈ finish n (inc, exc)
  <-> (if decide (inc = ∅) then 0 <= x < n else x ∈ inc) /\ x ∉ exc.
Proof.
  unfold finish. rewrite (proj2 (sorted_spec _)), elem_of_difference.
  destruct (decide (inc = ∅)) as [->|Hne].
  - rewrite bool_decide_eq_false_2 by (intros H; by apply H).
    by rewrite elem_of_list_to_set, elem_of_py_range.
  - by rewrite bool_decide_eq_true_2.
Qed.

Lemma resolve_unions toks n :
  resolve toks n
  = finish n (pages_of Include n toks, pages_of Exclude n toks).
Proof.
  unfold resolve. rewrite foldl_add_token. simpl.
  by rewrite !(left_id_L ∅ (∪)).
Qed.

Lemma elem_of_token_pages n t x :
  x ∈ token_pages n t
  <-> 0 <= x < n
      /\ match tok_shape t with
         | SinglePage p => x + 1 = p
         | Range s e => default 1 s <= x + 1 <= default n e
         end.
Proof.
  unfold token_pages. destruct (tok_shape t) as [p|s e].
  - destruct ((0 <=? p - 1) && (p - 1 <? n)) eqn:Hg.
    + rewrite elem_of_singleton. lia.
    + rewrite elem_of_empty. lia.
  - rewrite elem_of_list_to_set, elem_of_py_range.
    destruct s as [s|], e as [e|]; simpl; lia.
Qed.

Lemma token_pages_in_range n t x : x ∈ token_pages n t -> 0 <= x < n.
Proof. rewrite elem_of_token_pages. tauto. Qed.

Lemma resolve_in_range toks n x : x ∈ resolve toks n -> 0 <= x < n.
Proof.
  rewrite resolve_unions, elem_of_finish. intros [Hb _].
  destruct (decide (pages_of Include n toks = ∅)); [done|].
  apply elem_of_pages_of in Hb as (t & _ & _ & Hx).
  by eapply token_pages_in_range.
Qed.

(** ** The claims about the selection language *)

(** C1 (include/exclude precedence).  [parse_page_selection] computes
    [resolve] of the tokens of its string.  For every token sequence and
    page count, [resolve] is strictly ascending (so sorted and free of
    duplicates) and holds exactly the pages of the base that are not
    excluded, where the included and excluded sets are the unions of the
    clamped page sets of the tokens of each polarity and the base is the
    included set when it is not empty and [0 .. n-1] otherwise.  Hence an
    exclude-only selection starts from all pages, and ["1,3,5-7"] on ten
    pages gives [0, 2, 4, 5, 6]. *)
Theorem C1_include_exclude_precedence (int_max_str_digits : nat) :
  (forall s n,
     parse_page_selection int_max_str_digits s n
     = Ok (resolve (parse int_max_str_digits s) n))
  /\ (forall tokens n,
        let included := pages_of Include n tokens in
        let excluded := pages_of Exclude n tokens in
        StronglySorted Z.lt (resolve tokens n)
        /\ NoDup (resolve tokens n)
        /\ forall x,
             x ∈ resolve tokens n
             <-> (if decide (included = ∅) then 0 <= x < n
                  else x ∈ included)
                 /\ x ∉ excluded)
  /\ (forall tokens n x,
        Forall (fun t => tok_polarity t = Exclude) tokens ->
        x ∈ resolve tokens n
        <-> 0 <= x < n /\ x ∉ pages_of Exclude n tokens)
  /\ parse_page_selection int_max_str_digits "1,3,5-7" 10
     = Ok [0; 2; 4; 5; 6].
Proof.
  split; [apply parse_page_selection_resolve|].
  split; [|split].
  - intros tokens n included excluded. rewrite resolve_unions.
    split; [apply sorted_spec|].
    split; [apply StronglySorted_lt_NoDup, sorted_spec|].
    intros x. apply elem_of_finish.
  - intros tokens n x Hex. rewrite resolve_unions, elem_of_finish.
    rewrite decide_True; [done|].
    apply set_eq. intros y. rewrite elem_of_pages_of, elem_of_empty.
    split; [|done]. intros (t & Ht & Hp & _).
    rewrite Forall_forall in Hex. specialize (Hex t Ht). congruence.
  - vm_compute. reflexivity.
Qed.

(** The instance of C1 for an exclude-only selection: ["-1,-3"] on five
    pages keeps page index 3, which is in range and not excluded. *)
Lemma C1_include_exclude_precedence_witness :
  3 ∈ resolve [Token Exclude (SinglePage 1); Token Exclude (SinglePage 3)] 5
  <-> 0 <= 3 < 5
      /\ 3 ∉ pages_of Exclude 5
               [Token Exclude (SinglePage 1); Token Exclude (SinglePage 3)].
Proof.
  apply (proj1 (proj2 (proj2 (C1_include_exclude_precedence 4300)))).
  repeat constructor.
Defined.

(** C2 as stated fails.  On a ten-page document the single page 15 adds
    no page at all, where bringing it to the nearest valid index would
    add index 9; the selection ["15"] therefore keeps every page.  A range
    lying beyond the last page, 20-30, adds nothing either. *)
Lemma C2_clamping_counterexample :
  token_pages 10 (Token Include (SinglePage 15)) = ∅
  /\ nearest_bound_pages 10 (Token Include (SinglePage 15)) = {[9]}
  /\ token_pages 10 (Token Include (SinglePage 15))
     <> nearest_bound_pages 10 (Token Include (SinglePage 15))
  /\ parse 4300 "15" = [Token Include (SinglePage 15)]
  /\ parse_page_selection 4300 "15" 10 = Ok [0; 1; 2; 3; 4; 5; 6; 7; 8; 9]
  /\ token_pages 10 (Token Include (Range (Some 20) (Some 30))) = ∅
  /\ nearest_bound_pages 10 (Token Include (Range (Some 20) (Some 30)))
     = {[9]}.
Proof.
  assert (H1 : token_pages 10 (Token Include (SinglePage 15)) = ∅)
    by reflexivity.
  assert (H2 : nearest_bound_pages 10 (Token Include (SinglePage 15))
               = {[9]}) by reflexivity.
  split; [done|]. split; [done|]. split.
  { rewrite H1, H2. intros H. assert (9 ∈ (∅ : gset Z)) by (rewrite H; set_solver).
    set_solver. }
  split; [by vm_compute|]. split; [by vm_compute|].
  split; reflexivity.
Qed.

(** C2, amended.  A token adds exactly the pages of its 1-based interval
    that exist in the document: a range from [s] to [e] (an absent start
    is 1, an absent end is the page count) adds the indices [x] with
    [s <= x + 1 <= e] and [0 <= x < n], so a start below the first page or
    an end above the last one is cut to the document and a range with
    nothing in the document adds nothing; a single page adds its index
    when the page exists and nothing otherwise.  The range 5-1000 on ten
    pages gives indices 4 to 9. *)
Theorem C2_clamping_amended (int_max_str_digits : nat) :
  (forall t n x,
     x ∈ token_pages n t
     <-> 0 <= x < n
         /\ match tok_shape t with
            | SinglePage p => x + 1 = p
            | Range s e => default 1 s <= x + 1 <= default n e
            end)
  /\ sorted (token_pages 10 (Token Include (Range (Some 5) (Some 1000))))
     = [4; 5; 6; 7; 8; 9]
  /\ parse int_max_str_digits "5-1000"
     = [Token Include (Range (Some 5) (Some 1000))]
  /\ parse_page_selection int_max_str_digits "5-1000" 10
     = Ok [4; 5; 6; 7; 8; 9].
Proof.
  split; [intros; apply elem_of_token_pages|].
  split; [by vm_compute|]. split; by vm_compute.
Qed.

(** C6 (polarity and range separator).  The item ["-1-2"] is one item and
    one token, the exclusion of the range 1-2: the first hyphen is the
    polarity, the second the separator.  On five pages it keeps
    [2, 3, 4], and on any document exactly the indices from 2 on.  The
    same reading of ["-1-3"] keeps [3, 4], which two single exclusions
    would not. *)
Theorem C6_polarity_range_separator (int_max_str_digits : nat) :
  PyStr.split "," "-1-2" = ["-1-2"]
  /\ tokenize int_max_str_digits "-1-2"
     = Some (Token Exclude (Range (Some 1) (Some 2)))
  /\ parse int_max_str_digits "-1-2"
     = [Token Exclude (Range (Some 1) (Some 2))]
  /\ parse_page_selection int_max_str_digits "-1-2" 5 = Ok [2; 3; 4]
  /\ (forall n, parse_page_selection int_max_str_digits "-1-2" n
                = Ok (py_range 2 n))
  /\ parse_page_selection int_max_str_digits "-1-3" 5 = Ok [3; 4]
  /\ parse_page_selection int_max_str_digits "-1,-3" 5 = Ok [1; 3; 4].
Proof.
  split; [reflexivity|]. split; [by vm_compute|]. split; [by vm_compute|].
  split; [by vm_compute|]. split; [|split; by vm_compute].
  intros n. rewrite parse_page_selection_resolve.
  replace (parse int_max_str_digits "-1-2")
    with [Token Exclude (Range (Some 1) (Some 2))] by (by vm_compute).
  f_equal. apply sorted_unique.
  - rewrite resolve_unions. apply sorted_spec.
  - apply py_range_sorted.
  - intros x. rewrite resolve_unions, elem_of_finish, elem_of_py_range.
    rewrite !pages_of_cons. cbn [tok_polarity].
    destruct (decide (Exclude = Include)) as [?|_]; [done|].
    destruct (decide (Exclude = Exclude)) as [_|?]; [|done].
    change (pages_of Include n []) with (∅ : gset Z).
    change (pages_of Exclude n []) with (∅ : gset Z).
    rewrite decide_True by done. rewrite (right_id_L ∅ (∪)).
    rewrite elem_of_token_pages. simpl. lia.
Qed.

(** ** Literals without a hyphen are not negative *)

Lemma contains_lstrip c sp s :
  PyStr.contains c (PyStr.lstrip_with sp s) = true ->
  PyStr.contains c s = true.
Proof.
  induction s as [|d s IH]; simpl; [done|].
  destruct (sp d); [|done]. intros H. rewrite (IH H). apply orb_true_r.
Qed.

Lemma contains_rev_app c s acc :
  PyStr.contains c (PyStr.rev_app s acc)
  = PyStr.contains c s || PyStr.contains c acc.
Proof.
  revert acc. induction s as [|d s IH]; intros acc; simpl; [done|].
  rewrite IH. simpl. by destruct (Ascii.eqb d c), (PyStr.contains c s).
Qed.

Lemma contains_rev c s : PyStr.contains c (PyStr.rev s) = PyStr.contains c s.
Proof. unfold PyStr.rev. rewrite contains_rev_app. simpl. apply orb_false_r. Qed.

Lemma contains_strip c sp s :
  PyStr.contains c (PyStr.strip_with sp s) = true ->
  PyStr.contains c s = true.
Proof.
  unfold PyStr.strip_with. rewrite contains_rev.
  intros H%contains_lstrip. rewrite contains_rev in H.
  by apply contains_lstrip in H.
Qed.

Lemma digit_value_nonneg c d : digit_value c = Some d -> 0 <= d.
Proof.
  unfold digit_value.
  destruct ((48 <=? PyStr.code c)%N && (PyStr.code c <=? 57)%N) eqn:H;
    [|discriminate].
  intros [= <-]. apply andb_true_iff in H as [H _].
  apply N.leb_le in H. lia.
Qed.

Lemma int_digits_nonneg s prev_us acc nd v nd' :
  int_digits s prev_us acc nd = Some (v, nd') -> 0 <= acc -> 0 <= v.
Proof.
  revert prev_us acc nd.
  induction s as [|c s IH]; intros prev_us acc nd; simpl.
  - destruct prev_us; [discriminate|]. by intros [= <- _].
  - destruct (Ascii.eqb c "_").
    + destruct prev_us; [discriminate|]. apply IH.
    + destruct (digit_value c) as [d|] eqn:Hd; [|discriminate].
      intros H Hacc. apply (IH _ _ _ H).
      apply digit_value_nonneg in Hd. lia.
Qed.

Lemma py_int_nonneg lim s v :
  PyStr.contains "-" s = false -> py_int lim s = Ok v -> 0 <= v.
Proof.
  intros Hc. unfold py_int.
  destruct (int_sign (PyStr.strip_with PyStr.int_isspace s))
    as [negative body] eqn:Hs.
  destruct (int_digits body true 0 0) as [[w nd]|] eqn:Hd; [|discriminate].
  destruct (over_digit_limit lim nd); [discriminate|].
  intros [= <-]. apply int_digits_nonneg in Hd; [|done].
  destruct negative; [|done]. exfalso.
  unfold int_sign in Hs.
  destruct (PyStr.strip_with PyStr.int_isspace s) as [|c s'] eqn:Hst;
    [discriminate|].
  destruct (Ascii.eqb c "-") eqn:Hminus.
  - assert (PyStr.contains "-" s = true); [|congruence].
    apply (contains_strip _ PyStr.int_isspace). rewrite Hst. simpl.
    by rewrite Hminus.
  - destruct (Ascii.eqb c "+"); discriminate.
Qed.

Lemma split1_before c s :
  PyStr.contains c s = true ->
  exists a b, PyStr.split1 c s = [a; b] /\ PyStr.contains c a = false.
Proof.
  induction s as [|d s IH]; simpl; [discriminate|].
  destruct (Ascii.eqb d c) eqn:Hd; simpl; [eauto|].
  intros H. destruct (IH H) as (a & b & -> & Ha).
  exists (String d a), b. simpl. by rewrite Hd.
Qed.

(** The start of a range token and a single page come from literals
    without a hyphen. *)
Lemma tokenize_nonneg lim item t :
  tokenize lim item = Some t ->
  match tok_shape t with
  | SinglePage p => 0 <= p
  | Range (Some s) _ => 0 <= s
  | Range None _ => True
  end.
Proof.
  unfold tokenize.
  destruct (PyStr.nonempty (PyStr.strip item)); simpl; [|discriminate].
  set (is_exclude := PyStr.startswith "-" (PyStr.strip item)).
  set (part := if is_exclude then PyStr.tail (PyStr.strip item)
               else PyStr.strip item).
  destruct (PyStr.contains "-" part) eqn:Hc.
  - destruct (split1_before _ _ Hc) as (a & b & -> & Ha).
    unfold bound at 1. destruct (PyStr.nonempty a).
    + destruct (py_int lim a) as [v|] eqn:Hv; [|discriminate].
      destruct (bound lim b); [|discriminate]. intros [= <-]. simpl.
      by eapply py_int_nonneg.
    + destruct (bound lim b); [|discriminate]. by intros [= <-].
  - destruct (py_int lim part) as [v|] eqn:Hv; [|discriminate].
    intros [= <-]. simpl. by eapply py_int_nonneg.
Qed.

Lemma defective_no_pages lim item n t :
  defective lim item = true -> tokenize lim item = Some t ->
  token_pages n t = ∅.
Proof.
  unfold defective. intros Hd Ht. rewrite Ht in Hd.
  pose proof (tokenize_nonneg _ _ _ Ht) as Hpos.
  apply set_eq. intros x. rewrite elem_of_token_pages, elem_of_empty.
  split; [|done]. intros [Hx Hs].
  unfold negative_literal, inconsistent_bounds in Hd.
  destruct (tok_shape t) as [p|[s|] [e|]]; simpl in *; lia.
Qed.

(** ** Dropping an item that adds nothing *)

Lemma tokens_of_joined lim l :
  Forall comma_free l ->
  omap (tokenize lim) (PyStr.split "," (PyStr.join "," l))
  = omap (tokenize lim) l.
Proof.
  intros Hl. destruct l as [|a l]; [done|].
  by rewrite split_join.
Qed.

Lemma foldl_add_token_defective lim n before bad after st :
  defective lim bad = true ->
  foldl (add_token n) st (omap (tokenize lim) (before ++ bad :: after)%list)
  = foldl (add_token n) st (omap (tokenize lim) (before ++ after)%list).
Proof.
  intros Hd. rewrite !omap_app, !foldl_app. simpl.
  destruct (tokenize lim bad) as [t|] eqn:Ht; [|done]. simpl.
  rewrite add_token_empty; [done|]. by eapply defective_no_pages.
Qed.

(** C9 (totality and local recovery).  [parse_page_selection] returns a
    list for every string and page count: no exception leaves it.  An
    item with a literal that does not convert or is negative, or with
    bounds that run backwards, changes nothing: the selection with the
    item and the selection without it give the same pages, whatever the
    other items are.  ["1,abc,3"] on five pages gives [0, 2]. *)
Theorem C9_parser_total_local_recovery (int_max_str_digits : nat) :
  (forall s n, exists pages,
     parse_page_selection int_max_str_digits s n = Ok pages)
  /\ (forall st item n, exists st',
        loop_body int_max_str_digits n st item = Ok st')
  /\ (forall st bad n,
        defective int_max_str_digits bad = true ->
        loop_body int_max_str_digits n st bad = Ok st)
  /\ (forall before bad after n,
        Forall comma_free (before ++ bad :: after)%list ->
        defective int_max_str_digits bad = true ->
        parse_page_selection int_max_str_digits
          (PyStr.join "," (before ++ bad :: after)%list) n
        = parse_page_selection int_max_str_digits
            (PyStr.join "," (before ++ after)%list) n)
  /\ defective int_max_str_digits "abc" = true
  /\ parse_page_selection int_max_str_digits "1,abc,3" 5 = Ok [0; 2].
Proof.
  split; [intros; rewrite parse_page_selection_fold; eauto|].
  split; [intros; rewrite loop_body_tokenize; eauto|].
  split; [|split; [|split; by vm_compute]].
  - intros st bad n Hd. rewrite loop_body_tokenize. f_equal.
    destruct (tokenize int_max_str_digits bad) as [t|] eqn:Ht; [|done].
    apply add_token_empty. by eapply defective_no_pages.
  - intros before bad after n Hl Hd.
    rewrite !parse_page_selection_fold, !tokens_of_joined; [|
      apply Forall_app in Hl as [? Hl]; apply Forall_cons in Hl as [_ ?];
      by apply Forall_app | done].
    by rewrite foldl_add_token_defective.
Qed.

(** The instance of C9 at ["1,abc,3"] on five pages. *)
Lemma C9_parser_total_local_recovery_witness :
  parse_page_selection 4300 (PyStr.join "," (["1"] ++ "abc" :: ["3"])%list) 5
  = parse_page_selection 4300 (PyStr.join "," (["1"] ++ ["3"])%list) 5.
Proof.
  apply (proj1 (proj2 (proj2 (proj2
           (C9_parser_total_local_recovery 4300))))).
  - repeat constructor.
  - reflexivity.
Defined.

Lemma no_tokens_all_pages lim s n :
  Forall (fun item => tokenize lim item = None) (PyStr.split "," s) ->
  parse_page_selection lim s n = Ok (py_range 0 n).
Proof.
  intros Hs. rewrite parse_page_selection_fold.
  replace (omap (tokenize lim) (PyStr.split "," s))
    with (@nil token); [by rewrite <- finish_empty|].
  induction Hs as [|item l Hi _ IH]; simpl; [done|]. by rewrite Hi.
Qed.

Example all_malformed_abc lim n :
  parse_page_selection lim "abc" n = Ok (py_range 0 n).
Proof. apply no_tokens_all_pages. repeat constructor. Qed.

(** C10 (a selection of malformed items behaves like "all").  When no
    item of the string yields a token, which is the case when each one
    is blank or has a literal that [int] rejects, the result is every
    page, [0 .. n-1]; so it is not the empty selection on a document that
    has pages.  ["abc"] and ["1x,2y"] are such strings. *)
Theorem C10_all_malformed_is_all (int_max_str_digits : nat)
    (s : string) (n : Z) :
  Forall (fun item => tokenize int_max_str_digits item = None)
         (PyStr.split "," s) ->
  parse_page_selection int_max_str_digits s n = Ok (py_range 0 n)
  /\ (0 < n -> parse_page_selection int_max_str_digits s n <> Ok []).
Proof.
  intros Hs. pose proof (no_tokens_all_pages _ _ n Hs) as Hp.
  split; [done|]. intros Hn. rewrite Hp. intros [= H].
  assert (0 ∈ py_range 0 n) as H0 by (apply elem_of_py_range; lia).
  rewrite H in H0. by apply elem_of_nil in H0.
Qed.

(** The instance of C10 at ["1x,2y"] on four pages. *)
Lemma C10_all_malformed_is_all_witness :
  parse_page_selection 4300 "1x,2y" 4 = Ok (py_range 0 4)
  /\ (0 < 4 -> parse_page_selection 4300 "1x,2y" 4 <> Ok []).
Proof.
  apply (C10_all_malformed_is_all 4300 "1x,2y" 4).
  repeat constructor.
Defined.


(** ** Rounding to the nearest float is monotone *)

Section FloatFacts.

Import PyFloat.
Local Open Scope Q_scope.

Lemma round_half_even_mono x y :
  x <= y -> (round_half_even x <= round_half_even y)%Z.
Proof.
  intros Hxy. unfold round_half_even.
  pose proof (Qfloor_resp_le _ _ Hxy) as Hf.
  pose proof (Qfloor_le x) as Hx1. pose proof (Qlt_floor x) as Hx2.
  pose proof (Qfloor_le y) as Hy1. pose proof (Qlt_floor y) as Hy2.
  destruct (Z.eq_dec (Qfloor x) (Qfloor y)) as [Heq|Hne].
  - rewrite <- Heq in *.
    destruct (Qcompare_spec (x - inject_Z (Qfloor x)) (1 # 2)) as [Hx|Hx|Hx];
      destruct (Qcompare_spec (y - inject_Z (Qfloor x)) (1 # 2)) as [Hy|Hy|Hy];
      try (destruct (Z.even (Qfloor x))); try lia; exfalso; lra.
  - destruct ((x - inject_Z (Qfloor x)) ?= (1 # 2));
      destruct ((y - inject_Z (Qfloor y)) ?= (1 # 2));
      try (destruct (Z.even (Qfloor x))); try (destruct (Z.even (Qfloor y)));
      lia.
Qed.

Lemma round_half_even_Z k : round_half_even (inject_Z k) = k.
Proof.
  unfold round_half_even. rewrite Qfloor_Z.
  destruct (Qcompare_spec (inject_Z k - inject_Z k) (1 # 2)) as [H|H|H];
    [exfalso; lra | done | exfalso; lra].
Qed.

Lemma pow2_pos e : 0 < pow2 e.
Proof. apply Qpower_0_lt. reflexivity. Qed.

Lemma pow2_add a b : pow2 (a + b) == pow2 a * pow2 b.
Proof. apply Qpower_plus. discriminate. Qed.

Lemma pow2_succ a : pow2 (a + 1) == 2 * pow2 a.
Proof. rewrite pow2_add. unfold pow2 at 2. simpl. ring. Qed.

Lemma pow2_le a b : (a <= b)%Z -> pow2 a <= pow2 b.
Proof. intros. apply Qpower_le_compat_l; [done|]. discriminate. Qed.

Lemma pow2_lt_inv a b : pow2 a < pow2 b -> (a < b)%Z.
Proof. intros H. apply Qpower_lt_compat_l_inv in H; [done|]. reflexivity. Qed.

Lemma pow2_inject (a : Z) : (0 <= a)%Z -> inject_Z (2 ^ a) == pow2 a.
Proof. intros. by apply Zpower_Qpower. Qed.


Lemma ilog2_spec x :
  0 < x -> pow2 (ilog2 x) <= x /\ x < pow2 (ilog2 x + 1).
Proof.
  intros Hx. unfold ilog2. destruct x as [p q]. simpl Qnum. simpl Qden.
  assert (Hp : (0 < p)%Z).
  { unfold Qlt in Hx. simpl in Hx. lia. }
  set (a := Z.log2 p). set (b := Z.log2 (Z.pos q)). set (d := (a - b)%Z).
  pose proof (Z.log2_nonneg p) as Ha0. pose proof (Z.log2_nonneg (Z.pos q)) as Hb0.
  destruct (Z.log2_spec p Hp) as [Ha1 Ha2].
  destruct (Z.log2_spec (Z.pos q) eq_refl) as [Hb1 Hb2].
  fold a in Ha0, Ha1, Ha2. fold b in Hb0, Hb1, Hb2.
  rewrite Zle_Qle, pow2_inject in Ha1, Hb1 by lia.
  rewrite Zlt_Qlt, pow2_inject in Ha2, Hb2 by lia.
  replace (Z.succ a) with (a + 1)%Z in Ha2 by lia.
  replace (Z.succ b) with (b + 1)%Z in Hb2 by lia.
  rewrite pow2_succ in Ha2, Hb2.
  assert (HA : pow2 a == pow2 d * pow2 b).
  { rewrite <- pow2_add. by replace (d + b)%Z with a by lia. }
  assert (HD : pow2 d == 2 * pow2 (d - 1)).
  { rewrite <- pow2_succ. by replace (d - 1 + 1)%Z with d by lia. }
  pose proof (pow2_pos d) as HDpos. pose proof (pow2_pos b) as HBpos.
  pose proof (pow2_pos (d - 1)) as HD1pos.
  assert (Hup : p # q < 2 * pow2 d).
  { rewrite Qmake_Qdiv. apply Qlt_shift_div_r; [lra|].
    rewrite HA in Ha2. nra. }
  assert (Hlow : pow2 (d - 1) <= p # q).
  { rewrite Qmake_Qdiv. apply Qle_shift_div_l; [lra|].
    apply Qle_trans with (pow2 a); [|done].
    rewrite HA, HD. nra. }
  destruct (Qle_bool (pow2 d) (p # q)) eqn:Hb.
  - apply Qle_bool_iff in Hb. split; [done|]. by rewrite pow2_succ.
  - split; [done|]. replace (d - 1 + 1)%Z with d by lia.
    apply Qnot_le_lt. intros H. apply Qle_bool_iff in H. congruence.
Qed.

Lemma ilog2_mono x y : 0 < x -> x <= y -> (ilog2 x <= ilog2 y)%Z.
Proof.
  intros Hx Hxy. assert (Hy : 0 < y) by lra.
  destruct (ilog2_spec x Hx) as [H1 _]. destruct (ilog2_spec y Hy) as [_ H2].
  assert (H : pow2 (ilog2 x) < pow2 (ilog2 y + 1)) by lra.
  apply pow2_lt_inv in H. lia.
Qed.

Lemma scaled_bounds x :
  0 < x ->
  pow2 52 <= x * pow2 (- (ilog2 x - 52))
  /\ x * pow2 (- (ilog2 x - 52)) <= pow2 53.
Proof.
  intros Hx. destruct (ilog2_spec x Hx) as [H1 H2].
  set (e := ilog2 x) in *. pose proof (pow2_pos (- (e - 52))) as Hs.
  assert (E1 : pow2 52 == pow2 e * pow2 (- (e - 52))).
  { rewrite <- pow2_add. by replace (e + - (e - 52))%Z with 52%Z by lia. }
  assert (E2 : pow2 53 == pow2 (e + 1) * pow2 (- (e - 52))).
  { rewrite <- pow2_add. by replace (e + 1 + - (e - 52))%Z with 53%Z by lia. }
  rewrite E1, E2. split; nra.
Qed.

Lemma round_pos_bounds x :
  0 < x ->
  pow2 (ilog2 x) <= round_pos x /\ round_pos x <= pow2 (ilog2 x + 1).
Proof.
  intros Hx. destruct (scaled_bounds x Hx) as [H1 H2]. unfold round_pos.
  set (e := ilog2 x) in *. set (y := x * pow2 (- (e - 52))) in *.
  pose proof (pow2_pos (e - 52)) as Hu.
  assert (L : (2 ^ 52 <= round_half_even y)%Z).
  { rewrite <- (round_half_even_Z (2 ^ 52)). apply round_half_even_mono.
    by rewrite pow2_inject. }
  assert (U : (round_half_even y <= 2 ^ 53)%Z).
  { rewrite <- (round_half_even_Z (2 ^ 53)). apply round_half_even_mono.
    by rewrite pow2_inject. }
  rewrite Zle_Qle, pow2_inject in L, U by lia.
  assert (E1 : pow2 e == pow2 52 * pow2 (e - 52)).
  { rewrite <- pow2_add. by replace (52 + (e - 52))%Z with e by lia. }
  assert (E2 : pow2 (e + 1) == pow2 53 * pow2 (e - 52)).
  { rewrite <- pow2_add. by replace (53 + (e - 52))%Z with (e + 1)%Z by lia. }
  rewrite E1, E2. split; nra.
Qed.

Lemma round_pos_mono x y : 0 < x -> x <= y -> round_pos x <= round_pos y.
Proof.
  intros Hx Hxy. assert (Hy : 0 < y) by lra.
  pose proof (ilog2_mono x y Hx Hxy) as He.
  destruct (Z.eq_dec (ilog2 x) (ilog2 y)) as [Heq|Hne].
  - unfold round_pos. rewrite Heq.
    pose proof (pow2_pos (ilog2 y - 52)) as Hu.
    pose proof (pow2_pos (- (ilog2 y - 52))) as Hs.
    assert (H : (round_half_even (x * pow2 (- (ilog2 y - 52)))
                 <= round_half_even (y * pow2 (- (ilog2 y - 52))))%Z).
    { apply round_half_even_mono. nra. }
    rewrite Zle_Qle in H. nra.
  - destruct (round_pos_bounds x Hx) as [_ H1].
    destruct (round_pos_bounds y Hy) as [H2 _].
    assert (H : pow2 (ilog2 x + 1) <= pow2 (ilog2 y)) by (apply pow2_le; lia).
    lra.
Qed.

Lemma round_pos_pos x : 0 < x -> 0 < round_pos x.
Proof.
  intros Hx. destruct (round_pos_bounds x Hx) as [H _].
  pose proof (pow2_pos (ilog2 x)). lra.
Qed.

Lemma fround_mono x y : 0 <= x -> x <= y -> fround x <= fround y.
Proof.
  intros Hx Hxy. unfold fround.
  destruct (Qcompare_spec x 0) as [Hx0|Hx0|Hx0]; [|exfalso; lra|].
  - destruct (Qcompare_spec y 0) as [Hy0|Hy0|Hy0]; [lra|exfalso; lra|].
    apply Qlt_le_weak, round_pos_pos. done.
  - destruct (Qcompare_spec y 0) as [Hy0|Hy0|Hy0]; [exfalso; lra|exfalso; lra|].
    by apply round_pos_mono.
Qed.

Lemma fround_0 : fround 0 == 0.
Proof. reflexivity. Qed.

Lemma fround_nonneg x : 0 <= x -> 0 <= fround x.
Proof. intros Hx. rewrite <- fround_0. by apply fround_mono. Qed.

Lemma int_of_float_nonneg x : 0 <= x -> int_of_float x = Qfloor x.
Proof.
  intros Hx. unfold int_of_float.
  by rewrite (proj2 (Qle_bool_iff 0 x) Hx).
Qed.

Lemma quotient_mono (i j n : Z) :
  (0 <= i <= j)%Z -> (0 < n)%Z ->
  0 <= inject_Z i / inject_Z n
  /\ inject_Z i / inject_Z n <= inject_Z j / inject_Z n.
Proof.
  intros Hij Hn.
  assert (Hi : 0 <= inject_Z i) by (rewrite <- (Zle_Qle 0); lia).
  assert (Hj : inject_Z i <= inject_Z j) by (rewrite <- Zle_Qle; lia).
  assert (Hn' : 0 <= / inject_Z n).
  { apply Qinv_le_0_compat. rewrite <- (Zle_Qle 0). lia. }
  unfold Qdiv. split.
  - by apply Qmult_le_0_compat.
  - by apply Qmult_le_compat_r.
Qed.

Lemma float_mul_int_mono x y (k : Z) :
  (0 <= k)%Z -> 0 <= x -> x <= y ->
  0 <= float_mul_int x k /\ float_mul_int x k <= float_mul_int y k.
Proof.
  intros Hk Hx Hxy. unfold float_mul_int.
  assert (Hc : 0 <= fround (inject_Z k)).
  { apply fround_nonneg. rewrite <- (Zle_Qle 0). lia. }
  split.
  - apply fround_nonneg. by apply Qmult_le_0_compat.
  - apply fround_mono; [by apply Qmult_le_0_compat|].
    by apply Qmult_le_compat_r.
Qed.

End FloatFacts.

Lemma progress_percent_ok i n :
  n <> 0 -> progress_percent i n = Ok (percent i n).
Proof.
  intros Hn. unfold progress_percent, PyFloat.int_truediv.
  by rewrite (proj2 (Z.eqb_neq n 0) Hn).
Qed.

Lemma percent_of_quotient_mono (x y : Q) :
  (0 <= x)%Q -> (x <= y)%Q ->
  0 <= PyFloat.int_of_float (PyFloat.float_mul_int (PyFloat.fround x) 100)
    <= PyFloat.int_of_float (PyFloat.float_mul_int (PyFloat.fround y) 100).
Proof.
  intros H0 H1.
  pose proof (fround_nonneg _ H0) as F0.
  pose proof (fround_mono _ _ H0 H1) as F1.
  destruct (float_mul_int_mono _ _ 100 ltac:(lia) F0 F1) as [M0 M1].
  assert (M2 : (0 <= PyFloat.float_mul_int (PyFloat.fround y) 100)%Q).
  { eapply Qle_trans; [exact M0|exact M1]. }
  rewrite !int_of_float_nonneg by done. split.
  - replace 0 with (Qfloor 0) by reflexivity. by apply Qfloor_resp_le.
  - by apply Qfloor_resp_le.
Qed.

Lemma percent_mono i j n :
  0 <= i <= j -> 0 < n -> percent i n <= percent j n.
Proof.
  intros Hij Hn. unfold percent.
  destruct (quotient_mono i j n Hij Hn) as [H0 H1].
  by apply percent_of_quotient_mono.
Qed.

Lemma percent_bounds i n : 0 <= i <= n -> 0 < n -> 0 <= percent i n <= 100.
Proof.
  intros Hi Hn. unfold percent.
  destruct (quotient_mono i n n Hi Hn) as [H0 H1].
  assert (H : (inject_Z n / inject_Z n == 1)%Q).
  { apply Qmult_inv_r. intros E. apply (inject_Z_injective n 0) in E. lia. }
  rewrite H in H1.
  pose proof (percent_of_quotient_mono _ _ H0 H1) as [B0 B1].
  split; [done|]. etrans; [exact B1|]. by vm_compute.
Qed.

(** On every index of every job of up to 16 documents and of the job of
    100 documents, and on some indices of a job of a million documents,
    [PyFloat] computes what binary64 computes. *)
Example percent_agrees_with_binary64 :
  forallb (fun n => forallb (fun i => Binary64.agrees i n) (seqZ 0 n))
          (seqZ 1 16) = true
  /\ forallb (fun i => Binary64.agrees i 100) (seqZ 0 100) = true
  /\ forallb (fun i => Binary64.agrees (i * 49999) 1000003) (seqZ 0 20)
     = true.
Proof. repeat apply conj; by vm_compute. Qed.

Example percent_29_of_100 : progress_percent 29 100 = Ok 28.
Proof. by vm_compute. Qed.

Example percent_29_of_50 : progress_percent 29 50 = Ok 57.
Proof. by vm_compute. Qed.

(** ** The worker: one document *)

Section WorkerFacts.

Variable lim : nat.
Context {Page : Type}.
Variable E : env Page.
Variable self : PdfMergerThread.

Abbreviation n_files := (Z.of_nat (length (pdf_files self))).

Lemma getitem_in_range (pages : list Page) k :
  0 <= k < Z.of_nat (length pages) ->
  exists p, pages !! Z.to_nat k = Some p /\ getitem pages k = Ok p.
Proof.
  intros Hk. unfold getitem.
  destruct (pages !! Z.to_nat k) as [p|] eqn:Hp.
  - exists p. split; [done|].
    rewrite (proj2 (Z.ltb_ge k 0)) by lia.
    rewrite (proj2 (Z.leb_le 0 k)), (proj2 (Z.ltb_lt _ _)) by lia.
    simpl. by rewrite Hp.
  - apply lookup_ge_None in Hp. lia.
Qed.

Lemma add_pages_in_range (pages : list Page) idxs writer :
  Forall (fun k => 0 <= k < Z.of_nat (length pages)) idxs ->
  add_pages pages writer idxs
  = Ok ((writer ++ omap (fun k => pages !! Z.to_nat k) idxs)%list).
Proof.
  unfold add_pages. intros Hi. revert writer.
  induction Hi as [|k idxs Hk _ IH]; intros writer; simpl.
  - by rewrite app_nil_r.
  - destruct (getitem_in_range pages k Hk) as (p & Hp & ->). simpl.
    rewrite IH, Hp. by rewrite <- app_assoc.
Qed.

Lemma try_body_read_ok pdf_file writer :
  read_ok E pdf_file ->
  try_body lim E self pdf_file writer
  = Ok ((writer ++ selected_pages lim E self pdf_file)%list).
Proof.
  intros [pages Hr]. unfold try_body, selected_pages, selected_indices.
  rewrite Hr. simpl. fold (selection_of self pdf_file).
  rewrite parse_page_selection_resolve. simpl.
  apply add_pages_in_range. apply Forall_forall. intros k Hk.
  by apply resolve_in_range in Hk.
Qed.

Lemma try_body_read_error pdf_file writer e :
  read_error E pdf_file e ->
  try_body lim E self pdf_file writer = Raise e.
Proof. unfold try_body. by intros [-> | ->]. Qed.

Lemma read_ok_or_error pdf_file :
  read_ok E pdf_file \/ exists e, read_error E pdf_file e.
Proof.
  unfold read_ok, read_error.
  destruct (PdfReader E pdf_file) as [[[pages|e]]|e]; eauto.
Qed.

Lemma read_ok_no_error pdf_file e :
  read_ok E pdf_file -> read_error E pdf_file e -> False.
Proof. intros [pages Hr] [He|He]; congruence. Qed.

Lemma read_ok_all_no_error pre bad post e :
  Forall (read_ok E) (pre ++ bad :: post) -> read_error E bad e -> False.
Proof.
  intros [_ [Hbad _]%Forall_cons]%Forall_app. by apply read_ok_no_error.
Qed.

(** ** The worker: the loop *)

Lemma loop_events_app n i l1 l2 :
  loop_events n i (l1 ++ l2)
  = (loop_events n i l1
     ++ loop_events n (i + Z.of_nat (length l1)) l2)%list.
Proof.
  revert i. induction l1 as [|f l1 IH]; intros i.
  - simpl. by rewrite Z.add_0_r.
  - cbn [app loop_events length]. rewrite IH. do 4 f_equal. lia.
Qed.

Lemma loop_read_ok rest i writer w :
  (rest <> [] -> n_files <> 0) -> Forall (read_ok E) rest ->
  loop lim E self rest i writer w
  = (Next (writer ++ concat (selected_pages lim E self <$> rest))%list,
     {| trace := (trace w ++ loop_events n_files i rest)%list;
        files := files w |}).
Proof.
  intros Hn Hok. revert i writer w.
  induction Hok as [|f rest Hf _ IH]; intros i writer w; simpl.
  - rewrite !app_nil_r. by destruct w.
  - assert (Hn' : n_files <> 0) by (by apply Hn).
    rewrite progress_percent_ok by done.
    rewrite try_body_read_ok by done. rewrite IH by done. simpl.
    by rewrite <- !app_assoc.
Qed.

Lemma loop_read_error pre bad post e i writer w :
  n_files <> 0 -> Forall (read_ok E) pre -> read_error E bad e ->
  loop lim E self (pre ++ bad :: post) i writer w
  = (Return_,
     {| trace :=
          (trace w ++ loop_events n_files i (pre ++ [bad])
           ++ [Finished false (read_error_message bad e)])%list;
        files := files w |}).
Proof.
  intros Hn Hok Hbad. revert i writer w.
  induction Hok as [|f pre Hf _ IH]; intros i writer w; simpl.
  - rewrite progress_percent_ok by done.
    rewrite (try_body_read_error _ _ _ Hbad). unfold emit. simpl.
    by rewrite <- !app_assoc.
  - rewrite progress_percent_ok by done.
    rewrite try_body_read_ok by done. rewrite IH. simpl.
    by rewrite <- !app_assoc.
Qed.

(** Every run of the loop is one of the two above. *)
Lemma loop_cases rest :
  Forall (read_ok E) rest
  \/ exists pre bad post e,
       rest = (pre ++ bad :: post)%list
       /\ Forall (read_ok E) pre /\ read_error E bad e.
Proof.
  induction rest as [|f rest IH]; [by left|].
  destruct (read_ok_or_error f) as [Hf|[e He]].
  - destruct IH as [IH|(pre & bad & post & e & -> & Hpre & Hbad)].
    + left. by constructor.
    + right. exists (f :: pre), bad, post, e. split; [done|].
      split; [by constructor|done].
  - right. exists [], f, rest, e. by split.
Qed.

End WorkerFacts.

(** ** The worker: every run meets [run_spec] *)

Section RunFacts.

Variable lim : nat.
Context {Page : Type}.
Variable E : env Page.
Variable self : PdfMergerThread.

Abbreviation n_files := (Z.of_nat (length (pdf_files self))).

Lemma run_meets_spec w : run_spec lim E self w (run lim E self w).
Proof.
  unfold run.
  destruct (loop_cases E (pdf_files self))
    as [Hok|(pre & bad & post & e & Hfiles & Hpre & Hbad)].
  - rewrite loop_read_ok
      by (done || (intros H; destruct (pdf_files self); [done|simpl; lia])).
    fold (merged_pages lim E self). simpl.
    destruct (merged_pages lim E self) as [|p pages] eqn:Hpages.
    + simpl. unfold emit. simpl. rewrite <- app_assoc.
      by apply run_no_pages.
    + simpl. unfold write_output. simpl.
      destruct (open_wb_error E (output_file self)) as [e|] eqn:Hopen.
      * unfold merge_error, emit. simpl. rewrite <- app_assoc.
        apply run_open_error; [done| |done]. by rewrite Hpages.
      * destruct (write_error E (writer_bytes E (p :: pages)))
          as [[k e]|] eqn:Hwrite.
        -- unfold merge_error, emit. simpl.
           rewrite insert_insert_eq, <- !app_assoc. simpl.
           rewrite <- Hpages in *.
           apply run_write_error; try done. by rewrite Hpages.
        -- unfold emit. simpl.
           rewrite insert_insert_eq, <- !app_assoc. simpl.
           rewrite <- Hpages in *.
           apply run_success; try done. by rewrite Hpages.
  - assert (Hn : n_files <> 0).
    { rewrite Hfiles, length_app. simpl. lia. }
    rewrite Hfiles at 1. rewrite (loop_read_error _ _ _ _ _ _ e) by done.
    by eapply run_read_error.
Qed.

(** ** What the loop logs *)

Lemma progress_values_loop_events n i rest :
  progress_values (loop_events n i rest)
  = (fun k => percent k n) <$> seqZ i (Z.of_nat (length rest)).
Proof.
  revert i. induction rest as [|f rest IH]; intros i; [done|].
  cbn [loop_events length]. rewrite seqZ_cons by lia.
  replace (Z.pred (Z.of_nat (S (length rest))))
    with (Z.of_nat (length rest)) by lia.
  unfold progress_values in *. simpl. f_equal.
  replace (Z.succ i) with (i + 1) by lia. apply IH.
Qed.


Lemma finished_events_loop_events n i rest :
  finished_events (loop_events n i rest) = [].
Proof.
  revert i. induction rest as [|f rest IH]; intros i; [done|].
  unfold finished_events in *. simpl. apply IH.
Qed.

Lemma output_events_loop_events n i rest :
  output_events (loop_events n i rest) = [].
Proof.
  revert i. induction rest as [|f rest IH]; intros i; [done|].
  unfold output_events in *. simpl. apply IH.
Qed.

Lemma loop_events_lookup n i rest (k : nat) f :
  rest !! k = Some f ->
  loop_events n i rest !! (2 * k)%nat = Some (Progress (percent (i + Z.of_nat k) n))
  /\ loop_events n i rest !! (2 * k + 1)%nat = Some (ReadPdf f).
Proof.
  revert i k. induction rest as [|g rest IH]; intros i k Hk; [done|].
  destruct k as [|k].
  - simpl in Hk. injection Hk as ->. simpl. by rewrite Z.add_0_r.
  - simpl in Hk. destruct (IH (i + 1) k Hk) as [H1 H2].
    replace (2 * S k)%nat with (S (S (2 * k))) by lia.
    replace (S (S (2 * k)) + 1)%nat with (S (S (2 * k + 1))) by lia.
    cbn [loop_events lookup list_lookup].
    replace (i + Z.of_nat (S k)) with (i + 1 + Z.of_nat k) by lia.
    done.
Qed.

(** The percentages of the loop are non-decreasing and within 0..100. *)
Lemma loop_percentages n i (len : nat) :
  0 <= i -> i + Z.of_nat len <= n ->
  StronglySorted Z.le ((fun k => percent k n) <$> seqZ i (Z.of_nat len))
  /\ Forall (fun p => 0 <= p <= 100)
       ((fun k => percent k n) <$> seqZ i (Z.of_nat len)).
Proof.
  revert i. induction len as [|len IH]; intros i Hi Hn.
  { split; constructor. }
  rewrite seqZ_cons by lia.
  replace (Z.pred (Z.of_nat (S len))) with (Z.of_nat len) by lia.
  destruct (IH (Z.succ i)) as [IH1 IH2]; [lia|lia|].
  rewrite fmap_cons. split.
  - constructor; [done|]. apply Forall_fmap, Forall_seqZ. intros k Hk.
    simpl. apply percent_mono; lia.
  - constructor; [|done]. apply percent_bounds; lia.
Qed.

End RunFacts.

(** ** The claims about the worker *)

Section WorkerClaims.

Variable lim : nat.
Context {Page : Type}.
Variable E : env Page.
Variable self : PdfMergerThread.

Abbreviation n_files := (Z.of_nat (length (pdf_files self))).


Lemma run_on_no_pages w :
  Forall (read_ok E) (pdf_files self) ->
  merged_pages lim E self = [] ->
  run lim E self w
  = {| trace :=
         (trace w ++ loop_events n_files 0 (pdf_files self)
          ++ [Finished false no_pages_message])%list;
       files := files w |}.
Proof.
  intros Hok Hpages. unfold run.
  rewrite loop_read_ok
    by (done || (intros H; destruct (pdf_files self); [done|simpl; lia])).
  fold (merged_pages lim E self). rewrite Hpages. simpl.
  unfold emit. simpl. by rewrite <- app_assoc.
Qed.


(** C4 (empty result).  When every document is read and no page is
    selected from any of them, which includes the job without documents,
    the run ends with the one failure message "No pages to merge after
    applying page selections"; nothing is opened for writing and the
    files are as they were. *)
Theorem C4_empty_result_failure w :
  Forall (read_ok E) (pdf_files self) ->
  length (merged_pages lim E self) = 0%nat ->
  trace (run lim E self w)
  = (trace w ++ loop_events n_files 0 (pdf_files self)
     ++ [Finished false
           "No pages to merge after applying page selections"])%list
  /\ finished_events (trace (run lim E self w))
     = (finished_events (trace w)
        ++ [(false, "No pages to merge after applying page selections")])%list
  /\ output_events (trace (run lim E self w)) = output_events (trace w)
  /\ files (run lim E self w) = files w.
Proof.
  intros Hok Hlen. apply length_zero_iff_nil in Hlen.
  rewrite (run_on_no_pages w) by done. simpl.
  unfold finished_events, output_events. rewrite !omap_app.
  fold (finished_events (loop_events n_files 0 (pdf_files self))).
  fold (output_events (loop_events n_files 0 (pdf_files self))).
  rewrite finished_events_loop_events, output_events_loop_events. simpl.
  by rewrite !app_nil_r.
Qed.

End WorkerClaims.



(** The instance of C4 for one document of one page with the default
    selection, which drops the first page. *)
Lemma C4_empty_result_failure_witness :
  trace (run 4300 Sample.library_one_page Sample.job_default
           Sample.empty_disk)
  = [Progress 0; ReadPdf "a.pdf";
     Finished false "No pages to merge after applying page selections"]
  /\ finished_events
       (trace (run 4300 Sample.library_one_page Sample.job_default
                 Sample.empty_disk))
     = [(false, "No pages to merge after applying page selections")]
  /\ output_events
       (trace (run 4300 Sample.library_one_page Sample.job_default
                 Sample.empty_disk)) = []
  /\ files (run 4300 Sample.library_one_page Sample.job_default
              Sample.empty_disk) = ∅.
Proof.
  apply (C4_empty_result_failure 4300 Sample.library_one_page
           Sample.job_default Sample.empty_disk).
  - repeat constructor. by exists [Byte.x61].
  - by vm_compute.
Defined.

(** ** The commit, the progress protocol and the terminal message *)

Section RunClaims.

Variable lim : nat.
Context {Page : Type}.
Variable E : env Page.
Variable self : PdfMergerThread.

Abbreviation n_files := (Z.of_nat (length (pdf_files self))).

Lemma take_through pre (bad : string) post :
  take (S (length pre)) (pre ++ bad :: post) = (pre ++ [bad])%list.
Proof.
  induction pre as [|f pre IH]; [done|]. simpl. f_equal. apply IH.
Qed.

Lemma progress_values_app t1 t2 :
  progress_values (t1 ++ t2) = (progress_values t1 ++ progress_values t2)%list.
Proof. apply omap_app. Qed.

Lemma finished_events_app t1 t2 :
  finished_events (t1 ++ t2)
  = (finished_events t1 ++ finished_events t2)%list.
Proof. apply omap_app. Qed.

(** The percentages a run logs, given how many documents it opened and
    whether it ended with the final 100. *)
Lemma run_percentages (k : nat) (ending : list event) :
  (k <= length (pdf_files self))%nat ->
  progress_values ending = [] \/ progress_values ending = [100] ->
  StronglySorted Z.le
    (progress_values
       (loop_events n_files 0 (take k (pdf_files self)) ++ ending))
  /\ Forall (fun p => 0 <= p <= 100)
       (progress_values
          (loop_events n_files 0 (take k (pdf_files self)) ++ ending)).
Proof.
  intros Hk Hend.
  rewrite progress_values_app, progress_values_loop_events.
  rewrite length_take, Nat.min_l by done.
  assert (Hn : 0 + Z.of_nat k <= n_files) by lia.
  destruct (loop_percentages n_files 0 k ltac:(lia) Hn) as [Hs Hb].
  destruct Hend as [-> | ->].
  - by rewrite app_nil_r.
  - split.
    + apply StronglySorted_app_2; [|done|repeat constructor].
      intros x1 x2 Hx1 ->%list_elem_of_singleton.
      rewrite Forall_forall in Hb. by apply Hb.
    + apply Forall_app. split; [done|]. repeat constructor; lia.
Qed.

(** C5, amended.  The files change at the output path only, and only
    after every document has been read and at least one page selected;
    when a document is not read, no page is selected or opening the
    output fails, the files are as they were.  The output is written in
    place: when every document is read, a page is selected and the
    output opens, the output holds the serialised pages if the write
    completes (and the run reports success), and the bytes that reached
    it if the write fails (and the run reports "Error during merge"),
    whatever it held before. *)
Theorem C5_commit_in_place_amended w :
  (forall path, path <> output_file self ->
     files (run lim E self w) !! path = files w !! path)
  /\ (~ Forall (read_ok E) (pdf_files self) ->
      files (run lim E self w) = files w)
  /\ (merged_pages lim E self = [] -> files (run lim E self w) = files w)
  /\ (forall e, open_wb_error E (output_file self) = Some e ->
      files (run lim E self w) = files w)
  /\ (Forall (read_ok E) (pdf_files self) ->
      merged_pages lim E self <> [] ->
      open_wb_error E (output_file self) = None ->
      match write_error E (writer_bytes E (merged_pages lim E self)) with
      | None =>
          files (run lim E self w)
          = <[output_file self :=
                writer_bytes E (merged_pages lim E self)]> (files w)
          /\ finished_events (trace (run lim E self w))
             = (finished_events (trace w)
                ++ [(true, success_message self)])%list
      | Some (k, e) =>
          files (run lim E self w)
          = <[output_file self :=
                take k (writer_bytes E (merged_pages lim E self))]>
              (files w)
          /\ finished_events (trace (run lim E self w))
             = (finished_events (trace w)
                ++ [(false, ("Error during merge: " ++ exn_msg e)%string)])%list
      end).
Proof.
  pose proof (run_meets_spec lim E self w) as H.
  set (w' := run lim E self w) in *. clearbody w'.
  destruct H as [pre bad post e Hfiles Hpre Hbad | Hok Hpages
                 | e Hok Hpages Hopen | k e Hok Hpages Hopen Hwrite
                 | Hok Hpages Hopen Hwrite]; simpl.
  - split_and!; auto. intros Hall _ _. rewrite Hfiles in Hall.
    destruct (read_ok_all_no_error E pre bad post e Hall Hbad).
  - split_and!; auto. intros _ Hne _. done.
  - split_and!; auto. intros _ _ Hnone. congruence.
  - split; [intros path Hp; by rewrite lookup_insert_ne|].
    split; [done|]. split; [done|]. split; [congruence|].
    intros _ _ _. rewrite Hwrite. split; [done|].
    rewrite !finished_events_app, finished_events_loop_events. done.
  - split; [intros path Hp; by rewrite lookup_insert_ne|].
    split; [done|]. split; [done|]. split; [congruence|].
    intros _ _ _. rewrite Hwrite. split; [done|].
    rewrite !finished_events_app, finished_events_loop_events. done.
Qed.

(** C7, amended.  A run opens the first [k] documents, for some [k], and
    logs [int((i / n) * 100)] immediately before it opens document [i];
    the quotient and the product are floating-point operations, see
    [percent].  What follows is a failure message, or the opening of the
    output and a failure message, or the opening and the writing of the
    output, the percentage 100 and the success message: 100 is logged
    only after the output has been written, not when the loop completes.
    The percentages of a run are non-decreasing and within 0..100. *)
Theorem C7_progress_protocol_amended w :
  exists (k : nat) (ending : list event),
    (k <= length (pdf_files self))%nat
    /\ trace (run lim E self w)
       = (trace w
          ++ loop_events n_files 0 (take k (pdf_files self)) ++ ending)%list
    /\ (forall (i : nat) f,
          take k (pdf_files self) !! i = Some f ->
          progress_percent (Z.of_nat i) n_files
          = Ok (percent (Z.of_nat i) n_files)
          /\ (loop_events n_files 0 (take k (pdf_files self)) ++ ending)%list
               !! (2 * i)%nat
             = Some (Progress (percent (Z.of_nat i) n_files))
          /\ (loop_events n_files 0 (take k (pdf_files self)) ++ ending)%list
               !! (2 * i + 1)%nat
             = Some (ReadPdf f))
    /\ ((exists msg, ending = [Finished false msg])
        \/ (exists msg,
              ending = [OpenWb (output_file self); Finished false msg])
        \/ (k = length (pdf_files self)
            /\ ending = [OpenWb (output_file self);
                         WritePdf (output_file self);
                         Progress 100;
                         Finished true (success_message self)]))
    /\ StronglySorted Z.le
         (progress_values
            (loop_events n_files 0 (take k (pdf_files self)) ++ ending))
    /\ Forall (fun p => 0 <= p <= 100)
         (progress_values
            (loop_events n_files 0 (take k (pdf_files self)) ++ ending)).
Proof.
  assert (Hshape : exists (k : nat) (ending : list event),
    (k <= length (pdf_files self))%nat
    /\ trace (run lim E self w)
       = (trace w
          ++ loop_events n_files 0 (take k (pdf_files self)) ++ ending)%list
    /\ ((exists msg, ending = [Finished false msg])
        \/ (exists msg,
              ending = [OpenWb (output_file self); Finished false msg])
        \/ (k = length (pdf_files self)
            /\ ending = [OpenWb (output_file self);
                         WritePdf (output_file self);
                         Progress 100;
                         Finished true (success_message self)]))).
  { pose proof (run_meets_spec lim E self w) as H.
    set (w' := run lim E self w) in *. clearbody w'.
    destruct H as [pre bad post e Hfiles Hpre Hbad | Hok Hpages
                   | e Hok Hpages Hopen | k e Hok Hpages Hopen Hwrite
                   | Hok Hpages Hopen Hwrite]; simpl.
    - exists (S (length pre)), [Finished false (read_error_message bad e)].
      replace (take (S (length pre)) (pdf_files self))
        with (pre ++ [bad])%list by (by rewrite Hfiles, take_through).
      split; [rewrite Hfiles, length_app; simpl; lia|].
      split; [done|]. left. eauto.
    - exists (length (pdf_files self)), [Finished false no_pages_message].
      rewrite take_ge by done. split; [done|]. split; [done|]. left. eauto.
    - exists (length (pdf_files self)),
        [Finished false (merge_error_message e)].
      rewrite take_ge by done. split; [done|]. split; [done|]. left. eauto.
    - exists (length (pdf_files self)),
        [OpenWb (output_file self); Finished false (merge_error_message e)].
      rewrite take_ge by done. split; [done|]. split; [done|].
      right. left. eauto.
    - exists (length (pdf_files self)),
        [OpenWb (output_file self); WritePdf (output_file self);
         Progress 100; Finished true (success_message self)].
      rewrite take_ge by done. split; [done|]. split; [done|].
      right. right. eauto. }
  destruct Hshape as (k & ending & Hk & Htrace & Hend).
  exists k, ending. split; [done|]. split; [done|]. split.
  { intros i f Hf.
    destruct (loop_events_lookup n_files 0 _ i f Hf) as [H1 H2].
    rewrite Z.add_0_l in H1. split.
    - apply progress_percent_ok. apply lookup_lt_Some in Hf.
      rewrite length_take in Hf. lia.
    - split; by apply lookup_app_l_Some. }
  split; [done|]. apply run_percentages; [done|].
  destruct Hend as [[msg ->]|[[msg ->]|[_ ->]]]; auto.
Qed.

(** C8, amended.  Every run ends with exactly one terminal message, its
    last event.  That message is a success exactly when the job
    completes: every document is read, at least one page is selected,
    the output opens and the write completes.  The output then holds
    the serialised pages of the job, and the message is "Successfully
    merged <d> PDFs into <output path>", where [d] is the number of
    input documents: it carries the document count and the output path,
    not the number of pages written. *)
Theorem C8_success_message_amended w :
  exists ok msg,
    last (trace (run lim E self w)) = Some (Finished ok msg)
    /\ finished_events (trace (run lim E self w))
       = (finished_events (trace w) ++ [(ok, msg)])%list
    /\ (ok = true <->
        Forall (read_ok E) (pdf_files self)
        /\ merged_pages lim E self <> []
        /\ open_wb_error E (output_file self) = None
        /\ write_error E (writer_bytes E (merged_pages lim E self)) = None)
    /\ (ok = true ->
        msg = ("Successfully merged "
               ++ py_str (Z.of_nat (length (pdf_files self)))
               ++ " PDFs into " ++ output_file self)%string
        /\ merged_pages lim E self <> []
        /\ files (run lim E self w)
           = <[output_file self := writer_bytes E (merged_pages lim E self)]>
               (files w)).
Proof.
  pose proof (run_meets_spec lim E self w) as H.
  set (w' := run lim E self w) in *. clearbody w'.
  destruct H as [pre bad post e Hfiles Hpre Hbad | Hok Hpages
                 | e Hok Hpages Hopen | k e Hok Hpages Hopen Hwrite
                 | Hok Hpages Hopen Hwrite]; simpl;
    eexists _, _;
    (split; [rewrite !last_app; reflexivity|]);
    rewrite !finished_events_app, finished_events_loop_events; simpl;
    (split; [reflexivity|]).
  - split; [|discriminate]. split; [discriminate|].
    intros (Hall & _). rewrite Hfiles in Hall.
    destruct (read_ok_all_no_error E pre bad post e Hall Hbad).
  - split; [|discriminate]. split; [discriminate|]. by intros (_ & Hne & _).
  - split; [|discriminate]. split; [discriminate|].
    intros (_ & _ & Hnone & _). congruence.
  - split; [|discriminate]. split; [discriminate|].
    intros (_ & _ & _ & Hnone). congruence.
  - split; [done|]. intros _. done.
Qed.

End RunClaims.

(** C5 as stated fails.  The output file exists and holds three bytes;
    the job selects three pages, the output opens and the write fails
    after two bytes.  The run reports the failure, and the output then
    holds those two bytes: neither what it held before nor the merged
    document. *)
Lemma C5_atomic_commit_counterexample :
  files Sample.disk_with_output !! "out.pdf" = Some Sample.old_output
  /\ writer_bytes Sample.library_disk_full
       (merged_pages 4300 Sample.library_disk_full Sample.job_all)
     = [Byte.x61; Byte.x62; Byte.x63]
  /\ trace (run 4300 Sample.library_disk_full Sample.job_all
              Sample.disk_with_output)
     = [Progress 0; ReadPdf "a.pdf"; OpenWb "out.pdf";
        Finished false
          "Error during merge: [Errno 28] No space left on device"]
  /\ files (run 4300 Sample.library_disk_full Sample.job_all
              Sample.disk_with_output) !! "out.pdf"
     = Some [Byte.x61; Byte.x62].
Proof. repeat apply conj; by vm_compute. Qed.

(** The instances of C5 for a job that selects no page, after which the
    disk is as it was, and for a job whose write fails after two bytes
    on a disk that holds the output already: the output then holds the
    two bytes. *)
Lemma C5_commit_in_place_amended_witness :
  files (run 4300 Sample.library_one_page Sample.job_default
           Sample.disk_with_output)
  = files Sample.disk_with_output
  /\ files (run 4300 Sample.library_disk_full Sample.job_all
              Sample.disk_with_output)
     = <["out.pdf" := [Byte.x61; Byte.x62]]> (files Sample.disk_with_output)
  /\ finished_events
       (trace (run 4300 Sample.library_disk_full Sample.job_all
                 Sample.disk_with_output))
     = [(false, "Error during merge: [Errno 28] No space left on device")].
Proof.
  split.
  - apply (proj1 (proj2 (proj2
             (C5_commit_in_place_amended 4300 Sample.library_one_page
                Sample.job_default Sample.disk_with_output)))).
    by vm_compute.
  - apply (proj2 (proj2 (proj2 (proj2
             (C5_commit_in_place_amended 4300 Sample.library_disk_full
                Sample.job_all Sample.disk_with_output))))).
    + repeat constructor. by exists Sample.three_pages.
    + by vm_compute.
    + reflexivity.
Defined.

(** C7 as stated fails.  A job whose one document has one page, dropped
    by the default selection, completes the loop and never logs 100.  A
    job that succeeds logs 100 after the output has been opened and
    written.  And the percentage before document 29 of 100 is 28, since
    [29 / 100 * 100] is [28.999999999999996] in floating point, where the
    exact quotient gives 29. *)
Lemma C7_progress_protocol_counterexample :
  trace (run 4300 Sample.library_one_page Sample.job_default
           Sample.empty_disk)
  = [Progress 0; ReadPdf "a.pdf";
     Finished false "No pages to merge after applying page selections"]
  /\ progress_values
       (trace (run 4300 Sample.library_one_page Sample.job_default
                 Sample.empty_disk)) = [0]
  /\ trace (run 4300 Sample.library Sample.job_all Sample.empty_disk)
     = [Progress 0; ReadPdf "a.pdf"; OpenWb "out.pdf"; WritePdf "out.pdf";
        Progress 100;
        Finished true "Successfully merged 1 PDFs into out.pdf"]
  /\ trace (run 4300 Sample.library Sample.job_hundred Sample.empty_disk)
       !! 58%nat = Some (Progress 28)
  /\ trace (run 4300 Sample.library Sample.job_hundred Sample.empty_disk)
       !! 59%nat = Some (ReadPdf "a.pdf")
  /\ 29 * 100 / 100 = 29.
Proof. repeat apply conj; by vm_compute. Qed.

(** The instance of C7 for one document kept whole. *)
Lemma C7_progress_protocol_amended_witness :
  exists (k : nat) (ending : list event),
    (k <= 1)%nat
    /\ [Progress 0; ReadPdf "a.pdf"; OpenWb "out.pdf"; WritePdf "out.pdf";
        Progress 100;
        Finished true "Successfully merged 1 PDFs into out.pdf"]
       = (loop_events 1 0 (take k ["a.pdf"]) ++ ending)%list
    /\ (forall (i : nat) f,
          take k ["a.pdf"] !! i = Some f ->
          progress_percent (Z.of_nat i) 1 = Ok (percent (Z.of_nat i) 1)
          /\ (loop_events 1 0 (take k ["a.pdf"]) ++ ending)%list
               !! (2 * i)%nat
             = Some (Progress (percent (Z.of_nat i) 1))
          /\ (loop_events 1 0 (take k ["a.pdf"]) ++ ending)%list
               !! (2 * i + 1)%nat
             = Some (ReadPdf f))
    /\ ((exists msg, ending = [Finished false msg])
        \/ (exists msg, ending = [OpenWb "out.pdf"; Finished false msg])
        \/ (k = 1%nat
            /\ ending = [OpenWb "out.pdf"; WritePdf "out.pdf"; Progress 100;
                         Finished true
                           "Successfully merged 1 PDFs into out.pdf"]))
    /\ StronglySorted Z.le
         (progress_values (loop_events 1 0 (take k ["a.pdf"]) ++ ending))
    /\ Forall (fun p => 0 <= p <= 100)
         (progress_values (loop_events 1 0 (take k ["a.pdf"]) ++ ending)).
Proof.
  exact (C7_progress_protocol_amended 4300 Sample.library Sample.job_all
           Sample.empty_disk).
Defined.

(** C8 as stated fails.  Two jobs on the same document, one keeping its
    three pages and one keeping its first page, write three pages and
    one page, and deliver the same success message: it carries the
    number of documents, 1, and not the number of pages written. *)
Lemma C8_success_message_counterexample :
  files (run 4300 Sample.library Sample.job_all Sample.empty_disk)
    !! "out.pdf" = Some [Byte.x61; Byte.x62; Byte.x63]
  /\ length (merged_pages 4300 Sample.library Sample.job_all) = 3%nat
  /\ finished_events
       (trace (run 4300 Sample.library Sample.job_all Sample.empty_disk))
     = [(true, "Successfully merged 1 PDFs into out.pdf")]
  /\ files (run 4300 Sample.library Sample.job_first_page Sample.empty_disk)
       !! "out.pdf" = Some [Byte.x61]
  /\ length (merged_pages 4300 Sample.library Sample.job_first_page) = 1%nat
  /\ finished_events
       (trace (run 4300 Sample.library Sample.job_first_page
                 Sample.empty_disk))
     = [(true, "Successfully merged 1 PDFs into out.pdf")].
Proof. repeat apply conj; by vm_compute. Qed.

(** The instance of C8 for one document kept whole. *)
Lemma C8_success_message_amended_witness :
  last (trace (run 4300 Sample.library Sample.job_all Sample.empty_disk))
  = Some (Finished true "Successfully merged 1 PDFs into out.pdf")
  /\ finished_events
       (trace (run 4300 Sample.library Sample.job_all Sample.empty_disk))
     = [(true, "Successfully merged 1 PDFs into out.pdf")]
  /\ files (run 4300 Sample.library Sample.job_all Sample.empty_disk)
     = <["out.pdf" := [Byte.x61; Byte.x62; Byte.x63]]> ∅.
Proof.
  destruct (C8_success_message_amended 4300 Sample.library Sample.job_all
              Sample.empty_disk) as (ok & msg & Hlast & Hfin & Hiff & Hmsg).
  assert (Hok : ok = true).
  { apply Hiff. split_and!.
    - repeat constructor. by exists Sample.three_pages.
    - by vm_compute.
    - reflexivity.
    - reflexivity. }
  destruct (Hmsg Hok) as (-> & _ & Hfiles). subst ok.
  split; [exact Hlast|]. split; [exact Hfin|exact Hfiles].
Defined.

(** * Further properties of the selection language and of the worker *)

(** ** Valid, bounded results *)

Lemma resolve_length_le tokens n :
  Z.of_nat (length (resolve tokens n)) <= Z.max 0 n.
Proof.
  assert (Hsub : resolve tokens n ⊆+ py_range 0 n).
  { apply NoDup_submseteq.
    - rewrite resolve_unions. apply StronglySorted_lt_NoDup, sorted_spec.
    - intros x Hx. apply elem_of_py_range. by apply resolve_in_range in Hx. }
  apply submseteq_length in Hsub. unfold py_range in Hsub.
  rewrite length_seqZ in Hsub. lia.
Qed.

(** X1 (the result is a valid page set).  For every string and page
    count, [parse_page_selection] returns indices that are strictly
    ascending, all within [0 .. n-1], and at most [n] of them: each is an
    existing page, none comes twice. *)
Theorem X1_result_is_valid_page_set (int_max_str_digits : nat)
    (s : string) (n : Z) :
  exists pages,
    parse_page_selection int_max_str_digits s n = Ok pages
    /\ StronglySorted Z.lt pages
    /\ Forall (fun x => 0 <= x < n) pages
    /\ Z.of_nat (length pages) <= Z.max 0 n.
Proof.
  exists (resolve (parse int_max_str_digits s) n).
  split; [apply parse_page_selection_resolve|].
  split; [rewrite resolve_unions; apply sorted_spec|].
  split; [|apply resolve_length_le].
  apply Forall_forall. intros x Hx. by apply resolve_in_range in Hx.
Qed.

(** ** The order and the repetition of items do not matter *)

Lemma pages_of_same_tokens pol n toks1 toks2 :
  (forall t, t ∈ toks1 <-> t ∈ toks2) ->
  pages_of pol n toks1 = pages_of pol n toks2.
Proof.
  intros H. apply set_eq. intros x. rewrite !elem_of_pages_of.
  split; intros (t & Ht & Hrest); exists t; (split; [by apply H|done]).
Qed.

Lemma tokens_same_items lim (l1 l2 : list string) :
  (forall item, item ∈ l1 <-> item ∈ l2) ->
  forall t, t ∈ omap (tokenize lim) l1 <-> t ∈ omap (tokenize lim) l2.
Proof.
  intros H t. rewrite !list_elem_of_omap.
  split; intros (item & Hi & Ht); exists item; (split; [by apply H|done]).
Qed.

(** X2 (items form a set).  Two selection strings whose comma-separated
    items are the same up to order and repetition select the same pages:
    writing the items in another order, or an item twice, changes
    nothing. *)
Theorem X2_items_order_and_repetition (int_max_str_digits : nat)
    (items1 items2 : list string) (n : Z) :
  Forall comma_free items1 ->
  Forall comma_free items2 ->
  (forall item, item ∈ items1 <-> item ∈ items2) ->
  parse_page_selection int_max_str_digits (PyStr.join "," items1) n
  = parse_page_selection int_max_str_digits (PyStr.join "," items2) n.
Proof.
  intros H1 H2 Hsame.
  rewrite !parse_page_selection_fold, !tokens_of_joined by done.
  rewrite !foldl_add_token. simpl.
  pose proof (tokens_same_items int_max_str_digits _ _ Hsame) as Ht.
  by rewrite (pages_of_same_tokens Include n _ _ Ht),
    (pages_of_same_tokens Exclude n _ _ Ht).
Qed.

(** The instance of X2 for ["5-7,1,3,1"] and ["1,3,5-7"]. *)
Lemma X2_items_order_and_repetition_witness :
  parse_page_selection 4300 (PyStr.join "," ["5-7"; "1"; "3"; "1"]) 10
  = parse_page_selection 4300 (PyStr.join "," ["1"; "3"; "5-7"]) 10.
Proof.
  apply (X2_items_order_and_repetition 4300
           ["5-7"; "1"; "3"; "1"] ["1"; "3"; "5-7"] 10).
  - repeat constructor.
  - repeat constructor.
  - intros item. rewrite !elem_of_cons, !elem_of_nil. tauto.
Defined.

(** ** The default selection and the whole document *)

Lemma lookup_range_drop {A} (pages : list A) (a : nat) :
  (a <= length pages)%nat ->
  omap (fun k => pages !! Z.to_nat k)
       (py_range (Z.of_nat a) (Z.of_nat (length pages)))
  = drop a pages.
Proof.
  unfold py_range. intros Ha.
  remember (length pages - a)%nat as m eqn:Hm.
  replace (Z.of_nat (length pages) - Z.of_nat a) with (Z.of_nat m) by lia.
  revert a Ha Hm. induction m as [|m IH]; intros a Ha Hm.
  - rewrite seqZ_nil by done. rewrite drop_ge by lia. done.
  - rewrite seqZ_cons by lia.
    replace (Z.pred (Z.of_nat (S m))) with (Z.of_nat m) by lia.
    replace (Z.succ (Z.of_nat a)) with (Z.of_nat (S a)) by lia.
    destruct (lookup_lt_is_Some_2 pages a ltac:(lia)) as [p Hp].
    rewrite (drop_S _ _ _ Hp), <- (IH (S a)) by lia.
    simpl. by rewrite Nat2Z.id, Hp.
Qed.

Lemma parse_exclude_first lim n :
  parse_page_selection lim "-1" n = Ok (py_range 1 n).
Proof.
  rewrite parse_page_selection_resolve.
  replace (parse lim "-1") with [Token Exclude (SinglePage 1)]
    by (by vm_compute).
  f_equal. apply sorted_unique.
  - rewrite resolve_unions. apply sorted_spec.
  - apply py_range_sorted.
  - intros x. rewrite resolve_unions, elem_of_finish, elem_of_py_range.
    rewrite !pages_of_cons. cbn [tok_polarity].
    destruct (decide (Exclude = Include)) as [?|_]; [done|].
    destruct (decide (Exclude = Exclude)) as [_|?]; [|done].
    change (pages_of Include n []) with (∅ : gset Z).
    change (pages_of Exclude n []) with (∅ : gset Z).
    rewrite decide_True by done. rewrite (right_id_L ∅ (∪)).
    rewrite elem_of_token_pages. simpl. lia.
Qed.

Lemma parse_early_exit lim s n :
  negb (PyStr.nonempty s) || String.eqb (PyStr.lower s) "all" = true ->
  parse_page_selection lim s n = Ok (py_range 0 n).
Proof. intros H. unfold parse_page_selection. by rewrite H. Qed.

Section SelectedPages.

Variable lim : nat.
Context {Page : Type}.
Variable E : env Page.
Variable self : PdfMergerThread.

Lemma selected_pages_of_indices pdf_file (pages : list Page) idxs :
  PdfReader E pdf_file = Ok (Reader (Ok pages)) ->
  parse_page_selection lim (selection_of self pdf_file)
    (Z.of_nat (length pages)) = Ok idxs ->
  selected_pages lim E self pdf_file
  = omap (fun k => pages !! Z.to_nat k) idxs.
Proof.
  intros Hr Hp. rewrite parse_page_selection_resolve in Hp.
  injection Hp as <-. unfold selected_pages, selected_indices.
  by rewrite Hr.
Qed.

(** X3 (the default drops the first page).  A document that has no entry
    in [page_selections] gets the selection ["-1"]: the worker adds all
    its pages but the first, in order; from a document of one page it
    adds nothing. *)
Theorem X3_default_selection_drops_first_page pdf_file
    (pages writer : list Page) :
  page_selections self !! pdf_file = None ->
  PdfReader E pdf_file = Ok (Reader (Ok pages)) ->
  selected_pages lim E self pdf_file = drop 1 pages
  /\ try_body lim E self pdf_file writer = Ok ((writer ++ drop 1 pages)%list)
  /\ (length pages = 1%nat -> selected_pages lim E self pdf_file = []).
Proof.
  intros Hsel Hr.
  assert (Hs : selected_pages lim E self pdf_file = drop 1 pages).
  { rewrite (selected_pages_of_indices pdf_file pages
               (py_range 1 (Z.of_nat (length pages)))); [|done|].
    - destruct pages as [|p pages]; [done|].
      apply (lookup_range_drop (p :: pages) 1). simpl. lia.
    - unfold selection_of. rewrite Hsel. apply parse_exclude_first. }
  split; [done|]. split.
  - rewrite try_body_read_ok by (by exists pages). by rewrite Hs.
  - intros Hlen. rewrite Hs. destruct pages as [|p [|q pages]]; done.
Qed.

(** X4 (blank and "all" keep the document).  When the selection of a
    document is the empty string or "all" in any letter case, the worker
    adds every page of the document, in order. *)
Theorem X4_blank_or_all_keeps_document pdf_file
    (pages writer : list Page) (s : string) :
  page_selections self !! pdf_file = Some s ->
  s = "" \/ PyStr.lower s = "all" ->
  PdfReader E pdf_file = Ok (Reader (Ok pages)) ->
  selected_pages lim E self pdf_file = pages
  /\ try_body lim E self pdf_file writer = Ok ((writer ++ pages)%list).
Proof.
  intros Hsel Hs Hr.
  assert (Hp : selected_pages lim E self pdf_file = pages).
  { rewrite (selected_pages_of_indices pdf_file pages
               (py_range 0 (Z.of_nat (length pages)))); [|done|].
    - apply (lookup_range_drop pages 0). lia.
    - unfold selection_of. rewrite Hsel. apply parse_early_exit.
      change (default "-1" (Some s)) with s.
      destruct Hs as [-> | Hl]; [done|]. rewrite Hl. apply orb_true_r. }
  split; [done|].
  rewrite try_body_read_ok by (by exists pages). by rewrite Hp.
Qed.

(** ** Pages keep their order *)

Lemma lookups_sublist (pages : list Page) idxs (a : nat) :
  StronglySorted Z.lt idxs ->
  Forall (fun k => Z.of_nat a <= k) idxs ->
  omap (fun k => pages !! Z.to_nat k) idxs `sublist_of` drop a pages.
Proof.
  intros Hs. revert a. induction Hs as [|k idxs Hs IH Hk]; intros a Ha.
  - apply sublist_nil_l.
  - apply Forall_cons in Ha as [Hak _]. simpl.
    assert (Hrest : omap (fun k => pages !! Z.to_nat k) idxs
                    `sublist_of` drop (S (Z.to_nat k)) pages).
    { apply IH. eapply Forall_impl; [exact Hk|]. simpl. lia. }
    assert (Hdrop : drop (Z.to_nat k) pages `sublist_of` drop a pages).
    { replace (Z.to_nat k) with (a + (Z.to_nat k - a))%nat by lia.
      rewrite <- drop_drop. apply sublist_drop. }
    destruct (pages !! Z.to_nat k) as [p|] eqn:Hp.
    + etrans; [|exact Hdrop]. rewrite (drop_S _ _ _ Hp).
      by apply sublist_skip.
    + etrans; [exact Hrest|]. etrans; [|exact Hdrop].
      replace (S (Z.to_nat k)) with (Z.to_nat k + 1)%nat by lia.
      rewrite <- drop_drop. apply sublist_drop.
Qed.

Lemma selected_pages_sublist pdf_file (pages : list Page) :
  PdfReader E pdf_file = Ok (Reader (Ok pages)) ->
  selected_pages lim E self pdf_file `sublist_of` pages.
Proof.
  intros Hr. unfold selected_pages, selected_indices. rewrite Hr.
  apply (lookups_sublist pages _ 0).
  - rewrite resolve_unions. apply sorted_spec.
  - apply Forall_forall. intros k Hk. apply resolve_in_range in Hk. lia.
Qed.

(** X5 (the merged document).  When a run ends with the success message,
    every input document was read, and the output file holds the
    serialisation of the pages selected from the first document,
    followed by those of the second, and so on in the order of
    [pdf_files]; the pages selected from a document are some of its
    pages in their original order, none repeated. *)
Theorem X5_merged_document_order w msg :
  last (trace (run lim E self w)) = Some (Finished true msg) ->
  files (run lim E self w) !! output_file self
  = Some (writer_bytes E
            (concat (selected_pages lim E self <$> pdf_files self)))
  /\ Forall (fun pdf_file =>
               exists pages,
                 PdfReader E pdf_file = Ok (Reader (Ok pages))
                 /\ selected_pages lim E self pdf_file `sublist_of` pages)
            (pdf_files self).
Proof.
  pose proof (run_meets_spec lim E self w) as H.
  set (w' := run lim E self w) in *. clearbody w'.
  destruct H as [pre bad post e Hfiles Hpre Hbad | Hok Hpages
                 | e Hok Hpages Hopen | k e Hok Hpages Hopen Hwrite
                 | Hok Hpages Hopen Hwrite]; simpl;
    rewrite !last_app; simpl; intros [= <-].
  split; [by rewrite lookup_insert_eq|].
  eapply Forall_impl; [exact Hok|]. simpl. intros f [pages Hr].
  exists pages. split; [done|]. by apply selected_pages_sublist.
Qed.

End SelectedPages.

(** The instance of X3 for a document of three pages without an entry. *)
Lemma X3_default_selection_drops_first_page_witness :
  selected_pages 4300 Sample.library Sample.job_default "a.pdf"
  = drop 1 Sample.three_pages
  /\ try_body 4300 Sample.library Sample.job_default "a.pdf" []
     = Ok (([] ++ drop 1 Sample.three_pages)%list)
  /\ (length Sample.three_pages = 1%nat ->
      selected_pages 4300 Sample.library Sample.job_default "a.pdf" = []).
Proof.
  apply (X3_default_selection_drops_first_page 4300 Sample.library
           Sample.job_default "a.pdf" Sample.three_pages []);
    reflexivity.
Defined.

(** The instance of X4 for a document of three pages selected with
    "all". *)
Lemma X4_blank_or_all_keeps_document_witness :
  selected_pages 4300 Sample.library Sample.job_all "a.pdf"
  = Sample.three_pages
  /\ try_body 4300 Sample.library Sample.job_all "a.pdf" []
     = Ok (([] ++ Sample.three_pages)%list).
Proof.
  apply (X4_blank_or_all_keeps_document 4300 Sample.library
           Sample.job_all "a.pdf" Sample.three_pages [] "all").
  - reflexivity.
  - by right.
  - reflexivity.
Defined.

(** The instance of X5 for one document kept whole. *)
Lemma X5_merged_document_order_witness :
  files (run 4300 Sample.library Sample.job_all Sample.empty_disk)
    !! output_file Sample.job_all
  = Some (writer_bytes Sample.library
            (concat (selected_pages 4300 Sample.library Sample.job_all
                       <$> pdf_files Sample.job_all)))
  /\ Forall (fun pdf_file =>
               exists pages,
                 PdfReader Sample.library pdf_file = Ok (Reader (Ok pages))
                 /\ selected_pages 4300 Sample.library Sample.job_all pdf_file
                    `sublist_of` pages)
            (pdf_files Sample.job_all).
Proof.
  apply (X5_merged_document_order 4300 Sample.library Sample.job_all
           Sample.empty_disk "Successfully merged 1 PDFs into out.pdf").
  by vm_compute.
Defined.

(** * The list of files of the main window *)

(** ** [list.sort]: the sorted, stable rearrangement *)

Section SortFacts.

Context {K A : Type} (lt : K -> K -> bool).
Context `{EqDecision K}.

Hypothesis lt_irrefl : forall a, lt a a = false.
Hypothesis lt_asym : forall a b, lt a b = true -> lt b a = false.
Hypothesis not_lt_trans :
  forall a b c, lt b a = false -> lt c b = false -> lt c a = false.

Abbreviation not_after := (PyList.not_after lt).

Lemma insert_Permutation (x : K * A) l : PyList.insert lt x l ≡ₚ x :: l.
Proof.
  induction l as [|y l IH]; simpl; [done|].
  destruct (lt (fst y) (fst x)); [|done].
  rewrite IH. apply Permutation_swap.
Qed.

Lemma sort_decorated_Permutation (l : list (K * A)) :
  PyList.sort_decorated lt l ≡ₚ l.
Proof.
  induction l as [|x l IH]; simpl; [done|].
  by rewrite insert_Permutation, IH.
Qed.

Lemma insert_sorted (x : K * A) l :
  StronglySorted (fun y z => not_after (fst y) (fst z)) l ->
  StronglySorted (fun y z => not_after (fst y) (fst z))
    (PyList.insert lt x l).
Proof.
  induction 1 as [|y l Hl IH Hy]; simpl; [repeat constructor|].
  destruct (lt (fst y) (fst x)) eqn:Hyx.
  - constructor; [done|].
    rewrite insert_Permutation. constructor; [|done].
    by apply lt_asym.
  - constructor; [by constructor|]. constructor; [done|].
    eapply Forall_impl; [exact Hy|]. intros z Hz.
    unfold PyList.not_after in *. by eapply not_lt_trans.
Qed.

Lemma sort_decorated_sorted (l : list (K * A)) :
  StronglySorted (fun y z => not_after (fst y) (fst z))
    (PyList.sort_decorated lt l).
Proof.
  induction l as [|x l IH]; simpl; [constructor|]. by apply insert_sorted.
Qed.

Lemma insert_stable (x : K * A) l k :
  filter (fun y => fst y = k) (PyList.insert lt x l)
  = filter (fun y => fst y = k) (x :: l).
Proof.
  induction l as [|y l IH]; simpl; [done|].
  destruct (lt (fst y) (fst x)) eqn:Hyx; [|done].
  rewrite !filter_cons in *. rewrite IH.
  destruct (decide (fst x = k)) as [Hx|Hx]; [|done].
  destruct (decide (fst y = k)) as [Hy|Hy]; [|done].
  rewrite Hx, Hy, lt_irrefl in Hyx. discriminate.
Qed.

Lemma sort_decorated_stable (l : list (K * A)) k :
  filter (fun y => fst y = k) (PyList.sort_decorated lt l)
  = filter (fun y => fst y = k) l.
Proof.
  induction l as [|x l IH]; simpl; [done|].
  rewrite insert_stable, !filter_cons, IH. done.
Qed.

Lemma StronglySorted_fmap_inv {B C} (g : B -> C) (R : relation C) l :
  StronglySorted R (g <$> l) ->
  StronglySorted (fun a b => R (g a) (g b)) l.
Proof.
  induction l as [|a l IH]; [constructor|]. rewrite fmap_cons.
  intros H. apply StronglySorted_inv in H as [Hl Ha].
  constructor; [by apply IH|]. rewrite Forall_fmap in Ha. exact Ha.
Qed.

(** Sorting a list by a key function. *)
Lemma sort_by_key (key : A -> K) (l : list A) :
  let sorted_list :=
    snd <$> PyList.sort_decorated lt ((fun a => (key a, a)) <$> l) in
  sorted_list ≡ₚ l
  /\ StronglySorted (fun a b => not_after (key a) (key b)) sorted_list
  /\ forall k, filter (fun a => key a = k) sorted_list
               = filter (fun a => key a = k) l.
Proof.
  set (d := (fun a => (key a, a)) <$> l).
  set (r := PyList.sort_decorated lt d). simpl.
  assert (Hperm : r ≡ₚ d) by apply sort_decorated_Permutation.
  assert (Hkeys : forall (l' : list (K * A)),
            Forall (fun x => fst x = key (snd x)) l' ->
            l' = (fun a => (key a, a)) <$> (snd <$> l')).
  { induction 1 as [|[k a] l' Hx _ IH]; [done|].
    simpl in Hx. subst k. rewrite !fmap_cons. simpl. f_equal. exact IH. }
  assert (Hd : Forall (fun x => fst x = key (snd x)) d).
  { apply Forall_fmap, Forall_forall. done. }
  assert (Hr : Forall (fun x => fst x = key (snd x)) r) by (by rewrite Hperm).
  split; [|split].
  - rewrite Hperm. unfold d. rewrite <- list_fmap_compose.
    by rewrite list_fmap_id.
  - pose proof (sort_decorated_sorted d) as Hs. fold r in Hs.
    rewrite (Hkeys r Hr) in Hs.
    by apply StronglySorted_fmap_inv in Hs.
  - intros k. pose proof (sort_decorated_stable d k) as Hst. fold r in Hst.
    assert (Hf : forall (l' : list A),
              snd <$> filter (fun y => fst y = k) ((fun a => (key a, a)) <$> l')
              = filter (fun a => key a = k) l').
    { induction l' as [|a l' IH]; [done|]. rewrite fmap_cons, !filter_cons.
      cbn [fst]. destruct (decide (key a = k)); [|exact IH].
      rewrite fmap_cons. cbn [snd]. f_equal. exact IH. }
    transitivity (snd <$> filter (fun y => fst y = k) r).
    + by rewrite <- (Hf (snd <$> r)), <- (Hkeys r Hr).
    + rewrite Hst. apply Hf.
Qed.

End SortFacts.

(** ** The order of Python strings *)

Lemma string_compare_refl s : String.compare s s = Eq.
Proof.
  induction s as [|c s IH]; simpl; [done|].
  unfold Ascii.compare. by rewrite N.compare_refl.
Qed.

Lemma string_ltb_irrefl s : String.ltb s s = false.
Proof. unfold String.ltb. by rewrite string_compare_refl. Qed.

Lemma string_ltb_asym a b : String.ltb a b = true -> String.ltb b a = false.
Proof.
  unfold String.ltb. rewrite (String.compare_antisym b a).
  by destruct (String.compare a b).
Qed.

Lemma string_leb_trans a b c :
  String.leb a b = true -> String.leb b c = true -> String.leb a c = true.
Proof.
  unfold String.leb. revert b c.
  induction a as [|x a IH]; intros [|y b] [|z c]; simpl; try done.
  unfold Ascii.compare.
  destruct (N.compare_spec (N_of_ascii x) (N_of_ascii y)) as [Hxy|Hxy|Hxy];
    destruct (N.compare_spec (N_of_ascii y) (N_of_ascii z)) as [Hyz|Hyz|Hyz];
    try done.
  - rewrite Hxy, Hyz, N.compare_refl. apply IH.
  - rewrite Hxy. intros _ _.
    by rewrite (proj2 (N.compare_lt_iff _ _) Hyz).
  - rewrite <- Hyz. intros _ _.
    by rewrite (proj2 (N.compare_lt_iff _ _) Hxy).
  - intros _ _.
    by rewrite (proj2 (N.compare_lt_iff _ _) (N.lt_trans _ _ _ Hxy Hyz)).
Qed.

Lemma string_ltb_leb a b : String.ltb b a = false <-> String.leb a b = true.
Proof.
  unfold String.ltb, String.leb. rewrite (String.compare_antisym a b).
  by destruct (String.compare b a).
Qed.

Lemma string_not_lt_trans a b c :
  String.ltb b a = false -> String.ltb c b = false -> String.ltb c a = false.
Proof. rewrite !string_ltb_leb. apply string_leb_trans. Qed.

Lemma Z_not_lt_trans a b c :
  (b <? a) = false -> (c <? b) = false -> (c <? a) = false.
Proof. rewrite !Z.ltb_ge. lia. Qed.

(** ** The widget follows the list *)

Lemma refresh_items files :
  foldl (fun items file_path =>
           QListWidget.addItem (PyStr.basename file_path) items) [] files
  = PyStr.basename <$> files.
Proof.
  assert (H : forall items,
    foldl (fun items file_path =>
             QListWidget.addItem (PyStr.basename file_path) items)
          items files
    = (items ++ (PyStr.basename <$> files))%list).
  { induction files as [|f files IH]; intros items; simpl.
    - by rewrite app_nil_r.
    - rewrite IH. unfold QListWidget.addItem. by rewrite <- app_assoc. }
  apply H.
Qed.

Lemma refresh_in_step st : App.in_step (App.refresh_file_list st).
Proof. unfold App.in_step, App.refresh_file_list. simpl. apply refresh_items. Qed.

(** ** Sorting the files *)

Section SortPairs.

Context {K B : Type} (lt : K -> K -> bool) `{EqDecision K}.
Context (name : B -> string) (key : string * B -> K).

Hypothesis lt_irrefl : forall a, lt a a = false.
Hypothesis lt_asym : forall a b, lt a b = true -> lt b a = false.
Hypothesis not_lt_trans :
  forall a b c, lt b a = false -> lt c b = false -> lt c a = false.

(** The pairs [(name, x)] sorted by [key], then the [x] again. *)
Lemma sort_pairs_by_key (l : list B) :
  let sorted_list :=
    snd <$> (snd <$> PyList.sort_decorated lt
                       ((fun x => (key x, x))
                          <$> ((fun b => (name b, b)) <$> l))) in
  sorted_list ≡ₚ l
  /\ StronglySorted
       (fun a b => PyList.not_after lt (key (name a, a)) (key (name b, b)))
       sorted_list
  /\ forall k, filter (fun a => key (name a, a) = k) sorted_list
               = filter (fun a => key (name a, a) = k) l.
Proof.
  set (g := fun b : B => (name b, b)).
  destruct (sort_by_key lt lt_irrefl lt_asym not_lt_trans key (g <$> l))
    as (Hperm & Hsorted & Hstable).
  set (r := snd <$> PyList.sort_decorated lt
                      ((fun x => (key x, x)) <$> (g <$> l))) in *.
  simpl.
  assert (Hg : Forall (fun x => x = g (snd x)) r).
  { rewrite Hperm. apply Forall_fmap, Forall_forall. done. }
  assert (Hr : r = g <$> (snd <$> r)).
  { clear -Hg. induction Hg as [|x r Hx _ IH]; [done|].
    rewrite !fmap_cons. by rewrite <- Hx, <- IH. }
  split; [|split].
  - rewrite Hperm, <- list_fmap_compose. by rewrite list_fmap_id.
  - rewrite Hr in Hsorted. by apply StronglySorted_fmap_inv in Hsorted.
  - intros k.
    assert (Hf : forall (l' : list B),
              snd <$> filter (fun x => key x = k) (g <$> l')
              = filter (fun a => key (name a, a) = k) l').
    { induction l' as [|a l' IH]; [done|]. rewrite fmap_cons, !filter_cons.
      destruct (decide (key (g a) = k)) as [Hk|Hk];
        destruct (decide (key (name a, a) = k)) as [Hk'|Hk'];
        try done.
      rewrite fmap_cons. simpl. f_equal. exact IH. }
    transitivity (snd <$> filter (fun x => key x = k) r).
    + by rewrite <- (Hf (snd <$> r)), <- Hr.
    + rewrite Hstable. apply Hf.
Qed.

End SortPairs.

Lemma StronglySorted_weaken {A} (R1 R2 : relation A) l :
  (forall a b, R1 a b -> R2 a b) ->
  StronglySorted R1 l -> StronglySorted R2 l.
Proof.
  intros H. induction 1 as [|x l Hl IH Hx]; constructor; [done|].
  eapply Forall_impl; [exact Hx|]. apply H.
Qed.

(** X6 ([sort_alphabetically]).  The files after the sort are the files
    before it, by non-decreasing lower-case base name, files of equal
    lower-case base name in the order they had; the widget then shows
    them in that order. *)
Theorem X6_sort_alphabetically (st : App.t) :
  App.pdf_files (App.sort_alphabetically st) ≡ₚ App.pdf_files st
  /\ StronglySorted
       (fun p q =>
          String.leb (App.alphabetical_key p) (App.alphabetical_key q) = true)
       (App.pdf_files (App.sort_alphabetically st))
  /\ (forall k,
        filter (fun p => App.alphabetical_key p = k)
               (App.pdf_files (App.sort_alphabetically st))
        = filter (fun p => App.alphabetical_key p = k) (App.pdf_files st))
  /\ (App.pdf_files st <> [] \/ App.in_step st ->
      App.in_step (App.sort_alphabetically st)).
Proof.
  unfold App.sort_alphabetically.
  destruct (App.pdf_files st) as [|f files] eqn:Hfiles.
  { rewrite Hfiles. split; [done|]. split; [constructor|].
    split; [done|]. by intros [?|?]. }
  rewrite <- Hfiles. unfold App.file_pairs.
  destruct (sort_pairs_by_key String.ltb PyStr.basename
              (fun x => PyStr.lower (fst x))
              string_ltb_irrefl string_ltb_asym string_not_lt_trans
              (App.pdf_files st)) as (Hperm & Hsorted & Hstable).
  simpl in *. split; [done|]. split; [|split; [done|]].
  - eapply StronglySorted_weaken; [|exact Hsorted]. simpl.
    intros a b. unfold PyList.not_after. apply string_ltb_leb.
  - intros _. apply refresh_items.
Qed.

Lemma X6_sort_alphabetically_witness :
  App.in_step SampleApp.two_files
  /\ App.in_step (App.sort_alphabetically SampleApp.two_files).
Proof.
  split; [reflexivity|].
  apply (proj2 (proj2 (proj2 (X6_sort_alphabetically SampleApp.two_files)))).
  right. reflexivity.
Defined.

Lemma decorate_ok {K A} (key : A -> result K) (f : A -> K) (l : list A) :
  Forall (fun x => key x = Ok (f x)) l ->
  PyList.decorate key l = Ok ((fun x => (f x, x)) <$> l).
Proof.
  induction 1 as [|x l Hx _ IH]; simpl; [done|]. by rewrite Hx, IH.
Qed.

Lemma decorate_raise {K A} (key : A -> result K) (l : list A) x e :
  x ∈ l -> key x = Raise e -> exists e', PyList.decorate key l = Raise e'.
Proof.
  induction l as [|y l IH]; intros Hx He; [by apply elem_of_nil in Hx|].
  simpl. destruct (key y) as [k|e1] eqn:Hy; simpl; [|eauto].
  apply elem_of_cons in Hx as [->|Hx]; [congruence|].
  destruct (IH Hx He) as [e' ->]. simpl. eauto.
Qed.

(** X7 ([sort_numerically]).  When the first number of every base name
    converts, the files after the sort are the files before it, by
    non-decreasing first number (0 for a name without digits), files
    with the same number in the order they had, and the widget shows
    them in that order.  When the number of some file does not convert,
    nothing changes. *)
Theorem X7_sort_numerically (int_max_str_digits : nat) (st : App.t) :
  (Forall (fun p =>
             exists v,
               App.extract_number int_max_str_digits (PyStr.basename p)
               = Ok v)
          (App.pdf_files st) ->
   App.pdf_files (App.sort_numerically int_max_str_digits st)
     ≡ₚ App.pdf_files st
   /\ StronglySorted
        (fun p q =>
           App.first_number int_max_str_digits p
           <= App.first_number int_max_str_digits q)
        (App.pdf_files (App.sort_numerically int_max_str_digits st))
   /\ (forall k,
         filter (fun p => App.first_number int_max_str_digits p = k)
                (App.pdf_files (App.sort_numerically int_max_str_digits st))
         = filter (fun p => App.first_number int_max_str_digits p = k)
                  (App.pdf_files st))
   /\ (App.pdf_files st <> [] \/ App.in_step st ->
       App.in_step (App.sort_numerically int_max_str_digits st)))
  /\ (forall p e,
        p ∈ App.pdf_files st ->
        App.extract_number int_max_str_digits (PyStr.basename p) = Raise e ->
        App.sort_numerically int_max_str_digits st = st).
Proof.
  split.
  - intros Hkeys. unfold App.sort_numerically.
    destruct (App.pdf_files st) as [|f files] eqn:Hfiles.
    { rewrite Hfiles. split; [done|]. split; [constructor|].
      split; [done|]. by intros [?|?]. }
    rewrite <- Hfiles in *. unfold App.file_pairs.
    rewrite (decorate_ok _
               (fun x => match App.extract_number int_max_str_digits (fst x)
                         with Ok v => v | Raise _ => 0 end)).
    2:{ apply Forall_fmap. eapply Forall_impl; [exact Hkeys|].
        simpl. intros p [v ->]. done. }
    destruct (sort_pairs_by_key Z.ltb PyStr.basename
                (fun x => match App.extract_number int_max_str_digits (fst x)
                          with Ok v => v | Raise _ => 0 end)
                Z.ltb_irrefl
                (fun a b H => proj2 (Z.ltb_ge b a)
                                (Z.lt_le_incl _ _ (proj1 (Z.ltb_lt a b) H)))
                Z_not_lt_trans
                (App.pdf_files st)) as (Hperm & Hsorted & Hstable).
    simpl in *. split; [done|]. split; [|split; [done|]].
    + eapply StronglySorted_weaken; [|exact Hsorted]. simpl.
      intros a b. unfold PyList.not_after, App.first_number.
      rewrite Z.ltb_ge. done.
    + intros _. apply refresh_items.
  - intros p e Hp He. unfold App.sort_numerically.
    destruct (App.pdf_files st) as [|f files] eqn:Hfiles; [done|].
    rewrite <- Hfiles in *.
    destruct (decorate_raise
                (fun x => App.extract_number int_max_str_digits (fst x))
                (App.file_pairs st) (PyStr.basename p, p) e) as [e' ->];
      [|done|done].
    unfold App.file_pairs. apply list_elem_of_fmap. by exists p.
Qed.

Lemma X7_sort_numerically_witness :
  App.in_step (App.sort_numerically 4300 SampleApp.two_files)
  /\ App.sort_numerically 650 SampleApp.long_number = SampleApp.long_number.
Proof.
  split.
  - apply (proj1 (X7_sort_numerically 4300 SampleApp.two_files)).
    + repeat constructor; eexists; vm_compute; reflexivity.
    + right. reflexivity.
  - apply (proj2 (X7_sort_numerically 650 SampleApp.long_number)
             ("/in/" ++ SampleApp.sevens 700 ++ ".pdf")
             (Exn ValueError
                "Exceeds the limit for integer string conversion")).
    + apply list_elem_of_further, list_elem_of_here.
    + vm_compute. reflexivity.
Defined.

(** ** The first number of a file name *)

#[local] Arguments String.append !s1 s2 /.

Lemma str_app_nil_r (s : string) : s ++ "" = s.
Proof. induction s as [|c s IH]; [done|]. cbn. by f_equal. Qed.

Lemma str_app_assoc (a b c : string) : (a ++ b) ++ c = a ++ (b ++ c).
Proof. induction a as [|x a IH]; [done|]. cbn. by f_equal. Qed.

Lemma findall_skip_prefix prefix s :
  App.all_chars (fun c => negb (App.is_digit c)) prefix = true ->
  App.findall_digits (prefix ++ s) "" = App.findall_digits s "".
Proof.
  induction prefix as [|c prefix IH]; simpl; [done|].
  unfold App.is_digit. destruct (digit_value c); simpl; [discriminate|].
  apply IH.
Qed.

Lemma findall_first_run digits rest run :
  App.all_chars App.is_digit digits = true ->
  App.starts_with_digit rest = false ->
  PyStr.nonempty (run ++ digits) = true ->
  exists others,
    App.findall_digits (digits ++ rest) run = (run ++ digits) :: others.
Proof.
  revert run. induction digits as [|c digits IH]; intros run; simpl.
  - intros _ Hrest Hrun. rewrite str_app_nil_r in Hrun.
    rewrite str_app_nil_r.
    destruct rest as [|d rest]; simpl.
    + rewrite Hrun. eauto.
    + simpl in Hrest. unfold App.is_digit in Hrest.
      destruct (digit_value d); [discriminate|]. rewrite Hrun. eauto.
  - unfold App.is_digit at 1. destruct (digit_value c); [|discriminate].
    simpl. intros Hd Hrest _.
    destruct (IH (run ++ String c "") Hd Hrest) as [others Ho].
    + rewrite str_app_assoc. simpl. by destruct run.
    + exists others. rewrite Ho. f_equal. by rewrite str_app_assoc.
Qed.

Lemma findall_no_digit s :
  App.all_chars (fun c => negb (App.is_digit c)) s = true ->
  App.findall_digits s "" = [].
Proof.
  induction s as [|c s IH]; simpl; [done|].
  unfold App.is_digit. destruct (digit_value c); simpl; [discriminate|].
  apply IH.
Qed.

Lemma rev_app_rev_app s a b :
  PyStr.rev_app (PyStr.rev_app s a) b = PyStr.rev_app a (s ++ b).
Proof.
  revert a b. induction s as [|c s IH]; intros a b; simpl; [done|].
  by rewrite IH.
Qed.

Lemma rev_rev s : PyStr.rev (PyStr.rev s) = s.
Proof.
  unfold PyStr.rev. rewrite rev_app_rev_app. simpl. apply str_app_nil_r.
Qed.

Lemma all_chars_rev_app p s acc :
  App.all_chars p (PyStr.rev_app s acc)
  = App.all_chars p s && App.all_chars p acc.
Proof.
  revert acc. induction s as [|c s IH]; intros acc; simpl; [done|].
  rewrite IH. simpl. by destruct (p c), (App.all_chars p s).
Qed.

Lemma lstrip_no_space sp s :
  App.all_chars (fun c => negb (sp c)) s = true ->
  PyStr.lstrip_with sp s = s.
Proof. destruct s as [|c s]; simpl; [done|]. by destruct (sp c). Qed.

Lemma strip_no_space sp s :
  App.all_chars (fun c => negb (sp c)) s = true ->
  PyStr.strip_with sp s = s.
Proof.
  intros H. unfold PyStr.strip_with.
  rewrite (lstrip_no_space sp s H), lstrip_no_space; [apply rev_rev|].
  unfold PyStr.rev. rewrite all_chars_rev_app, H. done.
Qed.

Lemma digit_is_plain c :
  App.is_digit c = true ->
  PyStr.int_isspace c = false
  /\ Ascii.eqb c "-" = false /\ Ascii.eqb c "+" = false
  /\ Ascii.eqb c "_" = false.
Proof.
  destruct c as [[] [] [] [] [] [] [] []]; vm_compute; intros H;
    first [discriminate H | done].
Qed.

Lemma all_chars_impl (p q : ascii -> bool) s :
  (forall c, p c = true -> q c = true) ->
  App.all_chars p s = true -> App.all_chars q s = true.
Proof.
  intros H. induction s as [|c s IH]; simpl; [done|].
  intros [Hc Hs]%andb_true_iff. by rewrite (H c Hc), IH.
Qed.

Lemma int_digits_all_digits d prev_us acc nd :
  App.all_chars App.is_digit d = true ->
  PyStr.nonempty d = true \/ prev_us = false ->
  exists v, int_digits d prev_us acc nd = Some (v, (nd + String.length d)%nat).
Proof.
  revert prev_us acc nd.
  induction d as [|c d IH]; intros prev_us acc nd; simpl.
  - intros _ [?| ->]; [done|]. rewrite Nat.add_0_r. eauto.
  - intros [Hc Hd]%andb_true_iff _.
    destruct (digit_is_plain c Hc) as (_ & _ & _ & ->).
    unfold App.is_digit in Hc. destruct (digit_value c) as [v|]; [|done].
    destruct (IH false (10 * acc + v) (S nd) Hd) as [w ->]; [by right|].
    exists w. do 2 f_equal. lia.
Qed.

Lemma py_int_of_digits lim d :
  App.all_chars App.is_digit d = true ->
  PyStr.nonempty d = true ->
  (String.length d <= 640)%nat ->
  exists v, py_int lim d = Ok v /\ 0 <= v.
Proof.
  intros Hd Hne Hlen. unfold py_int.
  rewrite strip_no_space.
  2:{ eapply all_chars_impl; [|exact Hd]. intros c Hc.
      by destruct (digit_is_plain c Hc) as (-> & _). }
  assert (Hsign : int_sign d = (false, d)).
  { destruct d as [|c d]; [done|]. simpl in Hd.
    apply andb_true_iff in Hd as [Hc _].
    destruct (digit_is_plain c Hc) as (_ & Hm & Hp & _).
    unfold int_sign. by rewrite Hm, Hp. }
  rewrite Hsign.
  destruct (int_digits_all_digits d true 0 0 Hd) as [v Hv]; [by left|].
  rewrite Hv. simpl Nat.add.
  unfold over_digit_limit.
  rewrite (proj2 (Nat.ltb_ge 640 (String.length d))) by lia. simpl.
  exists v. split; [done|]. by eapply int_digits_nonneg.
Qed.

(** X8 (the number a file is sorted by).  The key of the numeric sort is
    0 for a name without digits; otherwise it is [int] of the first run
    of digits of the name, which converts, to a number that is not
    negative, when the run has at most 640 digits. *)
Theorem X8_first_number_of_a_name (int_max_str_digits : nat) :
  (forall name,
     App.all_chars (fun c => negb (App.is_digit c)) name = true ->
     App.extract_number int_max_str_digits name = Ok 0)
  /\ (forall before digits rest,
        App.all_chars (fun c => negb (App.is_digit c)) before = true ->
        App.all_chars App.is_digit digits = true ->
        PyStr.nonempty digits = true ->
        App.starts_with_digit rest = false ->
        App.extract_number int_max_str_digits (before ++ digits ++ rest)
        = py_int int_max_str_digits digits
        /\ ((String.length digits <= 640)%nat ->
            exists v, py_int int_max_str_digits digits = Ok v /\ 0 <= v)).
Proof.
  split.
  - intros name H. unfold App.extract_number. by rewrite findall_no_digit.
  - intros before digits rest Hb Hd Hne Hrest. split.
    + unfold App.extract_number. rewrite findall_skip_prefix by done.
      destruct (findall_first_run digits rest "" Hd Hrest Hne)
        as [others ->]. done.
    + intros Hlen. by apply py_int_of_digits.
Qed.

(** The instance of X8 for ["report_007_v2.pdf"]. *)
Lemma X8_first_number_of_a_name_witness :
  App.extract_number 4300 ("report_" ++ "007" ++ "_v2.pdf")
  = py_int 4300 "007"
  /\ ((String.length "007" <= 640)%nat ->
      exists v, py_int 4300 "007" = Ok v /\ 0 <= v).
Proof.
  apply (proj2 (X8_first_number_of_a_name 4300) "report_" "007" "_v2.pdf");
    reflexivity.
Defined.

(** ** Bringing [pdf_files] to the order of the widget *)

Lemma filename_to_path_fold (m0 : gmap string string) files k :
  foldl (fun m path => <[PyStr.basename path := path]> m) m0 files !! k
  = from_option Some (m0 !! k)
      (last (filter (fun q => PyStr.basename q = k) files)).
Proof.
  revert m0. induction files as [|f files IH]; intros m0; [done|].
  cbn [foldl]. rewrite IH, filter_cons.
  destruct (decide (PyStr.basename f = k)) as [Hk|Hk].
  - rewrite Hk, lookup_insert_eq.
    destruct (filter (fun q => PyStr.basename q = k) files) as [|q l] eqn:Hf;
      [done|].
    change (f :: q :: l) with ([f] ++ q :: l)%list. rewrite last_app.
    by destruct (last (q :: l)) eqn:Hl.
  - by rewrite lookup_insert_ne.
Qed.

Lemma filename_to_path_lookup files p :
  p ∈ files ->
  App.filename_to_path files !! PyStr.basename p
  = Some (App.last_with_same_name files p).
Proof.
  intros Hp. unfold App.filename_to_path, App.last_with_same_name.
  rewrite filename_to_path_fold, lookup_empty.
  assert (Hin : p ∈ filter (fun q => PyStr.basename q = PyStr.basename p)
                       files) by (by apply list_elem_of_filter).
  destruct (filter _ files) as [|q l] eqn:Hf; [by apply elem_of_nil in Hin|].
  destruct (last (q :: l)) as [x|] eqn:Hl; [done|].
  by apply last_None in Hl.
Qed.

Lemma omap_fmap_total {A B C} (f : B -> option C) (h : A -> B) (g : A -> C)
    (l : list A) :
  (forall x, x ∈ l -> f (h x) = Some (g x)) -> omap f (h <$> l) = g <$> l.
Proof.
  induction l as [|x l IH]; intros H; [done|]. csimpl.
  rewrite (H x) by apply list_elem_of_here. csimpl. f_equal.
  apply IH. intros y Hy. apply H. by apply list_elem_of_further.
Qed.

Lemma same_name_unique files p :
  NoDup (PyStr.basename <$> files) -> p ∈ files ->
  App.last_with_same_name files p = p.
Proof.
  unfold App.last_with_same_name.
  induction files as [|f files IH]; intros Hnd Hp;
    [by apply elem_of_nil in Hp|].
  rewrite fmap_cons in Hnd. apply NoDup_cons in Hnd as [Hf Hnd].
  rewrite filter_cons. apply elem_of_cons in Hp as [->|Hp].
  - rewrite decide_True by done.
    destruct (filter _ files) as [|q l] eqn:Hq; [done|].
    assert (Hin : q ∈ filter (fun q => PyStr.basename q = PyStr.basename f)
                        files) by (rewrite Hq; apply list_elem_of_here).
    apply list_elem_of_filter in Hin as [Hb Hin]. destruct Hf.
    rewrite <- Hb. by apply list_elem_of_fmap_2.
  - rewrite decide_False; [by apply IH|].
    intros Hb. destruct Hf. rewrite Hb. by apply list_elem_of_fmap_2.
Qed.


Lemma update_names files items :
  Forall (fun k => k ∈ PyStr.basename <$> files) items ->
  PyStr.basename
    <$> omap (fun filename => App.filename_to_path files !! filename) items
  = items.
Proof.
  induction 1 as [|k items Hk _ IH]; [done|].
  apply list_elem_of_fmap in Hk as (p & -> & Hp). csimpl.
  rewrite (filename_to_path_lookup _ _ Hp). cbn. rewrite IH. f_equal.
  unfold App.last_with_same_name.
  destruct (last _) as [q|] eqn:Hq; [|done].
  apply last_Some_elem_of, list_elem_of_filter in Hq. apply Hq.
Qed.

Lemma update_in_step (st : App.t) :
  App.in_step st ->
  App.pdf_files (App.update_pdf_files_from_list st)
  = App.last_with_same_name (App.pdf_files st) <$> App.pdf_files st.
Proof.
  unfold App.in_step, App.update_pdf_files_from_list. intros ->.
  rewrite (omap_fmap_total _ _ (App.last_with_same_name (App.pdf_files st)))
    by (intros p Hp; by apply filename_to_path_lookup).
  by rewrite length_fmap, Nat.eqb_refl.
Qed.

Lemma same_names_fmap files :
  NoDup (PyStr.basename <$> files) ->
  App.last_with_same_name files <$> files = files.
Proof.
  intros Hnd. rewrite <- (list_fmap_id files) at 3.
  apply list_fmap_ext. intros i p Hp. apply same_name_unique; [done|].
  by apply list_elem_of_lookup_2 in Hp.
Qed.

(** X9: when the base names of the files are pairwise different and the
    widget shows them in some order, [update_pdf_files_from_list] brings
    [pdf_files] to that order: it holds the same paths, the widget shows
    their base names row by row, and the status reads "File order
    updated".  Leaving the drag-and-drop mode does the same. *)
Theorem X9_reordering_by_drag_and_drop (st : App.t) :
  NoDup (PyStr.basename <$> App.pdf_files st) ->
  App.file_list st ≡ₚ PyStr.basename <$> App.pdf_files st ->
  let st' := App.update_pdf_files_from_list st in
  App.in_step st'
  /\ App.pdf_files st' ≡ₚ App.pdf_files st
  /\ App.file_list st' = App.file_list st
  /\ App.status_label st' = "File order updated"
  /\ App.pdf_files (App.toggle_drag_drop false st) = App.pdf_files st'
  /\ App.status_label (App.toggle_drag_drop false st) = "File order updated".
Proof.
  intros Hnd Hperm.
  set (new_order :=
         omap (fun filename =>
                 App.filename_to_path (App.pdf_files st) !! filename)
              (App.file_list st)).
  assert (Hnames : PyStr.basename <$> new_order = App.file_list st).
  { apply update_names, Forall_forall. intros k Hk. by rewrite <- Hperm. }
  assert (Hfiles : new_order ≡ₚ App.pdf_files st).
  { unfold new_order. rewrite Hperm.
    rewrite (omap_fmap_total _ _
               (App.last_with_same_name (App.pdf_files st)))
      by (intros p Hp; by apply filename_to_path_lookup).
    by rewrite same_names_fmap. }
  assert (Hlen : (length new_order =? length (App.pdf_files st))%nat = true).
  { apply Nat.eqb_eq. by rewrite Hfiles. }
  assert (Hupd : forall st0,
            App.pdf_files st0 = App.pdf_files st ->
            App.file_list st0 = App.file_list st ->
            App.update_pdf_files_from_list st0
            = App.set_status "File order updated"
                (App.set_files new_order st0)).
  { intros st0 Hf Hi. unfold App.update_pdf_files_from_list.
    rewrite Hf, Hi. fold new_order. by rewrite Hlen. }
  unfold App.toggle_drag_drop. rewrite !Hupd by done.
  unfold App.in_step. cbn. by rewrite Hnames.
Qed.

Lemma X9_reordering_by_drag_and_drop_witness :
  NoDup (PyStr.basename <$> App.pdf_files SampleApp.dragged)
  /\ App.file_list SampleApp.dragged
     ≡ₚ PyStr.basename <$> App.pdf_files SampleApp.dragged
  /\ App.in_step (App.update_pdf_files_from_list SampleApp.dragged)
  /\ App.pdf_files (App.update_pdf_files_from_list SampleApp.dragged)
     ≡ₚ App.pdf_files SampleApp.dragged.
Proof.
  assert (Hnd : NoDup (PyStr.basename <$> App.pdf_files SampleApp.dragged)).
  { apply (bool_decide_unpack _). vm_compute. exact I. }
  assert (Hperm : App.file_list SampleApp.dragged
                  ≡ₚ PyStr.basename <$> App.pdf_files SampleApp.dragged).
  { vm_compute. apply perm_swap. }
  split; [exact Hnd|]. split; [exact Hperm|].
  pose proof (X9_reordering_by_drag_and_drop SampleApp.dragged Hnd Hperm)
    as (H1 & H2 & _).
  split; [exact H1|exact H2].
Defined.

(** X10: when the widget is in step with [pdf_files],
    [update_pdf_files_from_list] replaces every path by the last path of
    the list that has the same base name (the dictionary keeps one path
    per base name).  The widget stays in step; the list is unchanged when
    the base names are pairwise different, and otherwise a path is lost
    and another one is held twice. *)
Theorem X10_same_base_name_paths_collapse (st : App.t) :
  App.in_step st ->
  let st' := App.update_pdf_files_from_list st in
  App.pdf_files st'
  = App.last_with_same_name (App.pdf_files st) <$> App.pdf_files st
  /\ App.in_step st'
  /\ (NoDup (PyStr.basename <$> App.pdf_files st) ->
      App.pdf_files st' = App.pdf_files st)
  /\ (forall p q pre mid post,
        App.pdf_files st = (pre ++ p :: mid ++ q :: post)%list ->
        PyStr.basename p = PyStr.basename q -> p <> q ->
        PyStr.basename q ∉ PyStr.basename <$> post ->
        (p ∉ App.pdf_files st') /\ App.pdf_files st' !! length pre = Some q
        /\ App.pdf_files st' !! (length pre + S (length mid))%nat = Some q).
Proof.
  intros Hstep st'. pose proof (update_in_step st Hstep) as Hfiles.
  fold st' in Hfiles. split; [done|]. split; [|split].
  - unfold App.in_step. rewrite Hfiles.
    assert (Hitems : App.file_list st' = App.file_list st).
    { unfold st', App.update_pdf_files_from_list.
      by destruct (_ =? _)%nat. }
    rewrite Hitems, Hstep, <- list_fmap_compose.
    apply list_fmap_ext. intros i p Hp. cbn.
    unfold App.last_with_same_name.
    destruct (last _) as [q|] eqn:Hq; [|done].
    apply last_Some_elem_of, list_elem_of_filter in Hq. symmetry. apply Hq.
  - intros Hnd. by rewrite Hfiles, same_names_fmap.
  - intros p q pre mid post Hst Hb Hpq Hpost.
    assert (Hlast : forall x, PyStr.basename x = PyStr.basename q ->
                      App.last_with_same_name (App.pdf_files st) x = q).
    { intros x Hx. unfold App.last_with_same_name. rewrite Hst, Hx.
      rewrite !filter_app, filter_cons, decide_True by done.
      rewrite filter_app, (filter_cons _ q), decide_True by done.
      assert (Hnone : filter (fun q0 => PyStr.basename q0 = PyStr.basename q)
                        post = []).
      { destruct (filter _ post) as [|y l] eqn:Hy; [done|].
        assert (Hin : y ∈ filter
                        (fun q0 => PyStr.basename q0 = PyStr.basename q) post)
          by (rewrite Hy; apply list_elem_of_here).
        apply list_elem_of_filter in Hin as [Hyb Hin]. destruct Hpost.
        rewrite <- Hyb. by apply list_elem_of_fmap_2. }
      rewrite Hnone, last_app, last_cons, last_app. done. }
    rewrite Hfiles. split; [|split].
    + intros Hin. apply list_elem_of_fmap in Hin as (x & Hx & Hin).
      assert (Hxb : PyStr.basename x = PyStr.basename q).
      { rewrite <- Hb, Hx. unfold App.last_with_same_name.
        destruct (last _) as [y|] eqn:Hy; [|done].
        apply last_Some_elem_of, list_elem_of_filter in Hy. symmetry.
        apply Hy. }
      rewrite (Hlast x Hxb) in Hx. done.
    + assert (Hp : App.pdf_files st !! length pre = Some p).
      { rewrite Hst. by apply list_lookup_middle. }
      rewrite list_lookup_fmap, Hp. cbn. f_equal. by apply Hlast.
    + assert (Hq : App.pdf_files st !! (length pre + S (length mid))%nat
                   = Some q).
      { rewrite Hst.
        replace (pre ++ p :: mid ++ q :: post)%list
          with ((pre ++ p :: mid) ++ q :: post)%list
          by (by rewrite <- app_assoc).
        apply list_lookup_middle. rewrite length_app. cbn. lia. }
      rewrite list_lookup_fmap, Hq. cbn. f_equal. by apply Hlast.
Qed.

Lemma X10_same_base_name_paths_collapse_witness :
  App.in_step SampleApp.same_names
  /\ App.pdf_files (App.update_pdf_files_from_list SampleApp.same_names)
     = ["/y/a.pdf"; "/y/a.pdf"]
  /\ "/x/a.pdf"
     ∉ App.pdf_files (App.update_pdf_files_from_list SampleApp.same_names).
Proof.
  assert (Hstep : App.in_step SampleApp.same_names) by reflexivity.
  pose proof (X10_same_base_name_paths_collapse SampleApp.same_names Hstep)
    as (H1 & _ & _ & H4).
  split; [exact Hstep|]. split.
  - rewrite H1. vm_compute. reflexivity.
  - apply (H4 "/x/a.pdf" "/y/a.pdf" [] [] []).
    + reflexivity.
    + reflexivity.
    + discriminate.
    + apply not_elem_of_nil.
Defined.

(** ** Adding files *)

Lemma add_loop files : forall st,
  let st' :=
    foldl (fun st file =>
             if bool_decide (file ∈ App.pdf_files st) then st
             else App.set_items
                    (QListWidget.addItem (PyStr.basename file)
                       (App.file_list st))
                    (App.set_files (App.pdf_files st ++ [file]) st))
          st files in
  exists added,
    App.pdf_files st' = (App.pdf_files st ++ added)%list
    /\ App.file_list st'
       = (App.file_list st ++ (PyStr.basename <$> added))%list
    /\ NoDup added
    /\ (forall f, f ∈ added <-> f ∈ files /\ f ∉ App.pdf_files st)
    /\ added `sublist_of` files
    /\ App.drag_enabled st' = App.drag_enabled st
    /\ App.status_label st' = App.status_label st.
Proof.
  induction files as [|file files IH]; intros st; cbn [foldl].
  - exists []. rewrite !app_nil_r. split_and!; try done.
    + apply NoDup_nil_2.
    + intros f. rewrite !elem_of_nil. tauto.
  - case_bool_decide as Hin.
    + destruct (IH st) as (added & Hf & Hi & Hnd & Hmem & Hsub & Hd).
      exists added. split_and!; try done; try apply Hd.
      * intros f. rewrite Hmem, elem_of_cons. split; [tauto|].
        intros [[->|?] ?]; tauto.
      * by apply sublist_cons.
    + set (st1 := App.set_items _ _).
      destruct (IH st1) as (added & Hf & Hi & Hnd & Hmem & Hsub & Hd).
      exists (file :: added). cbn in Hf, Hi, Hd.
      unfold QListWidget.addItem in Hi.
      rewrite <- !app_assoc in Hf, Hi.
      assert (Hmem' : forall f, f ∈ added <->
                f ∈ files /\ (f ∉ App.pdf_files st) /\ f <> file).
      { intros f. rewrite Hmem. cbn. rewrite elem_of_app, list_elem_of_singleton.
        tauto. }
      split_and!; try done; try apply Hd.
      * apply NoDup_cons. split; [|done]. rewrite Hmem'. tauto.
      * intros f. rewrite !elem_of_cons, Hmem'.
        destruct (decide (f = file)) as [->|Hne]; tauto.
      * by apply sublist_skip.
Qed.

(** X11: [add_pdf_files] appends to [pdf_files] the chosen paths that
    it does not hold yet, each once and in the order in which they were
    chosen, and appends their base names to the widget.  The paths held
    before keep their places; a list without repetition stays without
    repetition, and a widget in step stays in step. *)
Theorem X11_adding_files (files : list string) (st : App.t) :
  let st' := App.add_pdf_files files st in
  exists added,
    App.pdf_files st' = (App.pdf_files st ++ added)%list
    /\ App.file_list st'
       = (App.file_list st ++ (PyStr.basename <$> added))%list
    /\ NoDup added
    /\ (forall f, f ∈ added <-> f ∈ files /\ f ∉ App.pdf_files st)
    /\ added `sublist_of` files
    /\ (NoDup (App.pdf_files st) -> NoDup (App.pdf_files st'))
    /\ (App.in_step st -> App.in_step st')
    /\ (files <> [] ->
        App.status_label st'
        = py_str (Z.of_nat (length (App.pdf_files st ++ added)))
            ++ " PDFs selected").
Proof.
  intros st'.
  assert (Hgen : exists added,
    App.pdf_files st' = (App.pdf_files st ++ added)%list
    /\ App.file_list st'
       = (App.file_list st ++ (PyStr.basename <$> added))%list
    /\ NoDup added
    /\ (forall f, f ∈ added <-> f ∈ files /\ f ∉ App.pdf_files st)
    /\ added `sublist_of` files
    /\ (files <> [] ->
        App.status_label st'
        = py_str (Z.of_nat (length (App.pdf_files st ++ added)))
            ++ " PDFs selected")).
  { unfold st', App.add_pdf_files. destruct files as [|file files].
    - exists []. rewrite !app_nil_r. split_and!; try done.
      + apply NoDup_nil_2.
      + intros f. rewrite !elem_of_nil. tauto.
    - destruct (add_loop (file :: files) st)
        as (added & Hf & Hi & Hnd & Hmem & Hsub & Hd).
      exists added. cbn [App.set_status App.pdf_files App.file_list
                          App.status_label].
      split_and!; try done.
      intros _. unfold App.selected_status. by rewrite Hf. }
  destruct Hgen as (added & Hf & Hi & Hnd & Hmem & Hsub & Hs).
  exists added. split_and!; try done.
  - intros Hnd0. rewrite Hf. apply NoDup_app. split_and!; try done.
    intros f Hf0 [_ Hn]%Hmem. done.
  - unfold App.in_step. intros Hstep. by rewrite Hf, Hi, Hstep, fmap_app.
Qed.

Lemma X11_adding_files_witness :
  NoDup (App.pdf_files
           (App.add_pdf_files ["/in/a.pdf"; "/in/a.pdf"; "/in/b.pdf"]
              SampleApp.two_files))
  /\ App.in_step
       (App.add_pdf_files ["/in/a.pdf"; "/in/a.pdf"; "/in/b.pdf"]
          SampleApp.two_files).
Proof.
  destruct (X11_adding_files ["/in/a.pdf"; "/in/a.pdf"; "/in/b.pdf"]
              SampleApp.two_files)
    as (added & _ & _ & _ & _ & _ & Hnd & Hstep & _).
  split.
  - apply Hnd. apply (bool_decide_unpack _). vm_compute. exact I.
  - apply Hstep. reflexivity.
Defined.

(** ** Moving a file up or down *)

Lemma valid_index (k n : nat) :
  (k < n)%nat ->
  (Z.of_nat k <? 0) = false
  /\ ((0 <=? Z.of_nat k) && (Z.of_nat k <? Z.of_nat n)) = true.
Proof. intros ?. split; [lia|]. apply andb_true_iff. lia. Qed.

Lemma getitem_valid {A} (l : list A) (k : nat) x :
  l !! k = Some x -> getitem l (Z.of_nat k) = Ok x.
Proof.
  intros Hx. pose proof (lookup_lt_Some _ _ _ Hx) as Hlt.
  destruct (valid_index _ _ Hlt) as [H0 H1]. unfold getitem.
  by rewrite H0, H1, Nat2Z.id, Hx.
Qed.

Lemma setitem_valid {A} (l : list A) (k : nat) x :
  (k < length l)%nat -> PyList.setitem l (Z.of_nat k) x = Ok (<[k := x]> l).
Proof.
  intros Hlt. destruct (valid_index _ _ Hlt) as [H0 H1].
  unfold PyList.setitem. by rewrite H0, H1, Nat2Z.id.
Qed.

Lemma pop_valid {A} (l : list A) (k : nat) x :
  l !! k = Some x -> PyList.pop l (Z.of_nat k) = Ok (x, delete k l).
Proof.
  intros Hx. pose proof (lookup_lt_Some _ _ _ Hx) as Hlt.
  destruct (valid_index _ _ Hlt) as [H0 H1]. unfold PyList.pop.
  by rewrite H0, H1, Nat2Z.id, Hx.
Qed.

Lemma takeItem_valid items (k : nat) x :
  items !! k = Some x ->
  QListWidget.takeItem (Z.of_nat k) items = (Some x, delete k items).
Proof.
  intros Hx. pose proof (lookup_lt_Some _ _ _ Hx) as Hlt.
  destruct (valid_index _ _ Hlt) as [H0 H1]. unfold QListWidget.takeItem.
  by rewrite H1, Nat2Z.id, Hx.
Qed.

Lemma insertItem_valid items (k : nat) text :
  (k <= length items)%nat ->
  QListWidget.insertItem (Z.of_nat k) (Some text) items
  = (take k items ++ text :: drop k items)%list.
Proof.
  intros Hle. unfold QListWidget.insertItem.
  by replace (Z.to_nat (Z.max 0 (Z.min (Z.of_nat k)
                                   (Z.of_nat (length items))))) with k by lia.
Qed.

Lemma swap_adjacent {A : Type} (pre post : list A) (a b : A) :
  <[length pre := b]> (<[S (length pre) := a]> (pre ++ a :: b :: post)%list)
  = (pre ++ b :: a :: post)%list
  /\ <[S (length pre) := a]> (<[length pre := b]> (pre ++ a :: b :: post)%list)
     = (pre ++ b :: a :: post)%list.
Proof.
  pose proof (insert_app_r pre (a :: b :: post) 1) as H1.
  pose proof (insert_app_r pre (a :: b :: post) 0) as H0.
  pose proof (insert_app_r pre (a :: a :: post) 0) as H0'.
  pose proof (insert_app_r pre (b :: b :: post) 1) as H1'.
  rewrite Nat.add_0_r in H0, H0'. rewrite Nat.add_1_r in H1, H1'.
  by rewrite H1, H0, H0', H1'.
Qed.

Lemma swap_items_adjacent (pre post : list string) (a b : string) :
  let r := Z.of_nat (length pre) in
  App.swap_items (pre ++ a :: b :: post)%list (r + 1) (r + 1 - 1)
  = Ok (pre ++ b :: a :: post)%list
  /\ App.swap_items (pre ++ a :: b :: post)%list r (r + 1)
     = Ok (pre ++ b :: a :: post)%list.
Proof.
  intros r. unfold r.
  replace (Z.of_nat (length pre) + 1 - 1) with (Z.of_nat (length pre)) by lia.
  replace (Z.of_nat (length pre) + 1) with (Z.of_nat (S (length pre))) by lia.
  assert (Ha : (pre ++ a :: b :: post)%list !! length pre = Some a)
    by (by apply list_lookup_middle).
  assert (Hb : (pre ++ a :: b :: post)%list !! S (length pre) = Some b).
  { replace (pre ++ a :: b :: post)%list with ((pre ++ [a]) ++ b :: post)%list
      by (by rewrite <- app_assoc).
    apply list_lookup_middle. rewrite length_app. cbn. lia. }
  destruct (swap_adjacent pre post a b) as [H1 H2].
  unfold App.swap_items.
  rewrite (getitem_valid _ _ _ Ha), (getitem_valid _ _ _ Hb). cbn.
  rewrite !setitem_valid
    by (rewrite ?length_insert, length_app; cbn; lia).
  cbn. rewrite !setitem_valid
    by (rewrite ?length_insert, length_app; cbn; lia).
  by rewrite H1, H2.
Qed.

Lemma move_items_adjacent (pre post : list string) (a b : string) :
  let r := Z.of_nat (length pre) in
  let items := (pre ++ a :: b :: post)%list in
  QListWidget.insertItem (r + 1 - 1)
    (fst (QListWidget.takeItem (r + 1) items))
    (snd (QListWidget.takeItem (r + 1) items))
  = (pre ++ b :: a :: post)%list
  /\ QListWidget.insertItem (r + 1)
       (fst (QListWidget.takeItem r items))
       (snd (QListWidget.takeItem r items))
     = (pre ++ b :: a :: post)%list.
Proof.
  intros r items. unfold r, items.
  replace (Z.of_nat (length pre) + 1 - 1) with (Z.of_nat (length pre)) by lia.
  replace (Z.of_nat (length pre) + 1) with (Z.of_nat (S (length pre))) by lia.
  assert (Ha : (pre ++ a :: b :: post)%list !! length pre = Some a)
    by (by apply list_lookup_middle).
  assert (Hb : (pre ++ a :: b :: post)%list !! S (length pre) = Some b).
  { replace (pre ++ a :: b :: post)%list with ((pre ++ [a]) ++ b :: post)%list
      by (by rewrite <- app_assoc).
    apply list_lookup_middle. rewrite length_app. cbn. lia. }
  rewrite (takeItem_valid _ _ _ Ha), (takeItem_valid _ _ _ Hb). cbn [fst snd].
  rewrite delete_middle.
  replace (delete (S (length pre)) (pre ++ a :: b :: post)%list)
    with (pre ++ a :: post)%list.
  2:{ replace (pre ++ a :: b :: post)%list
        with ((pre ++ [a]) ++ b :: post)%list by (by rewrite <- app_assoc).
      replace (S (length pre)) with (length (pre ++ [a])%list)
        by (rewrite length_app; cbn; lia).
      by rewrite delete_middle, <- app_assoc. }
  rewrite !insertItem_valid by (rewrite length_app; cbn; lia).
  rewrite take_app_length, drop_app_length. split; [done|].
  replace (pre ++ b :: post)%list with ((pre ++ [b]) ++ post)%list
    by (by rewrite <- app_assoc).
  replace (S (length pre)) with (length (pre ++ [b])%list)
    by (rewrite length_app; cbn; lia).
  by rewrite take_app_length, drop_app_length, <- app_assoc.
Qed.

Lemma move_adjacent (st : App.t) (pre post : list string) (a b : string) :
  App.pdf_files st = (pre ++ a :: b :: post)%list ->
  App.in_step st ->
  let r := Z.of_nat (length pre) in
  let st' := App.set_files (pre ++ b :: a :: post)%list
               (App.set_items
                  ((PyStr.basename <$> pre) ++ PyStr.basename b
                     :: PyStr.basename a
                     :: (PyStr.basename <$> post))%list st) in
  App.move_file_up (r + 1) st = Ok st'
  /\ App.move_file_down r st = Ok st'.
Proof.
  intros Hf Hs r.
  assert (Hr : r = Z.of_nat (length (PyStr.basename <$> pre)))
    by (by rewrite length_fmap).
  assert (Hi : App.file_list st
               = ((PyStr.basename <$> pre) ++ PyStr.basename a
                    :: PyStr.basename b :: (PyStr.basename <$> post))%list).
  { by rewrite Hs, Hf, fmap_app. }
  destruct (swap_items_adjacent pre post a b) as [Hs1 Hs2].
  destruct (move_items_adjacent (PyStr.basename <$> pre)
              (PyStr.basename <$> post) (PyStr.basename a)
              (PyStr.basename b)) as [Hm1 Hm2].
  cbv zeta in Hs1, Hs2, Hm1, Hm2. rewrite <- Hr in Hm1, Hm2.
  fold r in Hs1, Hs2.
  unfold App.move_file_up, App.move_file_down.
  rewrite Hi, Hf, Hm1, Hm2, Hs1, Hs2.
  replace (0 <? r + 1) with true
    by (symmetry; apply Z.ltb_lt; unfold r; lia).
  replace (r <? _) with true.
  2:{ rewrite length_app. cbn. unfold r. rewrite length_fmap.
      symmetry. apply Z.ltb_lt. lia. }
  done.
Qed.

Lemma move_adjacent_in_step (st : App.t) (pre post : list string)
    (a b : string) :
  App.in_step
    (App.set_files (pre ++ b :: a :: post)%list
       (App.set_items
          ((PyStr.basename <$> pre) ++ PyStr.basename b
             :: PyStr.basename a :: (PyStr.basename <$> post))%list st)).
Proof. unfold App.in_step. cbn. by rewrite fmap_app. Qed.

(** X12: on a window whose widget is in step, moving the file of a row
    up exchanges it with the file before it, in [pdf_files] and in the
    widget; moving the file before it down gives the same window; and
    each of the two moves undoes the other. *)
Theorem X12_moving_a_file (st : App.t) (pre post : list string)
    (a b : string) :
  App.pdf_files st = (pre ++ a :: b :: post)%list ->
  App.in_step st ->
  let r := Z.of_nat (length pre) in
  exists st',
    App.move_file_up (r + 1) st = Ok st'
    /\ App.move_file_down r st = Ok st'
    /\ App.pdf_files st' = (pre ++ b :: a :: post)%list
    /\ App.in_step st'
    /\ App.status_label st' = App.status_label st
    /\ App.move_file_down r st' = Ok st
    /\ App.move_file_up (r + 1) st' = Ok st.
Proof.
  intros Hfiles Hstep r.
  destruct (move_adjacent st pre post a b Hfiles Hstep) as [Hup Hdown].
  eexists. split; [exact Hup|]. split; [exact Hdown|].
  split; [done|]. split; [apply move_adjacent_in_step|]. split; [done|].
  match goal with |- App.move_file_down r ?s = _ /\ _ =>
    destruct (move_adjacent s pre post b a) as [Hup' Hdown'];
      [done|apply move_adjacent_in_step|]
  end.
  fold r in Hup', Hdown'. rewrite Hup', Hdown'.
  assert (Hitems : App.file_list st
                   = ((PyStr.basename <$> pre) ++ PyStr.basename a
                        :: PyStr.basename b :: (PyStr.basename <$> post))%list).
  { by rewrite Hstep, Hfiles, fmap_app. }
  rewrite <- Hfiles, <- Hitems. by destruct st.
Qed.

Lemma X12_moving_a_file_witness :
  exists st',
    App.move_file_up 2 SampleApp.three_files = Ok st'
    /\ App.move_file_down 1 SampleApp.three_files = Ok st'
    /\ App.pdf_files st' = ["/in/a.pdf"; "/in/c.pdf"; "/in/b.pdf"]
    /\ App.in_step st'
    /\ App.status_label st' = "Ready"
    /\ App.move_file_down 1 st' = Ok SampleApp.three_files
    /\ App.move_file_up 2 st' = Ok SampleApp.three_files.
Proof.
  exact (X12_moving_a_file SampleApp.three_files ["/in/a.pdf"] []
           "/in/b.pdf" "/in/c.pdf" eq_refl eq_refl).
Defined.

(** ** Removing the selected files *)

Lemma unselected_none {A} (rows : list Z) (first : Z) (l : list A) :
  Forall (fun r => r < first) rows -> App.unselected rows first l = l.
Proof.
  revert first. induction l as [|x l IH]; intros first Hrows; [done|].
  cbn. rewrite bool_decide_eq_false_2.
  - f_equal. apply IH. eapply Forall_impl; [done|]. cbn. lia.
  - intros Hin. rewrite Forall_forall in Hrows. specialize (Hrows _ Hin). lia.
Qed.

Lemma unselected_delete {A} (rows : list Z) (first : Z) (k : nat)
    (l : list A) :
  Forall (fun r => r < first + Z.of_nat k) rows ->
  (k < length l)%nat ->
  App.unselected rows first (delete k l)
  = App.unselected ((first + Z.of_nat k) :: rows) first l.
Proof.
  revert first k. induction l as [|x l IH]; intros first k Hrows Hk;
    [cbn in Hk; lia|].
  destruct k as [|k].
  - change (delete 0%nat (x :: l)) with l. cbn [App.unselected].
    rewrite Z.add_0_r in *.
    rewrite (bool_decide_eq_true_2 (first ∈ first :: rows))
      by apply list_elem_of_here.
    rewrite !unselected_none; [done| |done].
    constructor; [lia|]. eapply Forall_impl; [done|]. cbn. lia.
  - change (delete (S k) (x :: l)) with (x :: delete k l).
    cbn [App.unselected].
    rewrite (IH (first + 1) k) by
      (cbn in Hk; first [lia | eapply Forall_impl; [done|]; cbn; lia]).
    replace (first + 1 + Z.of_nat k) with (first + Z.of_nat (S k)) by lia.
    assert (Hiff : first ∈ (first + Z.of_nat (S k)) :: rows <-> first ∈ rows).
    { rewrite elem_of_cons. split; [intros [?|?]; [lia|done]|by right]. }
    destruct (decide (first ∈ rows)) as [Hin|Hin].
    + by rewrite !bool_decide_eq_true_2 by (by rewrite ?Hiff).
    + by rewrite !bool_decide_eq_false_2 by (by rewrite ?Hiff).
Qed.

Lemma unselected_ext {A} (rows1 rows2 : list Z) (first : Z) (l : list A) :
  (forall r, r ∈ rows1 <-> r ∈ rows2) ->
  App.unselected rows1 first l = App.unselected rows2 first l.
Proof.
  intros Hrows. revert first. induction l as [|x l IH]; intros first; [done|].
  cbn. rewrite IH.
  destruct (decide (first ∈ rows1)) as [Hin|Hin].
  - by rewrite !bool_decide_eq_true_2 by (by rewrite <- ?Hrows).
  - by rewrite !bool_decide_eq_false_2 by (by rewrite <- ?Hrows).
Qed.

Lemma unselected_fmap {A B} (f : A -> B) (rows : list Z) (first : Z)
    (l : list A) :
  App.unselected rows first (f <$> l) = f <$> App.unselected rows first l.
Proof.
  revert first. induction l as [|x l IH]; intros first; [done|].
  cbn. rewrite IH. by destruct (bool_decide _).
Qed.

Lemma StronglySorted_reverse {A} (R : relation A) (l : list A) :
  StronglySorted R l -> StronglySorted (flip R) (reverse l).
Proof.
  induction 1 as [|x l Hl IH Hx]; [constructor|].
  rewrite reverse_cons. apply StronglySorted_app_2; [|done|].
  - intros a b Ha Hb%list_elem_of_singleton. subst b.
    rewrite elem_of_reverse in Ha. rewrite Forall_forall in Hx.
    unfold flip. by apply Hx.
  - repeat constructor.
Qed.

(** The loop of [remove_selected_files] over rows in descending order. *)
Lemma remove_loop (rows : list Z) : forall (st : App.t),
  StronglySorted (flip Z.lt) rows ->
  Forall (fun r => 0 <= r < Z.of_nat (length (App.pdf_files st))) rows ->
  length (App.file_list st) = length (App.pdf_files st) ->
  for_each
    (fun st row =>
       let items := snd (QListWidget.takeItem row (App.file_list st)) in
       popped <- PyList.pop (App.pdf_files st) row ;;
       Ok (App.set_files (snd popped) (App.set_items items st)))
    st rows
  = Ok (App.set_files (App.unselected rows 0 (App.pdf_files st))
          (App.set_items (App.unselected rows 0 (App.file_list st)) st)).
Proof.
  induction rows as [|row rows IH]; intros st Hsorted Hvalid Hlen.
  - cbn. rewrite !unselected_none by constructor. by destruct st.
  - apply StronglySorted_inv in Hsorted as [Hsorted Hrow].
    apply Forall_cons in Hvalid as [Hr Hvalid].
    cbn [for_each].
    destruct (Z_of_nat_complete row) as [k ->]; [lia|].
    destruct (lookup_lt_is_Some_2 (App.pdf_files st) k) as [p Hp]; [lia|].
    destruct (lookup_lt_is_Some_2 (App.file_list st) k) as [t Ht]; [lia|].
    rewrite (pop_valid _ _ _ Hp), (takeItem_valid _ _ _ Ht).
    cbn [rbind snd].
    assert (Hbelow : Forall (fun r => r < 0 + Z.of_nat k) rows).
    { eapply Forall_impl; [exact Hrow|]. cbn. unfold flip. lia. }
    rewrite IH; cbn [App.set_files App.set_items App.pdf_files
                       App.file_list]; try done.
    + rewrite !unselected_delete by (first [done | lia]).
      by rewrite Z.add_0_l.
    + rewrite Forall_forall in Hvalid, Hrow |- *. intros r Hin.
      specialize (Hvalid r Hin). specialize (Hrow r Hin). unfold flip in Hrow.
      rewrite length_delete by (by eexists). lia.
    + by rewrite !length_delete, Hlen by (by eexists).
Qed.

Lemma unselected_length_sorted {A} (rows : list Z) : forall (l : list A),
  StronglySorted (flip Z.lt) rows ->
  Forall (fun r => 0 <= r < Z.of_nat (length l)) rows ->
  length (App.unselected rows 0 l) = (length l - length rows)%nat.
Proof.
  induction rows as [|row rows IH]; intros l Hsorted Hvalid.
  - rewrite unselected_none by constructor. cbn. lia.
  - apply StronglySorted_inv in Hsorted as [Hsorted Hrow].
    apply Forall_cons in Hvalid as [Hr Hvalid].
    destruct (Z_of_nat_complete row) as [k ->]; [lia|].
    rewrite <- (Z.add_0_l (Z.of_nat k)).
    rewrite <- unselected_delete; [|by rewrite Z.add_0_l|lia].
    rewrite IH; [|done|].
    + rewrite length_delete by (apply lookup_lt_is_Some_2; lia). cbn. lia.
    + rewrite Forall_forall in Hvalid, Hrow |- *. intros r Hin.
      specialize (Hvalid r Hin). specialize (Hrow r Hin). unfold flip in Hrow.
      rewrite length_delete by (apply lookup_lt_is_Some_2; lia). lia.
Qed.

Lemma unselected_length_NoDup {A} (rows : list Z) (l : list A) :
  NoDup rows ->
  Forall (fun r => 0 <= r < Z.of_nat (length l)) rows ->
  length (App.unselected rows 0 l) = (length l - length rows)%nat.
Proof.
  intros Hnd Hvalid.
  set (sorted_rows := reverse (merge_sort Z.le rows)).
  assert (Hperm : sorted_rows ≡ₚ rows).
  { unfold sorted_rows.
    by rewrite reverse_Permutation, merge_sort_Permutation. }
  rewrite <- (unselected_ext sorted_rows rows)
    by (intros r; by rewrite Hperm).
  rewrite unselected_length_sorted.
  - by rewrite Hperm.
  - apply StronglySorted_reverse, StronglySorted_le_lt.
    + apply StronglySorted_merge_sort; apply _.
    + by rewrite merge_sort_Permutation.
  - by rewrite Hperm.
Qed.

Lemma remove_selected_files_ok (selected_rows : list Z) (st : App.t) :
  NoDup selected_rows ->
  Forall (fun r => 0 <= r < Z.of_nat (length (App.pdf_files st)))
    selected_rows ->
  length (App.file_list st) = length (App.pdf_files st) ->
  App.remove_selected_files selected_rows st
  = Ok (App.set_status
          (App.selected_status
             (App.set_files
                (App.unselected selected_rows 0 (App.pdf_files st)) st))
          (App.set_files
             (App.unselected selected_rows 0 (App.pdf_files st))
             (App.set_items
                (App.unselected selected_rows 0 (App.file_list st)) st))).
Proof.
  intros Hnd Hvalid Hlen.
  set (rows := reverse (merge_sort Z.le selected_rows)).
  assert (Hperm : rows ≡ₚ selected_rows).
  { unfold rows. by rewrite reverse_Permutation, merge_sort_Permutation. }
  assert (Hsorted : StronglySorted (flip Z.lt) rows).
  { apply StronglySorted_reverse, StronglySorted_le_lt.
    - apply StronglySorted_merge_sort; apply _.
    - by rewrite merge_sort_Permutation. }
  assert (Hvalid' : Forall (fun r =>
                       0 <= r < Z.of_nat (length (App.pdf_files st))) rows)
    by (by rewrite Hperm).
  assert (Hsame : forall r, r ∈ rows <-> r ∈ selected_rows)
    by (intros r; by rewrite Hperm).
  unfold App.remove_selected_files. fold rows.
  pose proof (remove_loop rows st Hsorted Hvalid' Hlen) as Hloop.
  cbv zeta in Hloop. rewrite Hloop. cbn [rbind].
  by rewrite !(unselected_ext rows selected_rows) by done.
Qed.

(** X13: for distinct rows of the widget, selected in any order,
    [remove_selected_files] takes exactly the files of these rows out of
    [pdf_files], and their items out of the widget; the other files keep
    their order, a widget in step stays in step, and the status gives
    the number of files left. *)
Theorem X13_removing_the_selected_files (selected_rows : list Z)
    (st : App.t) :
  NoDup selected_rows ->
  Forall (fun r => 0 <= r < Z.of_nat (length (App.pdf_files st)))
    selected_rows ->
  App.in_step st ->
  exists st',
    App.remove_selected_files selected_rows st = Ok st'
    /\ App.pdf_files st' = App.unselected selected_rows 0 (App.pdf_files st)
    /\ App.in_step st'
    /\ length (App.pdf_files st')
       = (length (App.pdf_files st) - length selected_rows)%nat
    /\ App.status_label st'
       = py_str (Z.of_nat (length (App.pdf_files st')))
           ++ " PDFs selected".
Proof.
  intros Hnd Hvalid Hstep.
  assert (Hlen : length (App.file_list st) = length (App.pdf_files st))
    by (by rewrite Hstep, length_fmap).
  rewrite (remove_selected_files_ok selected_rows st Hnd Hvalid Hlen).
  eexists. split; [reflexivity|].
  cbn [App.set_status App.set_files App.set_items App.pdf_files
         App.file_list App.status_label].
  split_and!; try done.
  - unfold App.in_step. cbn. by rewrite Hstep, unselected_fmap.
  - by apply unselected_length_NoDup.
Qed.

Lemma X13_removing_the_selected_files_witness :
  exists st',
    App.remove_selected_files [2; 0] SampleApp.three_files = Ok st'
    /\ App.pdf_files st' = ["/in/b.pdf"]
    /\ App.in_step st'
    /\ length (App.pdf_files st') = 1%nat
    /\ App.status_label st' = "1 PDFs selected".
Proof.
  assert (Hnd : NoDup [2; 0]).
  { apply (bool_decide_unpack _). vm_compute. exact I. }
  assert (Hvalid : Forall (fun r => 0 <= r
                      < Z.of_nat (length (App.pdf_files SampleApp.three_files)))
                     [2; 0]).
  { repeat constructor; cbn; lia. }
  destruct (X13_removing_the_selected_files [2; 0] SampleApp.three_files
              Hnd Hvalid eq_refl) as (st' & H1 & H2 & H3 & H4 & H5).
  exists st'. split; [exact H1|]. split; [exact H2|]. split; [exact H3|].
  split; [by rewrite H4|]. by rewrite H5, H2.
Defined.

(** ** Starting the merge *)

Lemma rev_app_append s t acc :
  PyStr.rev_app (s ++ t) acc = PyStr.rev_app t (PyStr.rev_app s acc).
Proof.
  revert acc. induction s as [|c s IH]; intros acc; simpl; [done|].
  by rewrite IH.
Qed.

Lemma rev_app_acc s acc : PyStr.rev_app s acc = PyStr.rev s ++ acc.
Proof.
  unfold PyStr.rev. revert acc. induction s as [|c s IH]; intros acc; [done|].
  simpl. rewrite IH, (IH (String c "")), str_app_assoc. done.
Qed.

Lemma rev_append s t : PyStr.rev (s ++ t) = PyStr.rev t ++ PyStr.rev s.
Proof.
  unfold PyStr.rev at 1. by rewrite rev_app_append, rev_app_acc.
Qed.

Lemma prefix_append a b :
  String.prefix a b = true <-> exists c, b = a ++ c.
Proof.
  revert b. induction a as [|x a IH]; intros b.
  - split; [by exists b|by destruct b].
  - destruct b as [|y b]; simpl.
    + split; [done|by intros [c ?]].
    + destruct (ascii_dec x y) as [->|Hne].
      * rewrite IH. split; intros [c Hc]; exists c; congruence.
      * split; [done|]. intros [c Hc]. congruence.
Qed.

(** [endswith] holds of the strings that are the suffix after some
    prefix. *)
Lemma endswith_spec suffix s :
  App.endswith suffix s = true <-> exists stem, s = stem ++ suffix.
Proof.
  unfold App.endswith. rewrite prefix_append. split.
  - intros [c Hc]. exists (PyStr.rev c).
    by rewrite <- (rev_rev s), Hc, rev_append, rev_rev.
  - intros [stem ->]. exists (PyStr.rev stem). apply rev_append.
Qed.

Lemma lower_append s t : PyStr.lower (s ++ t) = PyStr.lower s ++ PyStr.lower t.
Proof. induction s as [|c s IH]; [done|]. simpl. by rewrite IH. Qed.

Lemma lower_split s a b :
  PyStr.lower s = a ++ b ->
  exists s1 s2, s = s1 ++ s2 /\ PyStr.lower s1 = a /\ PyStr.lower s2 = b.
Proof.
  revert s. induction a as [|x a IH]; intros s Hs.
  - by exists "", s.
  - destruct s as [|c s]; [done|]. simpl in Hs. injection Hs as Hx Hs.
    destruct (IH s Hs) as (s1 & s2 & -> & H1 & H2).
    exists (String c s1), s2. simpl. by rewrite Hx, H1.
Qed.

Lemma update_nonempty (st : App.t) :
  App.pdf_files st <> [] ->
  App.pdf_files (App.update_pdf_files_from_list st) <> [].
Proof.
  intros Hne. unfold App.update_pdf_files_from_list.
  destruct (_ =? _)%nat eqn:Hlen; [|done]. cbn.
  apply Nat.eqb_eq in Hlen. intros Hnil. rewrite Hnil in Hlen.
  by destruct (App.pdf_files st).
Qed.

(** X14: a worker that [merge_pdfs] starts is given the files of the
    window, of which there is at least one, the selections of the page
    dialog, and an output name that ends in ".pdf" in some letter case:
    the name chosen, or that name followed by ".pdf".  It is started
    only when the page dialog was accepted, the order confirmed and an
    output name chosen. *)
Theorem X14_worker_of_a_merge (page_selections0 : option (gmap string string))
    (confirm : bool) (out : string) (st st' : App.t)
    (w : PdfMergerThread) :
  App.merge_pdfs page_selections0 confirm out st = (st', Some w) ->
  pdf_files w = App.pdf_files st'
  /\ pdf_files w <> []
  /\ (exists stem ext,
        output_file w = stem ++ ext /\ PyStr.lower ext = ".pdf")
  /\ (output_file w = out
      \/ output_file w = out ++ ".pdf"
         /\ forall stem ext, out = stem ++ ext -> PyStr.lower ext <> ".pdf")
  /\ page_selections0 = Some (page_selections w)
  /\ confirm = true
  /\ out <> ""
  /\ App.status_label st' = "Merging PDFs...".
Proof.
  unfold App.merge_pdfs. intros Hm.
  destruct (App.pdf_files st) as [|f files] eqn:Hfiles; [done|].
  set (st1 := if App.drag_enabled st then App.update_pdf_files_from_list st
              else st) in Hm.
  assert (Hne : App.pdf_files st1 <> []).
  { unfold st1. destruct (App.drag_enabled st).
    - apply update_nonempty. by rewrite Hfiles.
    - by rewrite Hfiles. }
  destruct page_selections0 as [sel|]; [|done].
  destruct confirm; [|done]. cbn [negb] in Hm.
  destruct (PyStr.nonempty out) eqn:Hout; [|done]. cbn [negb] in Hm.
  destruct (App.endswith ".pdf" (PyStr.lower out)) eqn:He; cbn [negb] in Hm;
    injection Hm as <- <-;
    cbn [pdf_files output_file page_selections new_merge_thread default
           from_option id App.status_label App.set_status App.pdf_files];
    (split_and!; try done; try (by destruct out)).
  - apply endswith_spec in He as [pre Hpre].
    apply lower_split in Hpre as (stem & ext & Hs & _ & Hext).
    by exists stem, ext.
  - by left.
  - by exists out, ".pdf".
  - right. split; [done|]. intros stem ext Hs Hext.
    assert (App.endswith ".pdf" (PyStr.lower out) = true); [|congruence].
    apply endswith_spec. exists (PyStr.lower stem).
    by rewrite Hs, lower_append, Hext.
Qed.

Lemma X14_worker_of_a_merge_witness :
  let w := new_merge_thread (App.pdf_files SampleApp.two_files) "out.pdf"
             (Some ∅) in
  App.merge_pdfs (Some ∅) true "out" SampleApp.two_files
  = (App.set_status "Merging PDFs..." SampleApp.two_files, Some w)
  /\ (exists stem ext,
        output_file w = stem ++ ext /\ PyStr.lower ext = ".pdf").
Proof.
  assert (Hm : App.merge_pdfs (Some ∅) true "out" SampleApp.two_files
               = (App.set_status "Merging PDFs..." SampleApp.two_files,
                  Some (new_merge_thread (App.pdf_files SampleApp.two_files)
                          "out.pdf" (Some ∅)))) by reflexivity.
  split; [exact Hm|].
  apply (X14_worker_of_a_merge _ _ _ _ _ _ Hm).
Defined.

(** ** The page dialog and the worker *)

Section DialogFacts.

Variable lim : nat.
Context {Page : Type}.
Variable E : env Page.

Lemma add_file_entry_read_ok pdf_file (d : Dialog.t) :
  read_ok E pdf_file ->
  Dialog.add_file_entry E pdf_file d
  = {| Dialog.pdf_files := Dialog.pdf_files d;
       Dialog.page_selections :=
         <[pdf_file := "-1"]> (Dialog.page_selections d) |}.
Proof. intros [pages Hr]. unfold Dialog.add_file_entry. by rewrite Hr. Qed.

Lemma add_file_entry_cases pdf_file (d : Dialog.t) :
  read_ok E pdf_file \/ Dialog.add_file_entry E pdf_file d = d.
Proof.
  unfold Dialog.add_file_entry, read_ok.
  destruct (PdfReader E pdf_file) as [[[pages|e]]|e]; cbn; eauto.
Qed.

Lemma dialog_fields_1 files : forall (d : Dialog.t) pdf_file,
  Dialog.page_selections d !! pdf_file = Some "-1"
  \/ pdf_file ∈ files /\ read_ok E pdf_file ->
  Dialog.page_selections
    (foldl (fun d pdf_file => Dialog.add_file_entry E pdf_file d) d files)
  !! pdf_file = Some "-1".
Proof.
  induction files as [|f files IH]; intros d pdf_file H; cbn [foldl].
  - destruct H as [?|[?%elem_of_nil _]]; done.
  - apply IH. destruct H as [Hd|[[-> |Hin]%elem_of_cons Hr]].
    + left. destruct (add_file_entry_cases f d) as [Hf| ->]; [|done].
      rewrite (add_file_entry_read_ok _ _ Hf). cbn.
      destruct (decide (f = pdf_file)) as [->|Hne];
        [by rewrite lookup_insert_eq|by rewrite lookup_insert_ne].
    + left. rewrite (add_file_entry_read_ok _ _ Hr). cbn.
      by rewrite lookup_insert_eq.
    + by right.
Qed.

Lemma dialog_fields_2 files : forall (d : Dialog.t) pdf_file s,
  Dialog.page_selections
    (foldl (fun d pdf_file => Dialog.add_file_entry E pdf_file d) d files)
  !! pdf_file = Some s ->
  Dialog.page_selections d !! pdf_file = Some s
  \/ pdf_file ∈ files /\ read_ok E pdf_file /\ s = "-1".
Proof.
  induction files as [|f files IH]; intros d pdf_file s H; cbn [foldl] in H;
    [by left|].
  apply IH in H as [H|(Hin & Hr & ->)].
  - destruct (add_file_entry_cases f d) as [Hf|Hd].
    + rewrite (add_file_entry_read_ok _ _ Hf) in H. cbn in H.
      destruct (decide (f = pdf_file)) as [->|Hne].
      * rewrite lookup_insert_eq in H. injection H as <-. right.
        split; [apply list_elem_of_here|done].
      * rewrite lookup_insert_ne in H by done. by left.
    + rewrite Hd in H. by left.
  - right. split; [by apply list_elem_of_further|done].
Qed.

(** X15: the dialog opens with one field for each file that can be
    read, holding "-1", and with no field for the others.  A worker
    that is given the selections of the dialog as it opens therefore
    takes "-1" for every file, with or without a field, and adds all
    pages but the first of each document it reads. *)
Theorem X15_dialog_as_it_opens (files : list string) (out : string) :
  let selections := Dialog.get_selections (Dialog.init E files) in
  let self := new_merge_thread files out (Some selections) in
  (forall pdf_file,
     pdf_file ∈ files -> read_ok E pdf_file ->
     selections !! pdf_file = Some "-1")
  /\ (forall pdf_file s,
        selections !! pdf_file = Some s ->
        s = "-1" /\ pdf_file ∈ files /\ read_ok E pdf_file)
  /\ (forall pdf_file, selection_of self pdf_file = "-1")
  /\ (forall pdf_file pages,
        PdfReader E pdf_file = Ok (Reader (Ok pages)) ->
        selected_pages lim E self pdf_file = drop 1 pages).
Proof.
  intros selections self.
  assert (H1 : forall pdf_file,
            pdf_file ∈ files -> read_ok E pdf_file ->
            selections !! pdf_file = Some "-1").
  { intros pdf_file Hin Hr. apply dialog_fields_1. by right. }
  assert (H2 : forall pdf_file s,
            selections !! pdf_file = Some s ->
            s = "-1" /\ pdf_file ∈ files /\ read_ok E pdf_file).
  { intros pdf_file s Hs. apply dialog_fields_2 in Hs as [Hs|(?&?&?)]; [|done].
    cbn in Hs. by rewrite lookup_empty in Hs. }
  assert (H3 : forall pdf_file, selection_of self pdf_file = "-1").
  { intros pdf_file. unfold selection_of.
    change (page_selections self) with selections.
    destruct (selections !! pdf_file) as [s|] eqn:Hs; [|done].
    by apply H2 in Hs as [-> _]. }
  split_and!; try done.
  intros pdf_file pages Hr.
  rewrite (selected_pages_of_indices lim E self pdf_file pages
             (py_range 1 (Z.of_nat (length pages)))); [|done|].
  - destruct pages as [|p pages]; [done|].
    apply (lookup_range_drop (p :: pages) 1). simpl. lia.
  - rewrite H3. apply parse_exclude_first.
Qed.

(** X16: "Apply to All" puts the text of the default into every field
    and makes no field.  With the default left blank, or set to "all" in
    any letter case, the worker adds every page of each document that
    has a field. *)
Theorem X16_apply_to_all (default_value : string) (d : Dialog.t)
    (files : list string) (out : string) :
  let selections :=
    Dialog.get_selections (Dialog.apply_default_to_all default_value d) in
  let self := new_merge_thread files out (Some selections) in
  (forall pdf_file,
     is_Some (selections !! pdf_file)
     <-> is_Some (Dialog.get_selections d !! pdf_file))
  /\ (forall pdf_file s,
        selections !! pdf_file = Some s -> s = default_value)
  /\ (forall pdf_file pages,
        is_Some (Dialog.get_selections d !! pdf_file) ->
        default_value = "" \/ PyStr.lower default_value = "all" ->
        PdfReader E pdf_file = Ok (Reader (Ok pages)) ->
        selected_pages lim E self pdf_file = pages).
Proof.
  intros selections self.
  assert (Hl : forall pdf_file,
            selections !! pdf_file
            = (fun _ => default_value) <$> Dialog.get_selections d !! pdf_file).
  { intros pdf_file. unfold selections, Dialog.get_selections,
      Dialog.apply_default_to_all. cbn. apply lookup_fmap. }
  split_and!.
  - intros pdf_file. rewrite Hl. apply fmap_is_Some.
  - intros pdf_file s. rewrite Hl.
    destruct (Dialog.get_selections d !! pdf_file); cbn; congruence.
  - intros pdf_file pages [s0 Hs0] Hs Hr.
    rewrite (selected_pages_of_indices lim E self pdf_file pages
               (py_range 0 (Z.of_nat (length pages)))); [|done|].
    + apply (lookup_range_drop pages 0). lia.
    + unfold selection_of. change (page_selections self) with selections.
      rewrite Hl, Hs0. cbn. apply parse_early_exit.
      destruct Hs as [-> | Hlow]; [done|]. rewrite Hlow. apply orb_true_r.
Qed.

End DialogFacts.

Lemma X15_dialog_as_it_opens_witness :
  Dialog.get_selections (Dialog.init Sample.library ["a.pdf"; "broken.pdf"])
    !! "a.pdf" = Some "-1"
  /\ selected_pages 4300 Sample.library
       (new_merge_thread ["a.pdf"; "broken.pdf"] "out.pdf"
          (Some (Dialog.get_selections
                   (Dialog.init Sample.library ["a.pdf"; "broken.pdf"]))))
       "a.pdf"
     = drop 1 Sample.three_pages.
Proof.
  destruct (X15_dialog_as_it_opens 4300 Sample.library
              ["a.pdf"; "broken.pdf"] "out.pdf") as (H1 & _ & _ & H4).
  split.
  - apply H1; [apply list_elem_of_here|]. by exists Sample.three_pages.
  - apply H4. reflexivity.
Defined.

Lemma X16_apply_to_all_witness :
  selected_pages 4300 Sample.library
    (new_merge_thread ["a.pdf"] "out.pdf"
       (Some (Dialog.get_selections
                (Dialog.apply_default_to_all "ALL"
                   (Dialog.init Sample.library ["a.pdf"])))))
    "a.pdf"
  = Sample.three_pages.
Proof.
  destruct (X16_apply_to_all 4300 Sample.library "ALL"
              (Dialog.init Sample.library ["a.pdf"]) ["a.pdf"] "out.pdf")
    as (_ & _ & H3).
  apply H3.
  - exists "-1". vm_compute. reflexivity.
  - right. reflexivity.
  - reflexivity.
Defined.

(** ** What the buttons keep *)

Lemma unselected_sublist {A} (rows : list Z) (first : Z) (l : list A) :
  App.unselected rows first l `sublist_of` l.
Proof.
  revert first. induction l as [|x l IH]; intros first; [done|].
  cbn. destruct (bool_decide _); [by apply sublist_cons|by apply sublist_skip].
Qed.

Lemma split_two {A} (l : list A) (k : nat) :
  (S k < length l)%nat ->
  exists pre a b post, l = (pre ++ a :: b :: post)%list /\ length pre = k.
Proof.
  revert l. induction k as [|k IH]; intros l Hk.
  - destruct l as [|a [|b post]]; cbn in Hk; try lia.
    by exists [], a, b, post.
  - destruct l as [|x l]; cbn in Hk; [lia|].
    destruct (IH l) as (pre & a & b & post & -> & Hpre); [lia|].
    exists (x :: pre), a, b, post. cbn. by rewrite Hpre.
Qed.

Lemma decorate_inv {K A} (key : A -> result K) (l : list A) d :
  PyList.decorate key l = Ok d ->
  Forall (fun x => exists v, key x = Ok v) l.
Proof.
  revert d. induction l as [|x l IH]; intros d Hd; [constructor|].
  cbn in Hd. destruct (key x) as [k|e] eqn:Hx; [|done]. cbn in Hd.
  destruct (PyList.decorate key l) as [rest|e] eqn:Hl; [|done].
  constructor; [by exists k|]. by eapply IH.
Qed.

(** A sort leaves the window as it is, or refreshes the widget. *)
Lemma sort_alphabetically_keeps (st : App.t) :
  App.pdf_files (App.sort_alphabetically st) ≡ₚ App.pdf_files st
  /\ (App.sort_alphabetically st = st
      \/ App.in_step (App.sort_alphabetically st)).
Proof.
  unfold App.sort_alphabetically.
  destruct (App.pdf_files st) as [|f files] eqn:Hfiles.
  { rewrite Hfiles. split; [done|by left]. }
  rewrite <- Hfiles. unfold App.file_pairs.
  destruct (sort_pairs_by_key String.ltb PyStr.basename
              (fun x => PyStr.lower (fst x))
              string_ltb_irrefl string_ltb_asym string_not_lt_trans
              (App.pdf_files st)) as (Hperm & _ & _).
  simpl in *. split; [done|]. right. apply refresh_items.
Qed.

Lemma sort_numerically_keeps (lim : nat) (st : App.t) :
  App.pdf_files (App.sort_numerically lim st) ≡ₚ App.pdf_files st
  /\ (App.sort_numerically lim st = st
      \/ App.in_step (App.sort_numerically lim st)).
Proof.
  unfold App.sort_numerically.
  destruct (App.pdf_files st) as [|f files] eqn:Hfiles.
  { rewrite Hfiles. split; [done|by left]. }
  rewrite <- Hfiles. unfold App.file_pairs.
  destruct (PyList.decorate _ _) as [d|e] eqn:Hd; [|split; [done|by left]].
  pose proof (decorate_inv _ _ _ Hd) as Hkeys.
  rewrite (decorate_ok _
             (fun x => match App.extract_number lim (fst x)
                       with Ok v => v | Raise _ => 0 end)) in Hd.
  2:{ eapply Forall_impl; [exact Hkeys|]. simpl. intros p [v ->]. done. }
  injection Hd as <-.
  destruct (sort_pairs_by_key Z.ltb PyStr.basename
              (fun x => match App.extract_number lim (fst x)
                        with Ok v => v | Raise _ => 0 end)
              Z.ltb_irrefl
              (fun a b H => proj2 (Z.ltb_ge b a)
                              (Z.lt_le_incl _ _ (proj1 (Z.ltb_lt a b) H)))
              Z_not_lt_trans
              (App.pdf_files st)) as (Hperm & _ & _).
  simpl in *. split; [done|]. right. apply refresh_items.
Qed.

Lemma add_pdf_files_keeps (files : list string) (st : App.t) :
  (NoDup (App.pdf_files st) ->
   NoDup (App.pdf_files (App.add_pdf_files files st)))
  /\ (length (App.file_list st) = length (App.pdf_files st) ->
      length (App.file_list (App.add_pdf_files files st))
      = length (App.pdf_files (App.add_pdf_files files st)))
  /\ (App.in_step st -> App.in_step (App.add_pdf_files files st)).
Proof.
  unfold App.add_pdf_files. destruct files as [|file files]; [done|].
  destruct (add_loop (file :: files) st)
    as (added & Hf & Hi & Hnd & Hmem & Hsub & Hd).
  cbn [App.set_status App.pdf_files App.file_list]. split_and!.
  - intros Hnd0. rewrite Hf. apply NoDup_app. split_and!; try done.
    intros f Hf0 [_ Hn]%Hmem. done.
  - intros Hlen. by rewrite Hf, Hi, !length_app, length_fmap, Hlen.
  - unfold App.in_step. cbn [App.set_status App.pdf_files App.file_list].
    intros Hstep. by rewrite Hf, Hi, Hstep, fmap_app.
Qed.

Lemma swap_Permutation {A} (pre post : list A) (a b : A) :
  (pre ++ b :: a :: post)%list ≡ₚ (pre ++ a :: b :: post)%list.
Proof. apply Permutation_app_head, perm_swap. Qed.

(** The two moves at adjacent rows, whatever the widget shows. *)
Lemma move_rows (st : App.t) (pre post ipre ipost : list string)
    (a b ia ib : string) :
  App.pdf_files st = (pre ++ a :: b :: post)%list ->
  App.file_list st = (ipre ++ ia :: ib :: ipost)%list ->
  length ipre = length pre ->
  let r := Z.of_nat (length pre) in
  let st' := App.set_files (pre ++ b :: a :: post)%list
               (App.set_items (ipre ++ ib :: ia :: ipost)%list st) in
  App.move_file_up (r + 1) st = Ok st'
  /\ App.move_file_down r st = Ok st'.
Proof.
  intros Hf Hi Hlen r.
  assert (Hr : r = Z.of_nat (length ipre)) by (by rewrite Hlen).
  destruct (swap_items_adjacent pre post a b) as [Hs1 Hs2].
  destruct (move_items_adjacent ipre ipost ia ib) as [Hm1 Hm2].
  cbv zeta in Hs1, Hs2, Hm1, Hm2. rewrite <- Hr in Hm1, Hm2.
  fold r in Hs1, Hs2.
  unfold App.move_file_up, App.move_file_down.
  rewrite Hi, Hf, Hm1, Hm2, Hs1, Hs2.
  replace (0 <? r + 1) with true
    by (symmetry; apply Z.ltb_lt; unfold r; lia).
  replace (r <? _) with true.
  2:{ rewrite length_app. cbn. unfold r. rewrite Hlen.
      symmetry. apply Z.ltb_lt. lia. }
  done.
Qed.

Lemma move_rows_at (st : App.t) (k : nat) :
  length (App.file_list st) = length (App.pdf_files st) ->
  (S k < length (App.pdf_files st))%nat ->
  exists st',
    App.move_file_up (Z.of_nat k + 1) st = Ok st'
    /\ App.move_file_down (Z.of_nat k) st = Ok st'
    /\ App.pdf_files st' ≡ₚ App.pdf_files st
    /\ length (App.file_list st') = length (App.pdf_files st')
    /\ (App.in_step st -> App.in_step st').
Proof.
  intros Hlen Hk.
  destruct (split_two (App.pdf_files st) k Hk)
    as (pre & a & b & post & Hf & Hpre).
  destruct (split_two (App.file_list st) k)
    as (ipre & ia & ib & ipost & Hi & Hipre); [lia|].
  destruct (move_rows st pre post ipre ipost a b ia ib Hf Hi) as [Hup Hdown];
    [lia|].
  rewrite Hpre in Hup, Hdown.
  eexists. split; [exact Hup|]. split; [exact Hdown|]. split_and!.
  - cbn. rewrite Hf. apply swap_Permutation.
  - cbn. rewrite !length_app. cbn.
    assert (Hposts : length (App.file_list st) = length (App.pdf_files st))
      by done.
    rewrite Hf, Hi, !length_app in Hposts. cbn in Hposts. lia.
  - intros Hstep.
    destruct (move_adjacent st pre post a b Hf Hstep) as [Hup' _].
    rewrite Hpre, Hup in Hup'. injection Hup' as ->.
    apply move_adjacent_in_step.
Qed.

Lemma ends {A} (l : list A) :
  l <> [] ->
  (exists a, l = [a]) \/ (exists a mid z, l = (a :: mid ++ [z])%list).
Proof.
  destruct l as [|a l]; [done|]. intros _.
  destruct (decide (l = [])) as [->|Hne]; [left; eauto|].
  right. destruct (exists_last Hne) as (mid & z & ->). eauto.
Qed.

(** [move_file_down] when no item is current: the first and the last
    path change places, and the widget stays as it is. *)
Lemma move_file_down_no_current (st : App.t) (a z : string)
    (mid : list string) :
  length (App.file_list st) = length (App.pdf_files st) ->
  App.pdf_files st = (a :: mid ++ [z])%list ->
  App.move_file_down (-1) st
  = Ok (App.set_files (z :: mid ++ [a])%list
          (App.set_items (App.file_list st) st)).
Proof.
  intros Hlen Hf. unfold App.move_file_down.
  assert (Hn : length (App.pdf_files st) = S (S (length mid))).
  { rewrite Hf. cbn. rewrite length_app. cbn. lia. }
  replace (-1 <? Z.of_nat (length (App.file_list st)) - 1) with true
    by (symmetry; apply Z.ltb_lt; lia).
  change (-1 + 1) with 0. cbn [QListWidget.takeItem Z.leb Z.compare andb
                                 fst snd QListWidget.insertItem].
  unfold App.swap_items.
  assert (H0 : App.pdf_files st !! 0%nat = Some a) by (by rewrite Hf).
  assert (Hz : App.pdf_files st !! S (length mid) = Some z).
  { rewrite Hf. cbn. by apply list_lookup_middle. }
  pose proof (getitem_valid _ 0 _ H0) as Hfirst.
  change (Z.of_nat 0) with 0 in Hfirst.
  rewrite Hfirst.
  assert (Hlast : getitem (App.pdf_files st) (-1) = Ok z).
  { unfold getitem. cbn [Z.ltb Z.compare]. rewrite Hn.
    replace (-1 + Z.of_nat (S (S (length mid))))
      with (Z.of_nat (S (length mid))) by lia.
    destruct (valid_index (S (length mid)) (S (S (length mid)))) as [_ ->];
      [lia|].
    by rewrite Nat2Z.id, Hz. }
  rewrite Hlast. cbn [rbind].
  assert (Hset : PyList.setitem (App.pdf_files st) (-1) a
                 = Ok (a :: mid ++ [a])%list).
  { unfold PyList.setitem. cbn [Z.ltb Z.compare]. rewrite Hn.
    replace (-1 + Z.of_nat (S (S (length mid))))
      with (Z.of_nat (S (length mid))) by lia.
    destruct (valid_index (S (length mid)) (S (S (length mid)))) as [_ ->];
      [lia|].
    rewrite Nat2Z.id, Hf.
    change (<[S (length mid) := a]> (a :: mid ++ [z])%list)
      with (a :: <[length mid := a]> (mid ++ [z])%list).
    pose proof (insert_app_r mid [z] 0 a) as Hins.
    rewrite Nat.add_0_r in Hins. by rewrite Hins. }
  rewrite Hset. cbn [rbind].
  pose proof (setitem_valid (a :: mid ++ [a])%list 0 z) as Hset0.
  change (Z.of_nat 0) with 0 in Hset0. rewrite Hset0 by (cbn; lia). done.
Qed.

Lemma move_file_down_no_current_one (st : App.t) (a : string) :
  length (App.file_list st) = length (App.pdf_files st) ->
  App.pdf_files st = [a] ->
  App.move_file_down (-1) st = Ok st.
Proof.
  destruct st as [files items drag status]. cbn. intros Hlen ->.
  destruct items as [|i [|]]; try done.
Qed.

(** One use of a button, from a window whose lists have the same length
    and that holds no path twice. *)
Lemma click_keeps lim (b : press) (st : App.t) :
  NoDup (App.pdf_files st) ->
  length (App.file_list st) = length (App.pdf_files st) ->
  answerable b st ->
  exists st',
    click lim b st = Ok st'
    /\ NoDup (App.pdf_files st')
    /\ length (App.file_list st') = length (App.pdf_files st')
    /\ (App.in_step st -> b <> Move_Down (-1) -> App.in_step st').
Proof.
  intros Hnd Hlen Hb.
  destruct b as [files|rows| |row|row| |]; cbn [click answerable] in *.
  - destruct (add_pdf_files_keeps files st) as (H1 & H2 & H3).
    eexists. split; [done|]. split_and!; [by apply H1|by apply H2|].
    intros Hs _. by apply H3.
  - destruct Hb as [Hrows Hvalid]. rewrite Hlen in Hvalid.
    rewrite (remove_selected_files_ok rows st Hrows Hvalid Hlen).
    eexists. split; [done|].
    cbn [App.set_status App.set_files App.set_items App.pdf_files
           App.file_list].
    split_and!.
    + eapply sublist_NoDup; [exact Hnd|apply unselected_sublist].
    + rewrite !unselected_length_NoDup by (by rewrite ?Hlen). by rewrite Hlen.
    + intros Hstep _. unfold App.in_step. cbn.
      by rewrite Hstep, unselected_fmap.
  - eexists. split; [done|]. split_and!; [apply NoDup_nil_2|done|done].
  - destruct (decide (row <= 0)) as [Hrow|Hrow].
    { exists st. unfold App.move_file_up.
      replace (0 <? row) with false by (symmetry; apply Z.ltb_ge; lia).
      by split_and!. }
    destruct (move_rows_at st (Z.to_nat row - 1) Hlen)
      as (st' & Hup & _ & Hperm & Hlen' & Hstep); [lia|].
    replace (Z.of_nat (Z.to_nat row - 1) + 1) with row in Hup by lia.
    exists st'. split; [done|]. split_and!; [by rewrite Hperm|done|].
    intros Hs _. by apply Hstep.
  - destruct (decide (row = -1)) as [->|Hcur].
    { destruct (decide (App.pdf_files st = [])) as [Hnil|Hne].
      - assert (Hguard : (-1 <? Z.of_nat (length (App.file_list st)) - 1)
                         = false) by (by rewrite Hlen, Hnil).
        exists st. unfold App.move_file_down. rewrite Hguard.
        by split_and!.
      - destruct (ends _ Hne) as [[a Ha]|(a & mid & z & Hf)].
        + exists st. rewrite (move_file_down_no_current_one st a) by done.
          by split_and!.
        + rewrite (move_file_down_no_current st a z mid) by done.
          eexists. split; [done|].
          cbn [App.set_files App.set_items App.pdf_files App.file_list].
          split_and!.
          * rewrite Hf in Hnd.
            assert (Hperm : (z :: mid ++ [a])%list ≡ₚ (a :: mid ++ [z])%list).
            { rewrite (Permutation_app_comm mid [a]),
                (Permutation_app_comm mid [z]). apply perm_swap. }
            by rewrite Hperm.
          * rewrite Hlen, Hf. cbn. by rewrite !length_app.
          * done. }
    destruct (decide (row = Z.of_nat (length (App.file_list st)) - 1))
      as [->|Hlast].
    { exists st. unfold App.move_file_down. rewrite Z.ltb_irrefl.
      by split_and!. }
    destruct (move_rows_at st (Z.to_nat row) Hlen)
      as (st' & _ & Hdown & Hperm & Hlen' & Hstep); [lia|].
    replace (Z.of_nat (Z.to_nat row)) with row in Hdown by lia.
    exists st'. split; [done|]. split_and!; [by rewrite Hperm|done|].
    intros Hs _. by apply Hstep.
  - destruct (sort_alphabetically_keeps st) as [Hperm Hcases].
    eexists. split; [done|]. split_and!.
    + by rewrite Hperm.
    + destruct Hcases as [->|Hs]; [done|]. by rewrite Hs, length_fmap.
    + intros Hstep _. by destruct Hcases as [->|Hs].
  - destruct (sort_numerically_keeps lim st) as [Hperm Hcases].
    eexists. split; [done|]. split_and!.
    + by rewrite Hperm.
    + destruct Hcases as [->|Hs]; [done|]. by rewrite Hs, length_fmap.
    + intros Hstep _. by destruct Hcases as [->|Hs].
Qed.

(** X17: whatever buttons are used after the window opens, outside the
    drag-and-drop mode, no path is held twice, the widget has as many
    rows as there are paths, and no button raises an exception.  Every
    button but one also keeps the widget in step with [pdf_files]: Move
    Down when no item is current ([currentRow()] is -1, which
    [move_file_down] does not exclude) exchanges the first and the last
    path and leaves the widget as it is, so that the widget no longer
    shows the files in the order in which they are merged. *)
Theorem X17_what_the_buttons_keep (lim : nat) (st : App.t) :
  rtc (button lim) App.init st ->
  NoDup (App.pdf_files st)
  /\ length (App.file_list st) = length (App.pdf_files st)
  /\ (forall b, answerable b st -> exists st', click lim b st = Ok st')
  /\ (forall b st',
        answerable b st -> click lim b st = Ok st' ->
        App.in_step st -> b <> Move_Down (-1) -> App.in_step st')
  /\ (forall a mid z,
        App.pdf_files st = (a :: mid ++ [z])%list ->
        App.in_step st ->
        PyStr.basename a <> PyStr.basename z ->
        exists st',
          click lim (Move_Down (-1)) st = Ok st'
          /\ App.pdf_files st' = (z :: mid ++ [a])%list
          /\ App.file_list st' = App.file_list st
          /\ ~ App.in_step st').
Proof.
  intros Hreach.
  assert (Hinv : NoDup (App.pdf_files st)
                 /\ length (App.file_list st) = length (App.pdf_files st)).
  { revert st Hreach.
    apply (rtc_ind_r (fun st =>
             NoDup (App.pdf_files st)
             /\ length (App.file_list st) = length (App.pdf_files st))).
    - split; [apply NoDup_nil_2|done].
    - intros st1 st2 _ (b & Hb & Hclick) [Hnd Hlen].
      destruct (click_keeps lim b st1 Hnd Hlen Hb)
        as (st' & Hclick' & Hnd' & Hlen' & _).
      rewrite Hclick in Hclick'. by injection Hclick' as <-. }
  destruct Hinv as [Hnd Hlen]. split_and!; try done.
  - intros b Hb.
    destruct (click_keeps lim b st Hnd Hlen Hb) as (st' & Hclick & _). eauto.
  - intros b st' Hb Hclick Hstep Hne.
    destruct (click_keeps lim b st Hnd Hlen Hb)
      as (st1 & Hclick' & _ & _ & Hkeeps).
    rewrite Hclick in Hclick'. injection Hclick' as <-. auto.
  - intros a mid z Hf Hstep Hnames. cbn [click].
    rewrite (move_file_down_no_current st a z mid Hlen Hf).
    eexists. split; [done|]. split_and!; try done.
    unfold App.in_step. cbn. rewrite Hstep, Hf. cbn. congruence.
Qed.

(** The instance of X17 for two files added and sorted: the window is
    reached, holds no path twice, and Move Down with no current item
    takes it out of step. *)
Lemma X17_what_the_buttons_keep_witness :
  rtc (button 4300) App.init
    (App.sort_alphabetically
       (App.add_pdf_files ["/in/b10.pdf"; "/in/A2.pdf"] App.init))
  /\ NoDup
       (App.pdf_files
          (App.sort_alphabetically
             (App.add_pdf_files ["/in/b10.pdf"; "/in/A2.pdf"] App.init)))
  /\ exists st',
       click 4300 (Move_Down (-1))
         (App.sort_alphabetically
            (App.add_pdf_files ["/in/b10.pdf"; "/in/A2.pdf"] App.init))
       = Ok st'
       /\ App.pdf_files st' = ["/in/b10.pdf"; "/in/A2.pdf"]
       /\ App.file_list st' = ["A2.pdf"; "b10.pdf"]
       /\ ~ App.in_step st'.
Proof.
  assert (Hreach : rtc (button 4300) App.init
            (App.sort_alphabetically
               (App.add_pdf_files ["/in/b10.pdf"; "/in/A2.pdf"] App.init))).
  { eapply rtc_l.
    - exists (Add_PDFs ["/in/b10.pdf"; "/in/A2.pdf"]). by split.
    - apply rtc_once. exists Sort_Alphabetically. by split. }
  split; [exact Hreach|].
  destruct (X17_what_the_buttons_keep 4300 _ Hreach)
    as (Hnd & _ & _ & _ & Hbreak).
  split; [exact Hnd|].
  apply (Hbreak "/in/A2.pdf" [] "/in/b10.pdf").
  - by vm_compute.
  - by vm_compute.
  - by vm_compute.
Defined.
